(* ===== verification/_CoqProject ===== *)
-Q . S2P
Prelude.v
CString.v
Stream.v
Platform.v
State.v
Registry.v
Property.v
Monitor.v
Api.v
Lifecycle.v
Scenario.v
Typing.v
Concurrency.v
Mutex.v
Harness.v
