(* ===== verification/Prelude.v ===== *)
(** * A verification development for rdk-libusbctrl

    The library [src/src/usbctrl.cpp] keeps a registry of attached USB
    devices behind a recursive mutex, fills it by enumeration
    ([rusbCtrl_init]), keeps it up to date from a background thread
    that waits in [select] on a control pipe and on the libudev monitor
    socket ([monitor_for_changes]), notifies one registered callback of
    each attach and detach, and answers property queries
    ([rusbCtrl_getProperty]). [src/src/usbtest.cpp] is an interactive
    test harness around that C API.

    ** Files and what they model

    - [Prelude] (this file): the state-and-fault monad [ST] in which every
      operation is written (a run returns [Ok (result, state)] or
      [Crash f], where [f] names the undefined behaviour reached: NULL
      read, use after free, signed overflow, access past an allocation,
      free of an uninitialised pointer, a wait for a mutex no thread will
      release); total Hoare
      triples; the combinator [preserves] for invariants with its hint
      database and the tactic [solve_preserves]; [INT_MAX]; shared list
      lemmas.
    - [CString]: the libc functions the code calls on [const char *]:
      [strlen], [strncmp] (glibc's semantics), [malloc], [strncpy], and
      reading a returned [char *] up to its terminator ([c_str_read]).
    - [Stream] (Module [IOStream]): the C++ streams the harness uses,
      modelled from libstdc++ since they are not in the repository:
      [std::cin >> int] ([read_int]: white space, sign, digits, range
      check), [std::cin >> std::string] ([read_word]), [cin.ignore] and
      [std::cout << int] ([put_int]). Input is the list of characters
      not yet read, output the list of characters printed.
    - [Platform] (Module [Udev]): libudev, which is not part of the
      repository, modelled from the spec's section 6 as a store of
      reference-counted device objects addressed by [positive] pointers,
      and a queue of pending monitor events.
    - [State]: [class device_manager]'s fields (lines 67-105) and its
      [device_record] (70-93) as records; the [machine] adds the libudev
      store, whether the control pipe's write end is open, the log of
      callback invocations, the monitor fd, closed fds and the thread's
      phase.
    - [Registry]: [get_new_identifier], [add_device_to_records],
      [remove_device_from_records] with its [strncmp] search,
      [reset_device_records], [get_connected_devices_list] (344-535).
    - [Property]: [get_property] (227-258) as written, and the
      resolver's contract [property_value] it is stated against.
    - [Monitor]: [process_control_event], [process_udev_monitor_event]
      and [monitor_for_changes] (279-340, 480-529): one pass of the
      [while] loop is [monitor_iteration], [monitor_loop] runs passes with
      fuel, [monitor_for_changes] is the whole body and
      [monitor_thread_wrapper] (200-204) the thread's entry, which
      returns no value, and [mstep] is the thread's transition relation with the
      kernel queueing events.
    - [Api]: [enumerate_connected_devices], [init], [term],
      [register_callback] and the [rusbCtrl_*] functions (205-277,
      377-422, 540-558); [sstep] interleaves the monitor thread with the
      API calls that take [m_mutex], each one atomic step.
    - [Lifecycle]: the constructor of the static [device_manager]
      (108-162) as a function of what its calls return, and its
      destructor (164-199) as a signal step, the monitor thread's own
      steps up to its return (the join; [quiet_step] is the thread's own
      steps with no signal and no new kernel event), and a finishing
      step.
    - [Scenario]: concrete machines built as the spec's section 8
      scenarios run; the theorems applied at those machines.
    - [Typing]: the spec's types of a notification ([connected] a
      boolean, the identifier a positive [int]) as a predicate on the log
      of calls.
    - [Concurrency]: the two places that read shared state without the
      lock ([rusbCtrl_getProperty] and the callback test in
      [process_udev_monitor_event]), split into the steps another thread
      can separate, and what the interleavings do.
    - [Mutex]: [m_mutex] as pthread's type, owner and recursion count,
      set up recursive and unlocked by the constructor's
      [pthread_mutexattr_init], [pthread_mutexattr_settype] and
      [pthread_mutex_init] (110-113); [pthread_mutex_lock],
      [pthread_mutex_unlock] and [pthread_mutex_destroy] as POSIX
      specifies them (modelled from POSIX, not in the repository);
      [REPORT_IF_UNEQUAL] (46-47); and the locked methods written with
      their lock calls, as thread programs of [Lock], [Unlock] and tagged
      machine steps: [term], [register_callback],
      [enumerate_connected_devices] (with its early unlock when
      [udev_enumerate_new] fails), [process_udev_monitor_event] and
      [get_property]. [run] executes one thread alone; [pool_step]
      interleaves any number of threads on one mutex and one machine;
      [program_threads] describes the program's threads, each calling
      these methods one after another.
    - [Harness]: [usbtest.cpp]: its globals, [callback], [print_menu],
      [dump_connected_devices], every case of [launcher]'s menu and
      [main], on a process made of the library's machine and the
      harness's state; [pstep] interleaves the harness's menu passes
      with monitor steps, each followed by the callbacks it made (the
      code calls [m_callback] as the last statement of
      [process_udev_monitor_event]). [Stream] models the C++ streams
      it reads and prints with.

    ** What is proved

    - Invariants of the whole process ([Api.system_mon_inv],
      [Api.system_connect_ids_distinct]): in every state reachable by any
      interleaving of monitor passes, kernel events, [init], [term] and
      [register_callback], identifiers in the registry are distinct,
      positive and at most the counter; every live udev device is held by
      exactly one record (so every release happens once and no record
      points to a released device); and the identifiers of connect
      notifications are pairwise distinct, across removals and
      re-enumerations.
    - Termination ([Monitor.monitor_loop_terminates]): from such a state
      with well-formed events, the thread's body [monitor_for_changes]
      run with more fuel than the loop's measure returns without a
      fault: at once when the monitor fd is invalid, else by blocking or
      by leaving the loop.
      The measure is the number of pending events plus one while
      monitoring is enabled: each pass that stays in the loop consumes an
      event or disables monitoring, so fuel = pending events + 2 is enough.
    - Refinement ([Registry.remove_device_from_records_refines]): the
      code's prefix search removes what the spec's exact-key removal
      removes when no stored devnode extends the event's; when one does
      and comes first, that record is removed instead, whatever record
      holds the event's devnode ([remove_device_from_records_prefix]); a
      NULL stored devnode met before any match is read by [strncmp]
      ([find_by_devnode_null]).
    - Functional behaviour and error paths of each operation: property
      lookup (unknown identifier, safety under the invariant, the missing
      terminator), shutdown on
      EOF, the tie-break between the two fds, a signal ending monitoring,
      enumeration numbering, [init] hiding an enumeration failure, [term]
      clearing the state, the registration snapshot, and overflow of the
      [int] counter at [INT_MAX] (modelled as a [SignedOverflow] fault,
      since the increment is undefined behaviour in C++).
    - Lifecycle ([Lifecycle]): after the destructor's signal the thread
      reaches its end from any phase by its own steps, with no signal and
      no new kernel event, so the join returns ([dtor_join_returns]);
      without the close of the write end a thread blocked in [select]
      would never return; and the monitor's socket is
      closed twice, by the thread and by [udev_monitor_unref]
      ([destructor_closes_monitor_fd_twice]).
    - Races ([Concurrency]): a removal between [get_property]'s lookup and
      its query is a use after free; [term] between the callback test and
      the call makes the monitor thread call through NULL.
    - The mutex ([Mutex]): [term], [register_callback] and enumeration
      keep the spec's lock discipline and balance lock and unlock on
      every path, while the monitor's callback test and [get_property]
      do not ([lock_discipline]). For the program's threads (clients
      calling these methods and [get_property] in any order, the monitor
      thread handling events), in any interleaving: no
      [REPORT_IF_UNEQUAL] around a lock call fires and the threads that
      only call the locked methods access the registry one at a time
      ([pool_mutual_exclusion]); they never deadlock: while a thread is
      left, the owner (or, with the mutex free, any thread) can step
      unless its step faults ([pool_no_deadlock]); and once every thread
      has returned the mutex is free, so the destructor's
      [pthread_mutex_destroy] returns 0, not [EBUSY]
      ([pool_destroy_after_exit]). Each of these fails if one of the
      methods misses an unlock on some path. Lemmas [run_erase] and
      [erase_*_prog] check that each locked method run alone computes
      the single step [sstep] uses; that atomicity under interleaving
      is not proved.
    - Types ([Typing.system_calls_typed]): in every reachable state each
      notification passes [connected] = 0 or 1 and a positive [int]
      identifier.
    - The harness ([Harness]): at end of input [main] never returns (each
      pass prints the menu and [Oops!] again); command 3 frees an
      uninitialised pointer when no device is known and duplicates the
      list when repeated; every connect callback and every answered
      property query reads past the unterminated buffer the library
      returns; and each menu pass consumes input, so the loop drains
      [std::cin] within as many passes as it has characters. The
      launcher runs with fuel, a number
      of passes; [main] returns [None] when the fuel runs out, which the
      end-of-input theorem shows happens for every fuel.

    ** Choices

    - Pointers the code only tests against NULL are booleans; function
      pointers and [void *] payloads are integers, 0 for NULL; a devnode
      is [option string], [None] for NULL. The identifier counter is a
      [Z] checked against [INT_MAX] at each increment.
    - [select]'s result is computed from the machine: the control fd is
      readable once the pipe's write end is closed (no byte is ever
      written to it), the socket while an event is pending; an interrupted
      [select] returns -1.
    - Outside [Mutex], methods that hold [m_mutex] throughout are single
      steps of [sstep]; [Mutex.run_erase] with the [erase_*_prog] lemmas
      shows that one thread running them with their lock calls gives the
      same result (their atomicity among other threads is assumed, not
      proved). In [Mutex] a
      thread whose lock call must wait takes no step, and one whose step
      faults stops; a lock on a mutex another thread holds, run alone,
      is the fault [Deadlock].

    ** Not modelled

    The destructor's [pthread_mutex_destroy] as a step of [Lifecycle]
    (it is defined in [Mutex]; its result is ignored), the
    unused [supported_property_list] beyond its contents (no function
    reads it), [udev_unref] of the context
    (no state the code observes), logging, the enumerator object's own
    lifetime, [free] of a buffer the library returned (the model keeps no
    heap of buffers; only a free of an uninitialised pointer is a
    fault), and the stream's error flags (the harness clears them after
    every failure). In the library's own model a callback's calls are
    logged, not run; [Harness] runs the harness's [callback] on them. In
    [Harness] a menu pass is atomic, so the unsynchronised access to
    [connected_device_ids] by both threads is not modelled, nor the
    reallocation of [callback_payload]'s buffer while the library holds
    its old [c_str()]. The thread's blocked [select] is a phase
    ([MonWaiting]) from which it resumes without re-testing the flag, as
    the C loop does. *)

From stdpp Require Export base list gmap strings.
From Stdlib Require Export ZArith Lia.

(** ** Faults

    Undefined behaviour that the modelled C++ code can reach is not left
    implicit: every operation of the model that could dereference a NULL
    pointer, touch a released udev object, overflow a signed [int],
    run past an allocation, free a pointer that was never set or wait
    forever for a mutex stops with the corresponding [fault] instead of
    returning. *)
Inductive fault : Type :=
  | NullDeref        (** a NULL [const char *] is read *)
  | UseAfterFree     (** a udev object whose last reference was dropped is used *)
  | SignedOverflow   (** a signed [int] increment overflows *)
  | BufferOverflow   (** an access runs past a heap allocation *)
  | InvalidPointer   (** an uninitialised pointer is read through or freed *)
  | Deadlock.        (** a thread waits for a mutex no running thread will release *)

#[export] Instance fault_eq_dec : EqDecision fault.
Proof. solve_decision. Defined.

Inductive exec (A : Type) : Type :=
  | Ok (a : A)
  | Crash (f : fault).
Arguments Ok {A} a.
Arguments Crash {A} f.

(** ** A state monad with faults

    [ST S A] threads the state [S] of the modelled process and either
    returns a value with the new state or stops on a fault. *)
Definition ST (S A : Type) : Type := S -> exec (A * S).

Definition st_ret {S A} (a : A) : ST S A := fun s => Ok (a, s).
Definition st_bind {S A B} (m : ST S A) (k : A -> ST S B) : ST S B :=
  fun s => match m s with Ok (a, s') => k a s' | Crash f => Crash f end.
Definition st_get {S} : ST S S := fun s => Ok (s, s).
Definition st_gets {S A} (f : S -> A) : ST S A := fun s => Ok (f s, s).
Definition st_put {S} (s : S) : ST S unit := fun _ => Ok (tt, s).
Definition st_modify {S} (f : S -> S) : ST S unit := fun s => Ok (tt, f s).
Definition st_crash {S A} (f : fault) : ST S A := fun _ => Crash f.

(** Run [f] on every element of a list, in order (a C++ range loop). *)
Fixpoint st_iter {S A} (f : A -> ST S unit) (l : list A) : ST S unit :=
  match l with
  | [] => st_ret tt
  | x :: l' => st_bind (f x) (fun _ => st_iter f l')
  end.

Declare Scope st_scope.
Delimit Scope st_scope with st.
Notation "x <- m ;; k" := (st_bind m (fun x => k))
  (at level 100, m at next level, right associativity) : st_scope.
Notation "m ;; k" := (st_bind m (fun _ : unit => k))
  (at level 100, k at level 200, right associativity) : st_scope.
Notation "'ret' a" := (st_ret a) (at level 10) : st_scope.

(** ** Total Hoare triples

    [triple P m Q]: from every state satisfying [P], [m] does not fault,
    and its result and final state satisfy [Q]. These are total
    statements: a computation that faults never satisfies a triple. *)
Definition triple {S A} (P : S -> Prop) (m : ST S A) (Q : A -> S -> Prop) : Prop :=
  forall s, P s -> exists a s', m s = Ok (a, s') /\ Q a s'.

Section Triples.
Context {S : Type}.

Lemma triple_ret {A} (P : A -> S -> Prop) (a : A) :
  triple (P a) (st_ret a) P.
Proof. intros s Hs. by exists a, s. Qed.

Lemma triple_bind {A B} (P : S -> Prop) (R : A -> S -> Prop) (Q : B -> S -> Prop)
      (m : ST S A) (k : A -> ST S B) :
  triple P m R -> (forall a, triple (R a) (k a) Q) -> triple P (st_bind m k) Q.
Proof.
  intros Hm Hk s Hs. destruct (Hm s Hs) as (a & s' & Hrun & HR).
  destruct (Hk a s' HR) as (b & s'' & Hrun' & HQ).
  exists b, s''. unfold st_bind. by rewrite Hrun.
Qed.

Lemma triple_conseq {A} (P P' : S -> Prop) (Q Q' : A -> S -> Prop) (m : ST S A) :
  triple P' m Q' -> (forall s, P s -> P' s) -> (forall a s, Q' a s -> Q a s) ->
  triple P m Q.
Proof.
  intros Hm HP HQ s Hs. destruct (Hm s (HP s Hs)) as (a & s' & ? & ?). eauto.
Qed.

Lemma triple_gets {A} (P : A -> S -> Prop) (f : S -> A) :
  triple (fun s => P (f s) s) (st_gets f) P.
Proof. intros s Hs. by exists (f s), s. Qed.

Lemma triple_modify (P : unit -> S -> Prop) (f : S -> S) :
  triple (fun s => P tt (f s)) (st_modify f) P.
Proof. intros s Hs. by exists tt, (f s). Qed.

Lemma triple_iter {A} (I : list A -> S -> Prop) (f : A -> ST S unit) (l : list A) :
  (forall x l', triple (I (x :: l')) (f x) (fun _ => I l')) ->
  triple (I l) (st_iter f l) (fun _ => I []).
Proof.
  intros Hf. induction l as [|x l IH]; simpl.
  - apply (triple_ret (fun _ => I [])).
  - eapply triple_bind; [apply Hf | intros a; apply IH].
Qed.

(** Running a computation covered by a triple. *)
Lemma triple_run {A} (P : S -> Prop) (m : ST S A) (Q : A -> S -> Prop) s :
  triple P m Q -> P s -> exists a s', m s = Ok (a, s') /\ Q a s'.
Proof. intros H Hs. exact (H s Hs). Qed.

Lemma st_bind_Ok {A B} (m : ST S A) (k : A -> ST S B) s b s'' :
  st_bind m k s = Ok (b, s'') ->
  exists a s', m s = Ok (a, s') /\ k a s' = Ok (b, s'').
Proof. unfold st_bind. destruct (m s) as [[a s']|f]; [eauto | discriminate]. Qed.

Lemma st_bind_Ok_eq {A B} (m : ST S A) (k : A -> ST S B) s a s' :
  m s = Ok (a, s') -> st_bind m k s = k a s'.
Proof. unfold st_bind. by intros ->. Qed.

Lemma st_bind_Crash_eq {A B} (m : ST S A) (k : A -> ST S B) s f :
  m s = Crash f -> st_bind m k s = Crash f.
Proof. unfold st_bind. by intros ->. Qed.

(** Binds whose continuations agree at every value and state agree. *)
Lemma st_bind_ext {A B} (m : ST S A) (k1 k2 : A -> ST S B) s :
  (forall a s', k1 a s' = k2 a s') -> st_bind m k1 s = st_bind m k2 s.
Proof. unfold st_bind. intros H. by destruct (m s) as [[a s']|f]. Qed.
End Triples.

Create HintDb triples discriminated.
#[export] Hint Resolve triple_ret triple_gets triple_modify : triples.

(** [st_step] decomposes a run [st_bind m k s = Ok _] into the run of [m]
    and of its continuation. *)
Ltac st_inv :=
  repeat match goal with
  | H : st_bind _ _ _ = Ok _ |- _ =>
      apply st_bind_Ok in H; destruct H as (? & ? & ? & H)
  | H : st_ret _ _ = Ok _ |- _ => injection H as <- <-
  | H : Ok _ = Ok _ |- _ => injection H as <-
  | H : (_, _) = (_, _) |- _ => injection H as <- <-
  end.

(** Prove a decidable proposition on concrete data by evaluating its
    decision procedure. *)
Ltac by_decide := apply (bool_decide_unpack _); vm_compute; exact I.

(** ** Machine integers *)
Definition INT_MAX : Z := 2 ^ 31 - 1.
Definition INT_MIN : Z := - 2 ^ 31.

(** Lifting a pure result that may fault into the monad. *)
Definition st_lift {S A} (e : exec A) : ST S A :=
  fun s => match e with Ok a => Ok (a, s) | Crash f => Crash f end.

(** ** Lists *)
Lemma NoDup_app_cons_ne {A} (l1 l2 : list A) (x y : A) :
  NoDup (l1 ++ x :: l2) -> y ∈ l1 ++ l2 -> y <> x.
Proof.
  intros Hnd Hy ->. apply NoDup_app in Hnd as (_ & Hdis & Hnd2).
  apply NoDup_cons in Hnd2 as [Hnot _]. apply elem_of_app in Hy as [Hy|Hy].
  - apply (Hdis x Hy). by left.
  - done.
Qed.

(** Under an injective key list, two elements with the same key are one. *)
Lemma NoDup_fmap_same {A B} (f : A -> B) (l : list A) x y :
  NoDup (f <$> l) -> x ∈ l -> y ∈ l -> f x = f y -> x = y.
Proof.
  induction l as [|z l IH]; [by intros _ ?%not_elem_of_nil|]. simpl.
  intros [Hn Hnd]%NoDup_cons. rewrite !elem_of_cons.
  intros [->|Hx] [->|Hy] Hf; auto; exfalso; apply Hn;
    [rewrite Hf | rewrite <- Hf]; by apply list_elem_of_fmap_2.
Qed.

Lemma st_lift_Ok {S A} (e : exec A) (s s' : S) a :
  st_lift e s = Ok (a, s') -> e = Ok a /\ s' = s.
Proof. unfold st_lift. destruct e; [by intros [= -> ->] | done]. Qed.

Lemma st_gets_Ok {S A} (f : S -> A) (s s' : S) a :
  st_gets f s = Ok (a, s') -> a = f s /\ s' = s.
Proof. unfold st_gets. by intros [= -> ->]. Qed.

(** ** Invariants of computations

    [preserves I m]: every run of [m] that does not fault, started in a
    state satisfying [I], ends in one. *)
Definition preserves {S A} (I : S -> Prop) (m : ST S A) : Prop :=
  forall s a s', I s -> m s = Ok (a, s') -> I s'.

Section Preserves.
Context {S : Type} (I : S -> Prop).

Lemma preserves_bind {A B} (m : ST S A) (k : A -> ST S B) :
  preserves I m -> (forall a, preserves I (k a)) -> preserves I (st_bind m k).
Proof.
  intros Hm Hk s b s'' Hs Hrun. apply st_bind_Ok in Hrun as (a & s' & H1 & H2).
  exact (Hk a s' b s'' (Hm s a s' Hs H1) H2).
Qed.

Lemma preserves_ret {A} (a : A) : preserves I (st_ret a).
Proof. by intros s ? s' Hs [= _ <-]. Qed.

Lemma preserves_gets {A} (f : S -> A) : preserves I (st_gets f).
Proof. by intros s ? s' Hs [= _ <-]. Qed.

Lemma preserves_modify (f : S -> S) : (forall s, I s -> I (f s)) -> preserves I (st_modify f).
Proof. intros Hf s ? s' Hs [= _ <-]. by apply Hf. Qed.

Lemma preserves_crash {A} (f : fault) : preserves I (st_crash (A:=A) f).
Proof. by intros s ? s' Hs. Qed.

Lemma preserves_lift {A} (e : exec A) : preserves I (st_lift e).
Proof. intros s a s' Hs H. by apply st_lift_Ok in H as [_ ->]. Qed.

Lemma preserves_iter {A} (f : A -> ST S unit) (l : list A) :
  (forall x, preserves I (f x)) -> preserves I (st_iter f l).
Proof.
  intros Hf. induction l as [|x l IH]; simpl; [apply preserves_ret|].
  apply preserves_bind; [apply Hf | intros; apply IH].
Qed.
End Preserves.

Create HintDb preserves discriminated.
#[export] Hint Resolve preserves_ret preserves_gets preserves_crash preserves_lift : preserves.

(** Decompose a [preserves] goal along the structure of the program,
    case-splitting on its tests. *)
Ltac preserves_step :=
  match goal with
  | |- preserves _ (st_bind _ _) => apply preserves_bind; [|intros ?]
  | |- preserves _ (st_modify _) => apply preserves_modify; intros ? ?
  | |- preserves _ (st_iter _ _) => apply preserves_iter; intros ?; cbv beta
  | |- preserves _ (if ?b then _ else _) => destruct b
  | |- preserves _ (match ?x with _ => _ end) => destruct x
  end.
Ltac solve_preserves := repeat (preserves_step || eauto with preserves).
