(* ===== verification/CString.v ===== *)
(** * C strings and byte buffers

    The C library functions that [src/src/usbctrl.cpp] applies to
    [const char *] values: [strlen], [strncmp], [malloc] and [strncpy],
    and what a caller does with a returned [char *]: read it up to its NUL
    terminator. A C string is a Rocq [string] whose end stands for the
    terminator; a heap buffer is a list of bytes, [None] for a byte that
    was allocated but never written. *)

From S2P Require Import Prelude.
From Stdlib Require Import Ascii.

Module CString.

Definition NUL : ascii := "000"%char.

(** [unsigned char] value of a character, as [strncmp] compares them. *)
Definition uchar (c : ascii) : Z := Z.of_nat (nat_of_ascii c).

(** The character at the head of a [char *] and the pointer one further;
    at the end of the string the head is the terminator. *)
Definition chr0 (s : string) : ascii :=
  match s with EmptyString => NUL | String c _ => c end.
Definition tl0 (s : string) : string :=
  match s with EmptyString => EmptyString | String _ s' => s' end.

(** [size_t strlen(const char *s)]: characters before the first NUL. *)
Fixpoint strlen (s : string) : nat :=
  match s with
  | EmptyString => 0
  | String c s' => if decide (c = NUL) then 0 else S (strlen s')
  end.

(** [int strncmp(const char *s1, const char *s2, size_t n)], as glibc
    writes it: compare at most [n] characters, stop at the first
    difference or at a terminator of [s1]. *)
Fixpoint strncmp (s1 s2 : string) (n : nat) : Z :=
  match n with
  | O => 0%Z
  | S n' =>
      let c1 := chr0 s1 in
      let c2 := chr0 s2 in
      if decide (c1 = c2) then
        if decide (c1 = NUL) then 0%Z else strncmp (tl0 s1) (tl0 s2) n'
      else (uchar c1 - uchar c2)%Z
  end.

(** The characters a C function sees in at most [n] steps: the string up
    to its terminator, cut after [n] characters. *)
Fixpoint ctrunc (n : nat) (s : string) : string :=
  match n, s with
  | O, _ => EmptyString
  | _, EmptyString => EmptyString
  | S n', String c s' => if decide (c = NUL) then EmptyString else String c (ctrunc n' s')
  end.

(** A string that a C API can hand out: no NUL inside it. *)
Fixpoint nul_free (s : string) : bool :=
  match s with
  | EmptyString => true
  | String c s' => bool_decide (c <> NUL) && nul_free s'
  end.

(** ** Heap buffers *)
Definition buffer := list (option ascii).

(** [malloc(n)]: [n] bytes that hold no value yet. *)
Definition malloc (n : nat) : buffer := replicate n None.

(** The [n] bytes [strncpy(dst, src, n)] stores: the characters of [src],
    then NUL padding once its terminator is reached. *)
Fixpoint strncpy_bytes (src : string) (n : nat) : list ascii :=
  match n with
  | O => []
  | S n' =>
      let c := chr0 src in
      if decide (c = NUL) then replicate n NUL else c :: strncpy_bytes (tl0 src) n'
  end.

(** [strncpy(dst, src, n)] on a buffer of [length dst] bytes; [None] when
    it would write past the allocation. *)
Definition strncpy (dst : buffer) (src : string) (n : nat) : option buffer :=
  if decide (n <= length dst) then Some (map Some (strncpy_bytes src n) ++ drop n dst)
  else None.

(** Reading a returned [char *] as a C string ([std::cout << p],
    [printf("%s")]): the characters up to the first NUL. [None] when no
    NUL lies inside the allocation (the read runs past it) or an
    unwritten byte is met first. *)
Fixpoint c_str_read (b : buffer) : option string :=
  match b with
  | [] => None
  | None :: _ => None
  | Some c :: b' => if decide (c = NUL) then Some EmptyString else String c <$> c_str_read b'
  end.

(** ** Lemmas *)

Lemma uchar_inj c1 c2 : uchar c1 = uchar c2 -> c1 = c2.
Proof.
  unfold uchar. intros H. apply Nat2Z.inj in H.
  by rewrite <- (ascii_nat_embedding c1), <- (ascii_nat_embedding c2), H.
Qed.

Lemma strncmp_zero_iff n s1 s2 : strncmp s1 s2 n = 0%Z <-> ctrunc n s1 = ctrunc n s2.
Proof.
  revert s1 s2. induction n as [|n IH]; intros s1 s2; [done|].
  destruct s1 as [|c1 s1], s2 as [|c2 s2]; simpl;
    repeat case_decide; subst; simpl in *; try done;
    try (split; [intros Hz; apply Z.sub_move_0_r, uchar_inj in Hz; congruence
                |intros Heq; discriminate Heq]).
  - rewrite IH. split; [by intros -> | by intros [= ?]].
  - split; [intros Hz; apply Z.sub_move_0_r, uchar_inj in Hz; congruence
           | intros [= ??]; congruence].
Qed.

Lemma ctrunc_nul_free n s : nul_free s = true -> String.length s <= n -> ctrunc n s = s.
Proof.
  revert n. induction s as [|c s IH]; intros [|n] Hs Hl; simpl in *; try done; [lia|].
  apply andb_true_iff in Hs as [Hc Hs]. apply bool_decide_eq_true in Hc.
  rewrite decide_False by done. f_equal. apply IH; [done|lia].
Qed.

Lemma strlen_nul_free s : nul_free s = true -> strlen s = String.length s.
Proof.
  induction s as [|c s IH]; simpl; [done|].
  intros [Hc Hs]%andb_true_iff. apply bool_decide_eq_true in Hc.
  rewrite decide_False by done. by rewrite IH.
Qed.

(** [ctrunc (String.length a) b] is [a] exactly when [a] is a prefix of [b]. *)
Lemma ctrunc_prefix a b :
  nul_free a = true -> nul_free b = true ->
  ctrunc (String.length a) b = a <-> exists t, b = String.append a t.
Proof.
  revert b. induction a as [|c a IH]; intros b Ha Hb; simpl.
  - split; [by exists b | done].
  - apply andb_true_iff in Ha as [Hc Ha]. apply bool_decide_eq_true in Hc.
    destruct b as [|d b]; simpl.
    + split; [done | by intros [t ?]].
    + apply andb_true_iff in Hb as [Hd Hb]. apply bool_decide_eq_true in Hd.
      rewrite decide_False by done. specialize (IH b Ha Hb).
      split.
      * intros [= -> Hr]. destruct (proj1 IH Hr) as [t ->]. by exists t.
      * intros [t [= -> ->]]. f_equal. apply IH. by exists t.
Qed.

(** [strncmp(a, b, strlen(a)) == 0] holds exactly when [a] is a prefix of
    [b]: the comparison bound comes from [a] alone. *)
Lemma strncmp_strlen_prefix a b :
  nul_free a = true -> nul_free b = true ->
  strncmp a b (strlen a) = 0%Z <-> exists t, b = String.append a t.
Proof.
  intros Ha Hb. rewrite strncmp_zero_iff, strlen_nul_free by done.
  rewrite (ctrunc_nul_free _ a) by done.
  split; intros H; [apply ctrunc_prefix; auto | symmetry; by apply ctrunc_prefix].
Qed.

Lemma nul_free_append a b :
  nul_free (String.append a b) = nul_free a && nul_free b.
Proof. induction a as [|c a IH]; simpl; [done|]. by rewrite IH, andb_assoc. Qed.

Lemma strncpy_bytes_nul_free s n :
  nul_free s = true -> n <= String.length s -> strncpy_bytes s n = String.list_ascii_of_string (String.substring 0 n s).
Proof.
  revert n. induction s as [|c s IH]; intros [|n] Hs Hl; simpl in *; try done; [lia|].
  apply andb_true_iff in Hs as [Hc Hs]. apply bool_decide_eq_true in Hc.
  rewrite decide_False by done. f_equal. apply IH; [done|lia].
Qed.

Lemma c_str_read_no_nul (l : list ascii) :
  NUL ∉ l -> c_str_read (map Some l) = None.
Proof.
  induction l as [|c l IH]; intros Hn; simpl; [done|].
  rewrite decide_False by (intros ->; apply Hn; left).
  rewrite IH; [done | intros ?; apply Hn; by right].
Qed.

Lemma nul_free_not_elem s : nul_free s = true -> NUL ∉ String.list_ascii_of_string s.
Proof.
  induction s as [|c s IH]; simpl; [intros _; apply not_elem_of_nil|].
  intros [Hc Hs]%andb_true_iff. apply bool_decide_eq_true in Hc.
  intros Hin. apply elem_of_cons in Hin as [Heq|Hin]; [by subst | by apply (IH Hs)].
Qed.

Lemma length_list_ascii_of_string s : length (String.list_ascii_of_string s) = String.length s.
Proof. induction s as [|c s IH]; simpl; [done|]. by rewrite IH. Qed.

Lemma append_empty_r s : String.append s EmptyString = s.
Proof.
  induction s as [|c s IH]; [done|].
  change (String c (String.append s EmptyString) = String c s). by rewrite IH.
Qed.

Lemma substring_0_length s : String.substring 0 (String.length s) s = s.
Proof. induction s as [|c s IH]; simpl; [done|]. by rewrite IH. Qed.

Lemma length_append s t : String.length (String.append s t) = String.length s + String.length t.
Proof. induction s as [|c s IH]; [done|]. change (S (String.length (String.append s t)) = S (String.length s + String.length t)). by rewrite IH. Qed.

(** Only the empty string extends a string into itself. *)
Lemma append_eq_self s t : s = String.append s t -> t = EmptyString.
Proof.
  intros H. apply (f_equal String.length) in H. rewrite length_append in H.
  destruct t; [done | simpl in H; lia].
Qed.

End CString.
