(* ===== verification/Stream.v ===== *)
(** * The C++ streams of the test harness

    [src/src/usbtest.cpp] talks to its user through [std::cin] and
    [std::cout]. They are modelled from the C++ standard library
    (libstdc++ in the "C" locale), as far as the harness uses them:
    [operator>>] into an [int] and into a [std::string],
    [istream::ignore], and [operator<<] of an [int]. The input stream is
    the list of characters not yet extracted (the empty list is end of
    file); the output is the list of characters written so far.

    The lemmas: what each extraction consumes (always a suffix of the
    input, and at least one character unless nothing but white space is
    left), which the harness's termination argument uses. *)

From S2P Require Import Prelude.
From Stdlib Require Import Ascii.

Module IOStream.

Definition newline : ascii := ascii_of_nat 10.

(** [isspace] in the "C" locale: space, [\t], [\n], [\v], [\f], [\r]. *)
Definition is_space (c : ascii) : bool :=
  bool_decide (nat_of_ascii c = 32 \/ 9 <= nat_of_ascii c <= 13).

Definition is_digit (c : ascii) : bool := bool_decide (48 <= nat_of_ascii c <= 57).
Definition digit_value (c : ascii) : Z := (Z.of_nat (nat_of_ascii c) - 48)%Z.
Definition digit_char (d : Z) : ascii := ascii_of_nat (Z.to_nat d + 48).

(** The sentry of a formatted extraction skips leading white space. *)
Fixpoint skip_ws (l : list ascii) : list ascii :=
  match l with
  | c :: l' => if is_space c then skip_ws l' else l
  | [] => []
  end.

(** The longest prefix of decimal digits, and what follows it. *)
Fixpoint span_digits (l : list ascii) : list ascii * list ascii :=
  match l with
  | c :: l' => if is_digit c then let '(ds, r) := span_digits l' in (c :: ds, r) else ([], l)
  | [] => ([], [])
  end.

(** The longest prefix without white space, and what follows it. *)
Fixpoint span_word (l : list ascii) : list ascii * list ascii :=
  match l with
  | c :: l' => if is_space c then ([], l) else let '(w, r) := span_word l' in (c :: w, r)
  | [] => ([], [])
  end.

Definition digits_value (ds : list ascii) : Z :=
  fold_left (fun acc c => 10 * acc + digit_value c)%Z ds 0%Z.

(** The optional sign [num_get] accepts. *)
Definition read_sign (l : list ascii) : bool * list ascii :=
  match l with
  | c :: r => if decide (c = "-"%char) then (true, r)
              else if decide (c = "+"%char) then (false, r) else (false, l)
  | [] => (false, [])
  end.

(** [std::cin >> n] for an [int n]: white space, an optional sign, then
    decimal digits. [None] is [failbit]: end of file, no digit after the
    sign, or a value outside the range of [int] (libstdc++ extracts a
    [long] and range-checks it). What was extracted stays extracted. *)
Definition read_int (l : list ascii) : option Z * list ascii :=
  let '(neg, l2) := read_sign (skip_ws l) in
  let '(ds, l3) := span_digits l2 in
  match ds with
  | [] => (None, l3)
  | _ :: _ =>
      let v := if neg then (- digits_value ds)%Z else digits_value ds in
      if decide (INT_MIN <= v <= INT_MAX)%Z then (Some v, l3) else (None, l3)
  end.

(** [std::cin >> s] for a [std::string s]: white space, then every
    character up to the next white space. It fails only at end of file,
    and then leaves [s] as it was. *)
Definition read_word (l : list ascii) : option string * list ascii :=
  match skip_ws l with
  | [] => (None, [])
  | l1 => let '(w, r) := span_word l1 in (Some (String.string_of_list_ascii w), r)
  end.

(** [std::cin.ignore(n, delim)]: extracts up to [n] characters, stopping
    after the first [delim]. *)
Fixpoint ignore (n : N) (delim : ascii) (l : list ascii) : list ascii :=
  match l with
  | [] => []
  | c :: l' =>
      if decide (n = 0%N) then l
      else if decide (c = delim) then l' else ignore (N.pred n) delim l'
  end.

(** The decimal digits of [n >= 0] in front of [acc], most significant
    first; [fuel] bounds the number of digits. *)
Fixpoint dec_digits (fuel : nat) (n : Z) (acc : list ascii) : list ascii :=
  match fuel with
  | O => acc
  | S f =>
      let acc' := digit_char (n mod 10) :: acc in
      if decide (n < 10)%Z then acc' else dec_digits f (n / 10) acc'
  end.

(** [std::cout << n] for an [int n]: a minus sign, then the digits of
    [|n|]; an [int] has at most ten decimal digits, since
    [2^31 < 10^10]. *)
Definition put_int (z : Z) : list ascii :=
  let ds := dec_digits 10 (Z.abs z) [] in
  if decide (z < 0)%Z then "-"%char :: ds else ds.

Definition put_str (s : string) : list ascii := String.list_ascii_of_string s.

(** The first character of [l] is a digit. *)
Definition starts_digit (l : list ascii) : bool :=
  match l with c :: _ => is_digit c | [] => false end.

(** *** What the extractions consume *)

Lemma skip_ws_length l : length (skip_ws l) <= length l.
Proof. induction l as [|c l IH]; simpl; [lia|]. destruct (is_space c); simpl; lia. Qed.

Lemma skip_ws_spaces l : Forall (fun c => is_space c = true) l -> skip_ws l = [].
Proof. induction 1 as [|c l Hc _ IH]; simpl; [done|]. by rewrite Hc. Qed.

(** Nothing but white space left: the extraction fails and reaches end
    of file. *)
Lemma read_int_spaces l : Forall (fun c => is_space c = true) l -> read_int l = (None, []).
Proof. intros Hs. unfold read_int. by rewrite skip_ws_spaces. Qed.

Lemma read_sign_cases l neg l2 : read_sign l = (neg, l2) -> l2 = l \/ exists c, l = c :: l2.
Proof. destruct l as [|c l]; simpl; [intros [= _ <-]; auto|]. repeat case_decide; intros [= _ <-]; eauto. Qed.

Lemma span_digits_eq l ds r : span_digits l = (ds, r) -> l = ds ++ r.
Proof.
  revert ds r. induction l as [|c l IH]; intros ds r; simpl; [by intros [= <- <-]|].
  destruct (is_digit c); [|by intros [= <- <-]].
  destruct (span_digits l) as [ds' r'] eqn:Hs. intros [= <- <-]. simpl. by rewrite (IH _ _ eq_refl).
Qed.

Lemma span_word_eq l w r : span_word l = (w, r) -> l = w ++ r.
Proof.
  revert w r. induction l as [|c l IH]; intros w r; simpl; [by intros [= <- <-]|].
  destruct (is_space c); [by intros [= <- <-]|].
  destruct (span_word l) as [w' r'] eqn:Hs. intros [= <- <-]. simpl. by rewrite (IH _ _ eq_refl).
Qed.

(** A successful extraction of an [int] consumes at least one digit. *)
Lemma read_int_some l v r : read_int l = (Some v, r) -> length r < length l.
Proof.
  unfold read_int. pose proof (skip_ws_length l) as Hl.
  destruct (read_sign (skip_ws l)) as [neg l2] eqn:Hs. apply read_sign_cases in Hs.
  destruct (span_digits l2) as [[|d ds] l3] eqn:Hd; [done|]. apply span_digits_eq in Hd.
  case_decide; [intros [= _ <-] | done].
  destruct Hs as [Hs|[c Hs]]; [rewrite <- Hs, Hd in Hl | rewrite Hs, Hd in Hl];
    simpl in Hl; rewrite ?length_app in Hl; lia.
Qed.

(** A failed one stopped at end of file, or stopped in front of a
    character that is still there, or consumed something. *)
Lemma read_int_none l r :
  read_int l = (None, r) ->
  (skip_ws l = [] /\ r = []) \/ (r <> [] /\ length r <= length l) \/ length r < length l.
Proof.
  unfold read_int. pose proof (skip_ws_length l) as Hl.
  destruct (read_sign (skip_ws l)) as [neg l2] eqn:Hs. apply read_sign_cases in Hs.
  destruct (span_digits l2) as [[|d ds] l3] eqn:Hd; apply span_digits_eq in Hd; simpl in Hd; subst l2.
  - intros [= <-]. destruct Hs as [Hs|[c Hs]].
    + destruct l3 as [|c l3]; [left; split; congruence|]. right; left. split; [done|]. rewrite Hs; lia.
    + right; right. rewrite Hs in Hl. simpl in Hl. lia.
  - case_decide; [done|]. intros [= <-]. right; right.
    destruct Hs as [Hs|[c Hs]]; [rewrite <- Hs in Hl | rewrite Hs in Hl];
      simpl in Hl; rewrite ?length_app in Hl; lia.
Qed.

Lemma read_int_length l : length (read_int l).2 <= length l.
Proof.
  destruct (read_int l) as [[v|] r] eqn:H; simpl.
  - apply read_int_some in H. lia.
  - apply read_int_none in H as [[_ ->]|[[_ H]|H]]; simpl; lia.
Qed.

Lemma read_word_some l w r : read_word l = (Some w, r) -> length r < length l.
Proof.
  unfold read_word. pose proof (skip_ws_length l) as Hl.
  destruct (skip_ws l) as [|c l1] eqn:Hs; [done|].
  assert (Hc : is_space c = false).
  { clear -Hs. induction l as [|c' l IH]; simpl in Hs; [done|].
    destruct (is_space c') eqn:Hc'; [by apply IH | by injection Hs as <- _]. }
  simpl. rewrite Hc. destruct (span_word l1) as [w' r'] eqn:Hw. apply span_word_eq in Hw.
  intros [= _ <-]. rewrite Hw in Hl. simpl in Hl. rewrite length_app in Hl. lia.
Qed.

Lemma read_word_none l r : read_word l = (None, r) -> skip_ws l = [] /\ r = [].
Proof.
  unfold read_word. destruct (skip_ws l) as [|c l1]; [by intros [= <-]|].
  by destruct (span_word (c :: l1)).
Qed.

Lemma read_word_length l : length (read_word l).2 <= length l.
Proof.
  destruct (read_word l) as [[w|] r] eqn:H; simpl.
  - apply read_word_some in H. lia.
  - apply read_word_none in H as [_ ->]. simpl. lia.
Qed.

Lemma ignore_length n d l : length (ignore n d l) <= length l.
Proof.
  revert n. induction l as [|c l IH]; intros n; simpl; [lia|].
  repeat case_decide; simpl; [lia | lia | specialize (IH (N.pred n)); lia].
Qed.

Lemma ignore_progress n d l : n <> 0%N -> l <> [] -> length (ignore n d l) < length l.
Proof.
  destruct l as [|c l]; [done|]. intros Hn _. simpl.
  rewrite decide_False by done. case_decide; [simpl; lia|].
  pose proof (ignore_length (N.pred n) d l). lia.
Qed.

End IOStream.
