(* ===== verification/Platform.v ===== *)
(** * The platform the device manager runs on

    libudev is not part of the repository: [src/src/usbctrl.cpp] only calls
    it. The spec (its section 6) fixes the narrow interface the code uses,
    and this file models that interface as a store of reference-counted
    [udev_device] objects:

    - [udev_device_new_from_syspath] and [udev_monitor_receive_device]
      return a new object holding one reference (or NULL);
    - [udev_device_unref] drops a reference and frees the object at zero;
    - [udev_device_get_devnode], [udev_device_get_action] and
      [udev_device_get_sysattr_value] read an object's attributes.

    Using or releasing an object that has been freed is a [UseAfterFree]
    fault. The monitor socket is a queue of pending kernel events. *)

From S2P Require Import Prelude.

Module Udev.

#[local] Set Primitive Projections.

(** What the kernel reports about one USB device. *)
Record device_info := mkInfo {
  di_syspath : string;
  di_devnode : option string;             (** [udev_device_get_devnode], NULL is [None] *)
  di_action : option string;              (** [udev_device_get_action] *)
  di_sysattrs : list (string * string)    (** sysfs attributes *)
}.

Record udev_obj := mkObj { uo_info : device_info; uo_refs : nat }.

(** A [struct udev_device *] is the [positive] address of its object. *)
Record udev := mkUdev {
  u_objs : gmap positive udev_obj;   (** live objects *)
  u_next : positive;                 (** next fresh address *)
  u_queue : list device_info         (** events pending on the monitor socket *)
}.

Local Open Scope st_scope.

Definition set_objs (o : gmap positive udev_obj) (u : udev) : udev :=
  mkUdev o (u_next u) (u_queue u).

(** A new object with one reference. *)
Definition device_new (d : device_info) : ST udev positive :=
  fun u => Ok (u_next u, mkUdev (<[u_next u := mkObj d 1]> (u_objs u))
                                (Pos.succ (u_next u)) (u_queue u)).

(** [udev_device_new_from_syspath]: [None] when the kernel has no such
    device any more (NULL). *)
Definition udev_device_new_from_syspath (d : option device_info) : ST udev (option positive) :=
  match d with
  | None => ret None
  | Some d => h <- device_new d ;; ret (Some h)
  end.

(** [udev_monitor_receive_device]: the next pending event, NULL when the
    socket has none. *)
Definition udev_monitor_receive_device : ST udev (option positive) :=
  fun u => match u_queue u with
           | [] => Ok (None, u)
           | d :: q => (h <- device_new d ;; ret (Some h)) (mkUdev (u_objs u) (u_next u) q)
           end.

Definition live_obj (h : positive) : ST udev udev_obj :=
  fun u => match u_objs u !! h with
           | Some o => Ok (o, u)
           | None => Crash UseAfterFree
           end.

(** [udev_device_unref]. *)
Definition udev_device_unref (h : positive) : ST udev unit :=
  o <- live_obj h ;;
  match uo_refs o with
  | 0 | 1 => st_modify (fun u => set_objs (delete h (u_objs u)) u)
  | S r => st_modify (fun u => set_objs (<[h := mkObj (uo_info o) r]> (u_objs u)) u)
  end.

Definition udev_device_get_devnode (h : positive) : ST udev (option string) :=
  o <- live_obj h ;; ret (di_devnode (uo_info o)).

Definition udev_device_get_action (h : positive) : ST udev (option string) :=
  o <- live_obj h ;; ret (di_action (uo_info o)).

Fixpoint assoc_lookup (k : string) (l : list (string * string)) : option string :=
  match l with
  | [] => None
  | (k', v) :: l' => if decide (k = k') then Some v else assoc_lookup k l'
  end.

Definition udev_device_get_sysattr_value (h : positive) (key : string) : ST udev (option string) :=
  o <- live_obj h ;; ret (assoc_lookup key (di_sysattrs (uo_info o))).

(** ** Well-formedness: every live address lies below the allocator. *)
Definition udev_wf (u : udev) : Prop :=
  forall h, h ∈ dom (u_objs u) -> (h < u_next u)%positive.

Lemma device_new_spec d u :
  device_new d u = Ok (u_next u, mkUdev (<[u_next u := mkObj d 1]> (u_objs u))
                                         (Pos.succ (u_next u)) (u_queue u)).
Proof. reflexivity. Qed.

Lemma device_new_fresh u : udev_wf u -> u_objs u !! u_next u = None.
Proof.
  intros Hwf. apply not_elem_of_dom. intros Hin. apply Hwf in Hin. lia.
Qed.

Lemma device_new_wf d u : udev_wf u ->
  udev_wf (mkUdev (<[u_next u := mkObj d 1]> (u_objs u)) (Pos.succ (u_next u)) (u_queue u)).
Proof.
  intros Hwf h. simpl. rewrite dom_insert_L, elem_of_union, elem_of_singleton.
  intros [->|Hin]; [lia | apply Hwf in Hin; lia].
Qed.

Lemma live_obj_Ok h u o u' : live_obj h u = Ok (o, u') -> u' = u /\ u_objs u !! h = Some o.
Proof. unfold live_obj. destruct (u_objs u !! h); [by intros [= <- <-] | done]. Qed.

Lemma live_obj_dead h u : u_objs u !! h = None -> live_obj h u = Crash UseAfterFree.
Proof. unfold live_obj. by intros ->. Qed.

(** Releasing the only reference frees the object. *)
Lemma udev_device_unref_last h u d :
  u_objs u !! h = Some (mkObj d 1) ->
  udev_device_unref h u = Ok (tt, set_objs (delete h (u_objs u)) u).
Proof. intros Hh. unfold udev_device_unref, st_bind, live_obj. by rewrite Hh. Qed.

(** Releasing an object that is already gone is a use after free. *)
Lemma udev_device_unref_dead h u :
  u_objs u !! h = None -> udev_device_unref h u = Crash UseAfterFree.
Proof. intros Hh. unfold udev_device_unref, st_bind, live_obj. by rewrite Hh. Qed.

Lemma udev_device_get_devnode_live h u o :
  u_objs u !! h = Some o -> udev_device_get_devnode h u = Ok (di_devnode (uo_info o), u).
Proof. intros Hh. unfold udev_device_get_devnode, st_bind, live_obj. by rewrite Hh. Qed.

Lemma udev_device_get_action_live h u o :
  u_objs u !! h = Some o -> udev_device_get_action h u = Ok (di_action (uo_info o), u).
Proof. intros Hh. unfold udev_device_get_action, st_bind, live_obj. by rewrite Hh. Qed.

(** Reading an attribute leaves the store as it was. *)
Lemma udev_device_get_action_Ok h u a u' : udev_device_get_action h u = Ok (a, u') -> u' = u.
Proof.
  unfold udev_device_get_action, st_bind. destruct (live_obj h u) as [[o u1]|] eqn:Hl; [|done].
  apply live_obj_Ok in Hl as [-> _]. by intros [= _ <-].
Qed.

Lemma udev_device_get_sysattr_value_live h key u o :
  u_objs u !! h = Some o ->
  udev_device_get_sysattr_value h key u = Ok (assoc_lookup key (di_sysattrs (uo_info o)), u).
Proof. intros Hh. unfold udev_device_get_sysattr_value, st_bind, live_obj. by rewrite Hh. Qed.

End Udev.
