(* ===== verification/State.v ===== *)
(** * The state of the [device_manager] object

    The fields of [class device_manager] ([src/src/usbctrl.cpp] lines
    67-105), its nested [device_record] (lines 70-93), and the machine the
    operations run on: the object, the libudev store it draws handles
    from, whether the write end of its control pipe is still open, and
    the calls made so far to the registered callback. *)

From S2P Require Import Prelude Platform.

Module State.
Import Udev.

#[local] Set Primitive Projections.

(** [class device_record]: identifier, owned [udev_device *], and the
    devnode pointer taken from that device. *)
Record device_record := mkRecord {
  m_identifier : Z;
  m_device : positive;
  m_devnode : option string
}.

(** The fields of [device_manager]. Pointers the code only compares with
    NULL are booleans; a function pointer and [void *] payload are
    addresses, 0 standing for NULL. *)
Record device_manager := mkDM {
  m_device_records : list device_record;   (** [std::list<device_record *>] *)
  m_callback : Z;                          (** [rusbCtrl_devCallback_t] *)
  m_callback_data : Z;                     (** [void *] *)
  m_udev_context : bool;                   (** [struct udev *] is non-NULL *)
  m_last_used_identifier : Z;              (** [int] *)
  m_enable_monitoring : bool;
  m_monitor_thread : Z;                    (** [pthread_t], 0 when none *)
  m_monitor : bool;                        (** [struct udev_monitor *] is non-NULL *)
  m_control_pipe : Z * Z                   (** [int m_control_pipe[2]] *)
}.

(** One invocation [m_callback(identifier, connected, m_callback_data)]. *)
Record callback_call := mkCall {
  cc_callback : Z;
  cc_identifier : Z;
  cc_connected : Z;
  cc_data : Z
}.

(** Where the monitor thread ([monitor_for_changes], lines 292-340) is:
    not yet started, at the top of its [while] loop, blocked inside
    [select] (line 311), or returned. *)
Inductive mon_phase := MonStarting | MonRunning | MonWaiting | MonStopped.

#[export] Instance mon_phase_eq_dec : EqDecision mon_phase.
Proof. solve_decision. Defined.

Record machine := mkMachine {
  dm : device_manager;
  lib : udev;
  pipe_write_open : bool;        (** write end of the control pipe not yet closed *)
  calls : list callback_call;    (** callback invocations, oldest first *)
  monitor_fd : Z;                (** what [udev_monitor_get_fd(m_monitor)] returns *)
  closed_fds : list Z;           (** descriptors passed to [close], oldest first *)
  phase : mon_phase              (** the monitor thread *)
}.

(** ** Field updates *)
Definition with_records (rs : list device_record) (d : device_manager) : device_manager :=
  mkDM rs (m_callback d) (m_callback_data d) (m_udev_context d) (m_last_used_identifier d)
       (m_enable_monitoring d) (m_monitor_thread d) (m_monitor d) (m_control_pipe d).
Definition with_callback (cb data : Z) (d : device_manager) : device_manager :=
  mkDM (m_device_records d) cb data (m_udev_context d) (m_last_used_identifier d)
       (m_enable_monitoring d) (m_monitor_thread d) (m_monitor d) (m_control_pipe d).
Definition with_last_id (n : Z) (d : device_manager) : device_manager :=
  mkDM (m_device_records d) (m_callback d) (m_callback_data d) (m_udev_context d) n
       (m_enable_monitoring d) (m_monitor_thread d) (m_monitor d) (m_control_pipe d).
Definition with_enable (b : bool) (d : device_manager) : device_manager :=
  mkDM (m_device_records d) (m_callback d) (m_callback_data d) (m_udev_context d)
       (m_last_used_identifier d) b (m_monitor_thread d) (m_monitor d) (m_control_pipe d).

Definition set_dm (d : device_manager) (w : machine) : machine :=
  mkMachine d (lib w) (pipe_write_open w) (calls w) (monitor_fd w) (closed_fds w) (phase w).
Definition set_lib (u : udev) (w : machine) : machine :=
  mkMachine (dm w) u (pipe_write_open w) (calls w) (monitor_fd w) (closed_fds w) (phase w).
Definition set_calls (cs : list callback_call) (w : machine) : machine :=
  mkMachine (dm w) (lib w) (pipe_write_open w) cs (monitor_fd w) (closed_fds w) (phase w).
Definition set_phase (p : mon_phase) (w : machine) : machine :=
  mkMachine (dm w) (lib w) (pipe_write_open w) (calls w) (monitor_fd w) (closed_fds w) p.
Definition set_pipe_write_open (b : bool) (w : machine) : machine :=
  mkMachine (dm w) (lib w) b (calls w) (monitor_fd w) (closed_fds w) (phase w).
(** [close(fd)]. *)
Definition close_fd (fd : Z) (w : machine) : machine :=
  mkMachine (dm w) (lib w) (pipe_write_open w) (calls w) (monitor_fd w) (closed_fds w ++ [fd]) (phase w).
Definition modify_dm (f : device_manager -> device_manager) (w : machine) : machine :=
  set_dm (f (dm w)) w.

Definition records (w : machine) : list device_record := m_device_records (dm w).
Definition last_id (w : machine) : Z := m_last_used_identifier (dm w).

Local Open Scope st_scope.

(** A libudev call made by the device manager. *)
Definition on_udev {A} (m : ST udev A) : ST machine A :=
  fun w => match m (lib w) with
           | Ok (a, u) => Ok (a, set_lib u w)
           | Crash f => Crash f
           end.

(** [m_callback(identifier, connected, m_callback_data)]. *)
Definition invoke_callback (identifier connected : Z) : ST machine unit :=
  st_modify (fun w => set_calls (calls w ++ [mkCall (m_callback (dm w)) identifier connected
                                                   (m_callback_data (dm w))]) w).

Lemma on_udev_Ok {A} (m : ST udev A) w a w' :
  on_udev m w = Ok (a, w') -> exists u, m (lib w) = Ok (a, u) /\ w' = set_lib u w.
Proof. unfold on_udev. destruct (m (lib w)) as [[? ?]|]; [intros [= -> <-]; eauto | done]. Qed.

Lemma on_udev_run {A} (m : ST udev A) w a u :
  m (lib w) = Ok (a, u) -> on_udev m w = Ok (a, set_lib u w).
Proof. unfold on_udev. by intros ->. Qed.

Lemma on_udev_crash {A} (m : ST udev A) w f :
  m (lib w) = Crash f -> on_udev m w = Crash f.
Proof. unfold on_udev. by intros ->. Qed.

End State.
