(* ===== verification/Registry.v ===== *)
(** * The device registry

    The list of [device_record]s and the identifier counter of
    [device_manager], with the private methods that change them
    ([src/src/usbctrl.cpp]): [get_new_identifier] (530-535),
    [add_device_to_records] (424-433) with [print_device_properties]
    (465-478), [remove_device_from_records] (435-464),
    [reset_device_records] (344-356) and [get_connected_devices_list]
    (358-375). They all run under [m_mutex]; the lock is modelled in the
    facade and the concurrency model, and here each operation is one
    atomic step on the machine.

    The theorems: identifiers stay positive, bounded by the counter and
    distinct (the registry's type invariant); each udev handle stored in
    the registry is held by exactly one record and by nothing else, and
    every operation preserves that ownership; removal matches a stored
    devnode by prefix, not by equality, and refines the spec's exact-key
    removal only when no stored devnode extends the incoming one. *)

From S2P Require Import Prelude CString Platform State.

Module Registry.
Import CString Udev State.
Local Open Scope st_scope.

(** [int get_new_identifier()]: [m_last_used_identifier++] on a signed
    [int]; incrementing [INT_MAX] is undefined behaviour. *)
Definition get_new_identifier : ST machine Z :=
  last <- st_gets last_id ;;
  if decide (last + 1 <= INT_MAX)%Z then
    st_modify (modify_dm (with_last_id (last + 1))) ;;
    ret (last + 1)%Z
  else st_crash SignedOverflow.

(** [print_device_properties]: only logs the devnode (its attribute dump
    is compiled out by [#if 0]). *)
Definition print_device_properties (device : positive) : ST machine unit :=
  _ <- on_udev (udev_device_get_devnode device) ;; ret tt.

Definition push_back_record (r : device_record) : ST machine unit :=
  st_modify (modify_dm (fun d => with_records (m_device_records d ++ [r]) d)).

(** [bool add_device_to_records(udev_device *device, int &identifier)]:
    the result pair is the return value and the [identifier] out
    parameter. The record takes over the caller's reference. *)
Definition add_device_to_records (device : positive) : ST machine (bool * Z) :=
  identifier <- get_new_identifier ;;
  devnode <- on_udev (udev_device_get_devnode device) ;;
  push_back_record (mkRecord identifier device devnode) ;;
  print_device_properties device ;;
  ret (true, identifier).

(** [strncmp(devnode, iter->get_devnode(), strlen(devnode))]. A NULL
    stored devnode is read unless the bound is 0. *)
Definition devnode_matches (devnode : string) (stored : option string) : exec bool :=
  match strlen devnode with
  | O => Ok true
  | n => match stored with
         | None => Crash NullDeref
         | Some s => Ok (bool_decide (strncmp devnode s n = 0%Z))
         end
  end.

(** The search loop of [remove_device_from_records]: the first matching
    record with the records before and after it. *)
Fixpoint find_by_devnode (devnode : string) (recs : list device_record)
  : exec (option (list device_record * device_record * list device_record)) :=
  match recs with
  | [] => Ok None
  | r :: rs =>
      match devnode_matches devnode (m_devnode r) with
      | Crash f => Crash f
      | Ok true => Ok (Some ([], r, rs))
      | Ok false =>
          match find_by_devnode devnode rs with
          | Ok (Some (pre, x, post)) => Ok (Some (r :: pre, x, post))
          | e => e
          end
      end
  end.

(** [delete] on the iterator releases the record's device ([~device_record]). *)
Definition delete_record (r : device_record) : ST machine unit :=
  on_udev (udev_device_unref (m_device r)).

Definition set_records (rs : list device_record) : ST machine unit :=
  st_modify (modify_dm (with_records rs)).

(** [bool remove_device_from_records(udev_device *device, int &identifier)]:
    [identifier] is [-1] unless a record is removed. *)
Definition remove_device_from_records (device : positive) : ST machine (bool * Z) :=
  devnode <- on_udev (udev_device_get_devnode device) ;;
  match devnode with
  | None => ret (false, (-1)%Z)
  | Some dn =>
      recs <- st_gets records ;;
      found <- st_lift (find_by_devnode dn recs) ;;
      match found with
      | None => ret (false, (-1)%Z)
      | Some (pre, r, post) =>
          delete_record r ;;
          set_records (pre ++ post) ;;
          ret (true, m_identifier r)
      end
  end.

(** [void reset_device_records()]. *)
Definition reset_device_records : ST machine unit :=
  recs <- st_gets records ;;
  if decide (length recs <> 0) then
    st_iter delete_record recs ;;
    set_records []
  else ret tt.

(** [void get_connected_devices_list(int **device_list, int *device_list_size)]:
    [*device_list_size] is always written; [*device_list] only when the
    registry is not empty ([None]: the caller's pointer is left as it was). *)
Definition get_connected_devices_list : ST machine (Z * option (list Z)) :=
  recs <- st_gets records ;;
  let size := Z.of_nat (length recs) in
  if decide (size <> 0%Z) then ret (size, Some (m_identifier <$> recs))
  else ret (size, None).

(** ** Functional behaviour of each operation *)

Ltac st_unfold :=
  unfold st_bind, st_ret, st_gets, st_modify, st_crash, st_lift, on_udev in *.

Lemma get_new_identifier_ok w :
  (last_id w + 1 <= INT_MAX)%Z ->
  get_new_identifier w = Ok (last_id w + 1, modify_dm (with_last_id (last_id w + 1)) w)%Z.
Proof. intros H. unfold get_new_identifier. st_unfold. by rewrite decide_True. Qed.

(** The state an addition leaves: the counter advanced and a record
    appended at the back of the list. *)
Definition added (w : machine) (h : positive) (dn : option string) : machine :=
  modify_dm (fun d => with_records (m_device_records d ++ [mkRecord (last_id w + 1) h dn])
                                   (with_last_id (last_id w + 1) d)) w.

Lemma add_device_to_records_ok w h o :
  u_objs (lib w) !! h = Some o -> (last_id w + 1 <= INT_MAX)%Z ->
  add_device_to_records h w = Ok ((true, last_id w + 1)%Z, added w h (di_devnode (uo_info o))).
Proof.
  intros Hh Hb. unfold add_device_to_records, get_new_identifier, print_device_properties,
    push_back_record, udev_device_get_devnode, live_obj. st_unfold. simpl.
  rewrite (decide_True _ _ Hb). simpl. repeat (rewrite Hh; simpl). reflexivity.
Qed.

Lemma find_by_devnode_Some dn rs pre r post :
  find_by_devnode dn rs = Ok (Some (pre, r, post)) ->
  rs = pre ++ r :: post /\ devnode_matches dn (m_devnode r) = Ok true /\
  Forall (fun x => devnode_matches dn (m_devnode x) = Ok false) pre.
Proof.
  revert pre. induction rs as [|x rs IH]; intros pre; simpl; [done|].
  destruct (devnode_matches dn (m_devnode x)) as [[|]|] eqn:E; [|destruct (find_by_devnode dn rs) as [[[[pre' y] post']|]|] eqn:E'|]; try done.
  - intros [= <- <- <-]. done.
  - intros [= <- <- <-]. destruct (IH pre' eq_refl) as (-> & ? & ?). by repeat constructor.
Qed.

Lemma find_by_devnode_None dn rs :
  find_by_devnode dn rs = Ok None ->
  Forall (fun x => devnode_matches dn (m_devnode x) = Ok false) rs.
Proof.
  induction rs as [|x rs IH]; simpl; [constructor|].
  destruct (devnode_matches dn (m_devnode x)) as [[|]|] eqn:E; [|destruct (find_by_devnode dn rs) as [[[[pre' y] post']|]|] eqn:E'|]; try done.
  intros _. constructor; [done | by apply IH].
Qed.

(** No matching record: nothing changes and the identifier is [-1]. *)
Lemma remove_device_from_records_not_found w h o dn :
  u_objs (lib w) !! h = Some o -> di_devnode (uo_info o) = Some dn ->
  find_by_devnode dn (records w) = Ok None ->
  remove_device_from_records h w = Ok ((false, (-1)%Z), w).
Proof.
  intros Hh Hdn Hf. unfold remove_device_from_records, udev_device_get_devnode, live_obj.
  st_unfold. unfold records in *. cbn. rewrite Hh. cbn. rewrite Hdn. cbn. rewrite Hf. done.
Qed.

Lemma remove_device_from_records_no_devnode w h o :
  u_objs (lib w) !! h = Some o -> di_devnode (uo_info o) = None ->
  remove_device_from_records h w = Ok ((false, (-1)%Z), w).
Proof.
  intros Hh Hdn. unfold remove_device_from_records, udev_device_get_devnode, live_obj.
  st_unfold. cbn. rewrite Hh. cbn. by rewrite Hdn.
Qed.

(** A match: the record's device is released and the record erased. *)
Lemma remove_device_from_records_found w h o dn pre r post u' :
  u_objs (lib w) !! h = Some o -> di_devnode (uo_info o) = Some dn ->
  find_by_devnode dn (records w) = Ok (Some (pre, r, post)) ->
  udev_device_unref (m_device r) (lib w) = Ok (tt, u') ->
  remove_device_from_records h w =
    Ok ((true, m_identifier r), modify_dm (with_records (pre ++ post)) (set_lib u' w)).
Proof.
  intros Hh Hdn Hf Hu. unfold remove_device_from_records, udev_device_get_devnode, live_obj,
    delete_record, set_records. st_unfold. unfold records in *. cbn. rewrite Hh. cbn. rewrite Hdn. cbn. rewrite Hf.
  cbn. by rewrite Hu.
Qed.

Lemma remove_device_from_records_crash w h o dn f :
  u_objs (lib w) !! h = Some o -> di_devnode (uo_info o) = Some dn ->
  find_by_devnode dn (records w) = Crash f ->
  remove_device_from_records h w = Crash f.
Proof.
  intros Hh Hdn Hf. unfold remove_device_from_records, udev_device_get_devnode, live_obj.
  st_unfold. unfold records in *. cbn. rewrite Hh. cbn. rewrite Hdn. cbn. by rewrite Hf.
Qed.

Lemma get_connected_devices_list_spec w :
  get_connected_devices_list w =
    Ok (if decide (records w = []) then (0%Z, None)
        else (Z.of_nat (length (records w)), Some (m_identifier <$> records w)), w).
Proof.
  unfold get_connected_devices_list. st_unfold.
  destruct (records w) as [|r rs]; simpl; [done|].
  repeat case_decide; try done; simpl in *; lia.
Qed.

(** ** The identifier invariant

    Identifiers in the registry are distinct, positive and no larger than
    the counter, and the counter is a valid [int]. *)
Definition ids (rs : list device_record) : list Z := m_identifier <$> rs.

Definition ids_ok (w : machine) : Prop :=
  NoDup (ids (records w)) /\
  Forall (fun r => 0 < m_identifier r <= last_id w)%Z (records w) /\
  (0 <= last_id w <= INT_MAX)%Z.

Lemma ids_bounded_not_elem (rs : list device_record) (n : Z) :
  Forall (fun r => m_identifier r <= n)%Z rs -> (n + 1)%Z ∉ ids rs.
Proof.
  intros Hb Hin. apply list_elem_of_fmap in Hin as (r & Hr & Hin).
  rewrite Forall_forall in Hb. specialize (Hb r Hin). lia.
Qed.

Lemma ids_ok_added w h dn :
  ids_ok w -> (last_id w + 1 <= INT_MAX)%Z -> ids_ok (added w h dn).
Proof.
  intros (Hnd & Hb & Hl) Hlt. unfold ids_ok, added, ids, records, last_id in *; cbn.
  split; [|split; [|lia]].
  - rewrite fmap_app. apply NoDup_app. split; [done|split; [|apply NoDup_singleton]].
    intros x Hx ->%list_elem_of_singleton.
    apply (ids_bounded_not_elem (m_device_records (dm w)) (m_last_used_identifier (dm w)));
      [eapply Forall_impl; [done|]; simpl; lia | done].
  - apply Forall_app. split; [eapply Forall_impl; [done|]; simpl; lia | constructor; [simpl; lia | done]].
Qed.

(** Erasing one record keeps the invariant. *)
Lemma ids_ok_erase w w' pre r post :
  ids_ok w -> records w = pre ++ r :: post -> records w' = pre ++ post ->
  last_id w' = last_id w -> ids_ok w'.
Proof.
  intros (Hnd & Hb & Hl) Hw Hw' Hlast. unfold ids_ok, ids in *.
  rewrite Hw in Hnd, Hb. rewrite Hw', Hlast. split; [|split; [|done]].
  - rewrite fmap_app in *. simpl in Hnd. apply NoDup_app in Hnd as (H1 & H2 & H3).
    apply NoDup_cons in H3 as [_ H3]. apply NoDup_app. split; [done|split; [|done]].
    intros x Hx Hx'. apply (H2 x Hx). by right.
  - apply Forall_app in Hb as [Hb1 Hb2]. apply Forall_cons in Hb2 as [_ Hb2].
    by apply Forall_app.
Qed.

(** Every successful removal either leaves the machine as it was or
    erases one record after releasing its device. *)
Lemma remove_device_from_records_inv h w res w' :
  remove_device_from_records h w = Ok (res, w') ->
  (res = (false, (-1)%Z) /\ w' = w) \/
  exists pre r post u', records w = pre ++ r :: post /\
    udev_device_unref (m_device r) (lib w) = Ok (tt, u') /\
    res = (true, m_identifier r) /\
    w' = modify_dm (with_records (pre ++ post)) (set_lib u' w).
Proof.
  unfold remove_device_from_records, udev_device_get_devnode, live_obj, delete_record,
    set_records. st_unfold. unfold records.
  destruct (u_objs (lib w) !! h) as [o|] eqn:Ho; cbn; [|done].
  destruct (di_devnode (uo_info o)) as [dn|]; cbn; [|intros [= <- <-]; by left].
  destruct (find_by_devnode dn (m_device_records (dm w))) as [[[[pre r] post]|]|] eqn:Hf; cbn;
    [|intros [= <- <-]; by left|done].
  destruct (udev_device_unref (m_device r) (lib w)) as [[[] u']|] eqn:Hu; cbn; [|done].
  intros [= <- <-]. right. apply find_by_devnode_Some in Hf as (-> & _ & _). eauto 10.
Qed.

Lemma ids_ok_remove h w res w' :
  ids_ok w -> remove_device_from_records h w = Ok (res, w') -> ids_ok w'.
Proof.
  intros Hok Hrun. apply remove_device_from_records_inv in Hrun
    as [[_ ->]|(pre & r & post & u' & Hw & _ & _ & ->)]; [done|].
  by eapply ids_ok_erase.
Qed.

(** ** Ownership of udev handles

    [holds hs u]: the live udev objects are exactly the handles [hs], each
    listed once and holding a single reference. [owns rs extra u]: the
    handles are those of the records [rs] and the [extra] handles the
    monitor thread holds for a moment, and every record's devnode is the
    one of its device. *)
Definition handles (rs : list device_record) : list positive := m_device <$> rs.

Definition holds (hs : list positive) (u : udev) : Prop :=
  NoDup hs /\ dom (u_objs u) = list_to_set hs /\
  map_Forall (fun _ o => uo_refs o = 1) (u_objs u) /\ udev_wf u.

Definition devnodes_ok (rs : list device_record) (u : udev) : Prop :=
  Forall (fun r => exists o, u_objs u !! m_device r = Some o /\
                             di_devnode (uo_info o) = m_devnode r) rs.

Definition owns (rs : list device_record) (extra : list positive) (u : udev) : Prop :=
  holds (handles rs ++ extra) u /\ devnodes_ok rs u.

Lemma holds_lookup hs u h :
  holds hs u -> h ∈ hs -> exists d, u_objs u !! h = Some (mkObj d 1).
Proof.
  intros (_ & Hdom & Hrefs & _) Hin.
  assert (h ∈ dom (u_objs u)) as [[d n] Ho]%elem_of_dom
    by (rewrite Hdom; by apply elem_of_list_to_set).
  exists d. rewrite Ho. specialize (Hrefs _ _ Ho). simpl in Hrefs. by subst.
Qed.

(** Dropping the reference of a held handle frees it and leaves the
    other handles held. *)
Lemma holds_unref hs1 h hs2 u :
  holds (hs1 ++ h :: hs2) u ->
  udev_device_unref h u = Ok (tt, set_objs (delete h (u_objs u)) u) /\
  holds (hs1 ++ hs2) (set_objs (delete h (u_objs u)) u).
Proof.
  intros Hh. destruct (holds_lookup _ _ h Hh) as [d Hd]; [set_solver|].
  split; [by eapply udev_device_unref_last|].
  destruct Hh as (Hnd & Hdom & Hrefs & Hwf).
  apply NoDup_app in Hnd as (Hnd1 & Hdis & Hnd2). apply NoDup_cons in Hnd2 as [Hnot Hnd2].
  assert (h ∉ hs1) by (intros Hin; by apply (Hdis h Hin); left).
  split; [|split; [|split]]; simpl.
  - apply NoDup_app. split; [done|split; [|done]]. intros x Hx Hx'. apply (Hdis x Hx). by right.
  - rewrite dom_delete_L, Hdom. rewrite !list_to_set_app_L. simpl. set_solver.
  - by apply map_Forall_delete.
  - intros x Hx. apply Hwf. simpl in Hx. rewrite dom_delete_L in Hx. set_solver.
Qed.

Lemma holds_new hs d u q :
  holds hs u ->
  holds (hs ++ [u_next u]) (mkUdev (<[u_next u := mkObj d 1]> (u_objs u)) (Pos.succ (u_next u)) q).
Proof.
  intros (Hnd & Hdom & Hrefs & Hwf).
  assert (u_next u ∉ hs).
  { intros Hin. assert (u_next u ∈ dom (u_objs u)) as Hd by (rewrite Hdom; set_solver).
    apply Hwf in Hd. lia. }
  split; [|split; [|split]]; simpl.
  - apply NoDup_app. split; [done|split; [|apply NoDup_singleton]].
    by intros x Hx ->%list_elem_of_singleton.
  - rewrite dom_insert_L, Hdom, list_to_set_app_L. simpl. set_solver.
  - by apply map_Forall_insert_2.
  - intros x. simpl. rewrite dom_insert_L, elem_of_union, elem_of_singleton.
    intros [->|Hx]; [lia | apply Hwf in Hx; lia].
Qed.

Lemma devnodes_ok_ext rs u u' :
  devnodes_ok rs u ->
  (forall r, r ∈ rs -> u_objs u' !! m_device r = u_objs u !! m_device r) ->
  devnodes_ok rs u'.
Proof.
  unfold devnodes_ok. rewrite !Forall_forall. intros Hok Hext r Hr.
  rewrite Hext by done. by apply Hok.
Qed.

(** A record's devnode is its device's devnode, so the record's device
    is alive. *)
Lemma devnodes_ok_app rs1 rs2 u :
  devnodes_ok (rs1 ++ rs2) u <-> devnodes_ok rs1 u /\ devnodes_ok rs2 u.
Proof. apply Forall_app. Qed.

Lemma handles_app rs1 rs2 : handles (rs1 ++ rs2) = handles rs1 ++ handles rs2.
Proof. apply fmap_app. Qed.

Lemma handles_cons r rs : handles (r :: rs) = m_device r :: handles rs.
Proof. done. Qed.

(** *** Each operation keeps ownership *)

(** Adding a record hands it the monitor thread's reference. *)
Lemma owns_added w h o :
  owns (records w) [h] (lib w) -> u_objs (lib w) !! h = Some o ->
  owns (records (added w h (di_devnode (uo_info o)))) [] (lib (added w h (di_devnode (uo_info o)))).
Proof.
  intros [Hh Hdn] Ho. unfold owns, added, records in *; cbn.
  rewrite app_nil_r, handles_app. split; [done|].
  apply devnodes_ok_app. split; [done|]. constructor; [by exists o | constructor].
Qed.

Lemma owns_erase pre r post extra u :
  owns (pre ++ r :: post) extra u ->
  udev_device_unref (m_device r) u = Ok (tt, set_objs (delete (m_device r) (u_objs u)) u) /\
  owns (pre ++ post) extra (set_objs (delete (m_device r) (u_objs u)) u).
Proof.
  intros [Hh Hdn]. rewrite handles_app, handles_cons, <- app_assoc in Hh. simpl in Hh.
  destruct (holds_unref _ _ _ _ Hh) as [Hu Hh']. split; [done|]. split.
  - by rewrite handles_app, <- app_assoc.
  - apply devnodes_ok_app in Hdn as [Hdn1 Hdn2]. apply Forall_cons in Hdn2 as [_ Hdn2].
    eapply devnodes_ok_ext; [apply devnodes_ok_app; split; [exact Hdn1 | exact Hdn2]|].
    intros r' Hr'. simpl. apply lookup_delete_ne. symmetry.
    destruct Hh as [Hnd _]. eapply (NoDup_app_cons_ne (handles pre)); [exact Hnd|].
    apply elem_of_app. apply elem_of_app in Hr' as [Hr'|Hr'];
      [left | right; apply elem_of_app; left]; by apply list_elem_of_fmap_2.
Qed.

Lemma owns_remove h w res w' :
  owns (records w) [h] (lib w) -> remove_device_from_records h w = Ok (res, w') ->
  owns (records w') [h] (lib w').
Proof.
  intros Hown Hrun. apply remove_device_from_records_inv in Hrun
    as [[_ ->]|(pre & r & post & u' & Hw & Hu & _ & ->)]; [done|].
  rewrite Hw in Hown. destruct (owns_erase _ _ _ _ _ Hown) as [Hu' Hown'].
  rewrite Hu in Hu'. injection Hu' as ->. exact Hown'.
Qed.

(** *** Removal runs to completion

    When every stored devnode is non-NULL, the search loop never reads
    NULL, and a removal whose device the caller holds always returns. *)
Definition devnodes_set (rs : list device_record) : Prop :=
  Forall (fun r => is_Some (m_devnode r)) rs.

Lemma devnode_matches_Some dn s : exists b, devnode_matches dn (Some s) = Ok b.
Proof. unfold devnode_matches. destruct (strlen dn); eauto. Qed.

Lemma find_by_devnode_total dn rs : devnodes_set rs -> exists res, find_by_devnode dn rs = Ok res.
Proof.
  induction rs as [|r rs IH]; intros Hs; simpl; [eauto|].
  apply Forall_cons in Hs as [[s Hs] Hrs]. rewrite Hs.
  destruct (devnode_matches_Some dn s) as [[|] ->]; [eauto|].
  destruct (IH Hrs) as [[[[pre x] post]|] ->]; eauto.
Qed.

Lemma remove_device_from_records_total h w :
  owns (records w) [h] (lib w) -> devnodes_set (records w) ->
  exists res w', remove_device_from_records h w = Ok (res, w') /\
    devnodes_set (records w') /\ last_id w' = last_id w.
Proof.
  intros Hown Hs. destruct (holds_lookup _ _ h (proj1 Hown)) as [d Hh];
    [apply elem_of_app; right; by left|].
  destruct (di_devnode d) as [dn|] eqn:Hdn.
  - destruct (find_by_devnode_total dn _ Hs) as [[[[pre r] post]|] Hf].
    + destruct (find_by_devnode_Some _ _ _ _ _ Hf) as (Hw & _ & _).
      rewrite Hw in Hown. destruct (owns_erase _ _ _ _ _ Hown) as [Hu _].
      eexists _, _. split; [exact (remove_device_from_records_found w h _ dn pre r post _ Hh Hdn Hf Hu)|].
      unfold devnodes_set, records, last_id in *. rewrite Hw in Hs. simpl. split; [|done].
      apply Forall_app in Hs as [Hs1 Hs2]. apply Forall_cons in Hs2 as [_ Hs2]. by apply Forall_app.
    + exists (false, (-1)%Z), w. split; [exact (remove_device_from_records_not_found w h _ dn Hh Hdn Hf)|done].
  - exists (false, (-1)%Z), w. split; [exact (remove_device_from_records_no_devnode w h _ Hh Hdn)|done].
Qed.

(** [reset_device_records] releases every record's device. *)
Lemma iter_delete_records rs w :
  holds (handles rs) (lib w) ->
  st_iter delete_record rs w = Ok (tt, set_lib (set_objs ∅ (lib w)) w).
Proof.
  revert w. induction rs as [|r rs IH]; intros w Hh; simpl.
  - destruct Hh as (_ & Hdom & _). simpl in Hdom. apply dom_empty_iff_L in Hdom.
    rewrite <- Hdom. reflexivity.
  - destruct (holds_unref [] (m_device r) (handles rs) (lib w) Hh) as [Hu Hh'].
    unfold st_bind, delete_record. rewrite (on_udev_run _ _ _ _ Hu).
    rewrite (IH (set_lib _ w)); [reflexivity | exact Hh'].
Qed.

Definition reset_state (w : machine) : machine :=
  modify_dm (with_records []) (set_lib (set_objs ∅ (lib w)) w).

Lemma reset_device_records_ok w :
  owns (records w) [] (lib w) -> records w <> [] ->
  reset_device_records w = Ok (tt, reset_state w).
Proof.
  intros [Hh _] Hne. rewrite app_nil_r in Hh.
  unfold reset_device_records, set_records. st_unfold.
  rewrite decide_True by (destruct (records w); simpl; congruence).
  rewrite iter_delete_records by done. reflexivity.
Qed.

Lemma reset_device_records_empty w :
  records w = [] -> reset_device_records w = Ok (tt, w).
Proof.
  intros He. unfold reset_device_records. st_unfold. by rewrite He.
Qed.

Lemma owns_empty_objs w : owns (records w) [] (lib w) -> records w = [] -> u_objs (lib w) = ∅.
Proof. intros [(_ & Hdom & _) _] He. rewrite He in Hdom. by apply dom_empty_iff_L. Qed.

(** ** Matching a removal event to a record

    The spec's registry removes the record whose devnode EQUALS the
    event's ([find_exact]). The code compares with
    [strncmp(devnode, stored, strlen(devnode))], a prefix test. *)
Fixpoint find_exact (dn : string) (rs : list device_record)
  : option (list device_record * device_record * list device_record) :=
  match rs with
  | [] => None
  | r :: rs' =>
      if decide (m_devnode r = Some dn) then Some ([], r, rs')
      else match find_exact dn rs' with
           | Some (pre, x, post) => Some (r :: pre, x, post)
           | None => None
           end
  end.

Lemma strlen_nonempty dn :
  nul_free dn = true -> dn <> EmptyString -> exists k, strlen dn = S k.
Proof.
  destruct dn as [|c dn]; [done|]. simpl. intros [Hc _]%andb_true_iff _.
  apply bool_decide_eq_true in Hc. rewrite decide_False by done. eauto.
Qed.

(** For a non-empty event devnode and a stored devnode, the test is
    "the event's devnode is a prefix of the stored one". *)
Lemma devnode_matches_prefix dn s :
  nul_free dn = true -> dn <> EmptyString -> nul_free s = true ->
  exists b, devnode_matches dn (Some s) = Ok b /\
            (b = true <-> exists t, s = String.append dn t).
Proof.
  intros Hdn Hne Hs. destruct (strlen_nonempty dn Hdn Hne) as [k Hk].
  unfold devnode_matches. rewrite Hk. eexists; split; [reflexivity|].
  rewrite bool_decide_eq_true, <- Hk. by apply strncmp_strlen_prefix.
Qed.

(** The search passes over records that do not match. *)
Lemma find_by_devnode_skip dn pre rs :
  Forall (fun x => devnode_matches dn (m_devnode x) = Ok false) pre ->
  find_by_devnode dn (pre ++ rs) =
    match find_by_devnode dn rs with
    | Ok (Some (p, x, q)) => Ok (Some (pre ++ p, x, q))
    | e => e
    end.
Proof.
  induction 1 as [|y pre Hy _ IH]; cbn; [by destruct (find_by_devnode dn rs) as [[[[??]?]|]|]|].
  rewrite Hy, IH. by destruct (find_by_devnode dn rs) as [[[[??]?]|]|].
Qed.

(** C22: A record with a NULL devnode met before any match, anywhere in
    the list, makes the search pass NULL to [strncmp]. *)
Theorem find_by_devnode_null dn pre r rs :
  strlen dn <> 0 -> Forall (fun x => devnode_matches dn (m_devnode x) = Ok false) pre ->
  m_devnode r = None -> find_by_devnode dn (pre ++ r :: rs) = Crash NullDeref.
Proof.
  intros Hl Hpre Hn. rewrite (find_by_devnode_skip dn pre (r :: rs) Hpre). simpl.
  unfold devnode_matches. rewrite Hn. by destruct (strlen dn).
Qed.

(** Refinement: when no stored devnode strictly extends the event's
    devnode, the prefix search finds exactly the record the spec's exact
    search finds. *)
Definition no_extension (dn : string) (rs : list device_record) : Prop :=
  Forall (fun r => exists s, m_devnode r = Some s /\ nul_free s = true /\
                             forall t, s = String.append dn t -> t = EmptyString) rs.

(** The spec's [remove(node_path)]: erase the record whose devnode
    equals the event's, releasing its device. *)
Definition remove_exact (dn : string) : ST machine (bool * Z) :=
  recs <- st_gets records ;;
  match find_exact dn recs with
  | None => ret (false, (-1)%Z)
  | Some (pre, r, post) =>
      delete_record r ;;
      set_records (pre ++ post) ;;
      ret (true, m_identifier r)
  end.

(** [no_extension] decided on concrete records: each stored devnode is
    the event's or does not start with it. *)
Definition no_extension_b (dn : string) (rs : list device_record) : bool :=
  forallb (fun r => match m_devnode r with
                    | Some s => nul_free s && (bool_decide (s = dn) ||
                                               negb (bool_decide (strncmp dn s (strlen dn) = 0%Z)))
                    | None => false
                    end) rs.

Lemma no_extension_b_spec dn rs :
  nul_free dn = true -> no_extension_b dn rs = true -> no_extension dn rs.
Proof.
  intros Hdn. unfold no_extension_b, no_extension. rewrite forallb_forall, Forall_forall.
  intros Hall r Hr. specialize (Hall r (proj1 (list_elem_of_In _ _) Hr)).
  destruct (m_devnode r) as [s|]; [|done]. apply andb_true_iff in Hall as [Hs Hor].
  exists s. split; [done|]. split; [done|]. intros t ->.
  apply orb_true_iff in Hor as [Heq|Hne].
  - apply bool_decide_eq_true in Heq. by apply (append_eq_self dn t).
  - apply negb_true_iff, bool_decide_eq_false in Hne. exfalso. apply Hne.
    apply strncmp_strlen_prefix; [done | done | by exists t].
Qed.

Lemma find_by_devnode_exact dn rs :
  nul_free dn = true -> dn <> EmptyString -> no_extension dn rs ->
  find_by_devnode dn rs = Ok (find_exact dn rs).
Proof.
  intros Hdn Hne. induction rs as [|r rs IH]; intros Hext; [done|].
  apply Forall_cons in Hext as [(s & Hs & Hsn & Hext1) Hext]. simpl.
  destruct (devnode_matches_prefix dn s Hdn Hne Hsn) as (b & Hb & Hiff).
  rewrite Hs, Hb. destruct b.
  - destruct (proj1 Hiff eq_refl) as [t ->]. rewrite (Hext1 t eq_refl).
    rewrite append_empty_r. by rewrite decide_True.
  - rewrite IH by done. rewrite decide_False.
    + by destruct (find_exact dn rs) as [[[??]?]|].
    + intros [= ->]. assert (false = true) as [=]. apply Hiff. exists EmptyString.
      by rewrite append_empty_r.
Qed.

(** The first record whose devnode has the event's devnode as a prefix
    is the one removed, even when its devnode is longer. *)
Example find_by_devnode_prefix_example :
  find_by_devnode "/dev/bus/usb/001/1"
    [mkRecord 1 1 (Some "/dev/bus/usb/001/12"); mkRecord 2 2 (Some "/dev/bus/usb/001/1")]
  = Ok (Some ([], mkRecord 1 1 (Some "/dev/bus/usb/001/12"),
              [mkRecord 2 2 (Some "/dev/bus/usb/001/1")])).
Proof. vm_compute. reflexivity. Qed.

(** Reset releases every device the registry owns, leaves no udev object
    alive, and keeps the identifier counter and the callback slot. *)
Lemma reset_device_records_releases_all w :
  owns (records w) [] (lib w) ->
  exists w', reset_device_records w = Ok (tt, w') /\ records w' = [] /\
             u_objs (lib w') = ∅ /\ last_id w' = last_id w /\ calls w' = calls w /\
             m_callback (dm w') = m_callback (dm w).
Proof.
  intros Hown. destruct (decide (records w = [])) as [He|Hne].
  - exists w. rewrite reset_device_records_empty by done.
    split; [done|]. split; [done|]. split; [by apply owns_empty_objs|]. done.
  - exists (reset_state w). rewrite reset_device_records_ok by done. done.
Qed.

(** C4: Refinement: when no stored devnode strictly extends the event's
    devnode, the code's removal is the spec's exact-key removal. *)
Theorem remove_device_from_records_refines w h o dn :
  u_objs (lib w) !! h = Some o -> di_devnode (uo_info o) = Some dn ->
  nul_free dn = true -> dn <> EmptyString -> no_extension dn (records w) ->
  remove_device_from_records h w = remove_exact dn w.
Proof.
  intros Hh Hdn Hnf Hne Hext.
  unfold remove_device_from_records, remove_exact, udev_device_get_devnode, live_obj.
  st_unfold. unfold records in *. cbn. rewrite Hh. cbn. rewrite Hdn. cbn.
  rewrite (find_by_devnode_exact dn _ Hnf Hne Hext). cbn. reflexivity.
Qed.


(** C14: A removal event for a devnode that no record has, and that no
    stored devnode extends: nothing changes and the identifier is -1. *)
Theorem remove_device_from_records_unknown w h o dn :
  u_objs (lib w) !! h = Some o -> di_devnode (uo_info o) = Some dn ->
  nul_free dn = true -> dn <> EmptyString -> no_extension dn (records w) ->
  find_exact dn (records w) = None ->
  remove_device_from_records h w = Ok ((false, (-1)%Z), w).
Proof.
  intros Hh Hdn Hnf Hne Hext Hx. apply (remove_device_from_records_not_found w h o dn Hh Hdn).
  rewrite (find_by_devnode_exact dn (records w) Hnf Hne Hext). by rewrite Hx.
Qed.

(** C13: Overflow: an addition when the counter is at [INT_MAX] increments a
    signed [int] past its range, undefined behaviour in C++; the code
    has no roll-over policy (its TODO). *)
Theorem add_device_to_records_overflow w h :
  last_id w = INT_MAX -> add_device_to_records h w = Crash SignedOverflow.
Proof.
  intros Hl. unfold add_device_to_records, get_new_identifier. st_unfold.
  rewrite Hl. rewrite decide_False by lia. reflexivity.
Qed.

End Registry.
