(* ===== verification/Property.v ===== *)
(** * The property resolver

    [char *device_manager::get_property(int identifier, const char *key)]
    ([src/src/usbctrl.cpp] lines 227-258), reached from
    [rusbCtrl_getProperty] (555-558). It looks the identifier up in the
    registry, asks libudev for the sysfs attribute [key] of that record's
    device, and returns a heap copy of the value made with
    [malloc(strlen(value))] and [strncpy(buffer, value, strlen(value))].

    The theorems: an unknown identifier or attribute gives NULL and
    changes nothing; under the registry's ownership invariant the lookup
    never touches a released device; the returned buffer holds the
    value's characters and no terminator, so reading it as a C string
    runs past the allocation (the spec asks for [strlen + 1] bytes with
    the terminator copied). *)

From S2P Require Import Prelude CString Platform State Registry.

Module Property.
Import CString Udev State Registry.
Local Open Scope st_scope.

(** [const char * supported_property_list[]] (56-65). No function of the
    file reads it: [get_property] passes any key to libudev, as the spec's
    informational whitelist allows. *)
Definition supported_property_list : list string :=
  ["manufacturer"; "product"; "idProduct"; "idVendor"; "serial"; "bInterfaceClass";
   "bInterfaceSubClass"].

(** The search loop of [get_property]: the first record with that
    identifier. *)
Fixpoint find_by_identifier (identifier : Z) (recs : list device_record) : option device_record :=
  match recs with
  | [] => None
  | r :: rs => if decide (identifier = m_identifier r) then Some r else find_by_identifier identifier rs
  end.

(** [malloc(strlen(value))] then [strncpy(user_buffer, value, strlen(value))]. *)
Definition copy_value (value : string) : ST machine buffer :=
  match strncpy (malloc (strlen value)) value (strlen value) with
  | Some b => ret b
  | None => st_crash BufferOverflow
  end.

Definition get_property (identifier : Z) (key : string) : ST machine (option buffer) :=
  recs <- st_gets records ;;
  match find_by_identifier identifier recs with
  | None => ret None
  | Some r =>
      value <- on_udev (udev_device_get_sysattr_value (m_device r) key) ;;
      match value with
      | None => ret None
      | Some v => b <- copy_value v ;; ret (Some b)
      end
  end.

(** ** Lemmas *)

Lemma find_by_identifier_elem identifier rs r :
  find_by_identifier identifier rs = Some r -> r ∈ rs /\ m_identifier r = identifier.
Proof.
  induction rs as [|x rs IH]; simpl; [done|].
  case_decide; [intros [= <-]; split; [left | done] |].
  intros Hf. destruct (IH Hf). split; [by right | done].
Qed.

Lemma strncpy_bytes_length s n : length (strncpy_bytes s n) = n.
Proof.
  revert s. induction n as [|n IH]; intros s; simpl; [done|].
  case_decide; simpl; [by rewrite length_replicate | by rewrite IH].
Qed.

Lemma copy_value_ok v w :
  copy_value v w = Ok (map Some (strncpy_bytes v (strlen v)), w).
Proof.
  unfold copy_value, strncpy, malloc. rewrite length_replicate, decide_True by done.
  rewrite drop_replicate, Nat.sub_diag, app_nil_r. reflexivity.
Qed.

(** The bytes written for a NUL-free value: its characters. *)
Lemma strncpy_bytes_exact v :
  nul_free v = true -> strncpy_bytes v (strlen v) = String.list_ascii_of_string v.
Proof.
  intros Hv. rewrite strlen_nul_free, strncpy_bytes_nul_free by done.
  by rewrite substring_0_length.
Qed.

(** ** The resolver's contract

    [property_value w identifier key] is what the spec's resolver
    promises: the attribute [key] of the device recorded under
    [identifier], [None] for an unknown identifier or attribute. It
    faults only if the record's device has been released. *)
Definition property_value (w : machine) (identifier : Z) (key : string) : exec (option string) :=
  match find_by_identifier identifier (records w) with
  | None => Ok None
  | Some r =>
      match u_objs (lib w) !! m_device r with
      | None => Crash UseAfterFree
      | Some o => Ok (assoc_lookup key (di_sysattrs (uo_info o)))
      end
  end.

(** The bytes the code hands back for a value. *)
Definition code_bytes (v : string) : buffer := map Some (strncpy_bytes v (strlen v)).

Lemma get_property_eq w identifier key :
  get_property identifier key w =
    match property_value w identifier key with
    | Ok ov => Ok (code_bytes <$> ov, w)
    | Crash f => Crash f
    end.
Proof.
  unfold get_property, property_value, udev_device_get_sysattr_value, live_obj. st_unfold.
  destruct (find_by_identifier identifier (records w)) as [r|]; [|done]. cbn.
  destruct (u_objs (lib w) !! m_device r) as [o|]; [|done]. cbn.
  destruct (assoc_lookup key (di_sysattrs (uo_info o))) as [v|]; [|done].
  rewrite copy_value_ok. reflexivity.
Qed.

(** Every sysfs attribute value libudev returns is a C string. *)
Definition sysattrs_c_strings (u : udev) : Prop :=
  map_Forall (fun _ o => Forall (fun kv => nul_free kv.2 = true) (di_sysattrs (uo_info o))) (u_objs u).

Lemma assoc_lookup_nul_free key l v :
  Forall (fun kv => nul_free kv.2 = true) l -> assoc_lookup key l = Some v -> nul_free v = true.
Proof.
  induction l as [|[k' v'] l IH]; simpl; [done|].
  intros [Hkv Hl]%Forall_cons. case_decide; [by intros [= <-] | by apply IH].
Qed.

Lemma property_value_nul_free w identifier key v :
  sysattrs_c_strings (lib w) -> property_value w identifier key = Ok (Some v) -> nul_free v = true.
Proof.
  unfold property_value. intros Hc.
  destruct (find_by_identifier identifier (records w)) as [r|]; [|done].
  destruct (u_objs (lib w) !! m_device r) as [o|] eqn:Ho; [|done].
  intros [= Hv]. exact (assoc_lookup_nul_free _ _ _ (Hc _ _ Ho) Hv).
Qed.

(** Under ownership, every recorded device is alive. *)
Lemma owns_record_live rs extra u r :
  owns rs extra u -> r ∈ rs -> exists d, u_objs u !! m_device r = Some (mkObj d 1).
Proof.
  intros [Hh _] Hr. eapply holds_lookup; [exact Hh|].
  apply elem_of_app. left. by apply list_elem_of_fmap_2.
Qed.

(** ** Theorems *)

(** C12: An identifier with no record: NULL, and the machine is untouched
    (nothing is allocated). *)
Theorem get_property_unknown w identifier key :
  find_by_identifier identifier (records w) = None ->
  get_property identifier key w = Ok (None, w).
Proof. intros H. rewrite get_property_eq. unfold property_value. by rewrite H. Qed.

(** C11: Under the ownership invariant [get_property] never faults, changes
    nothing, and returns the code's copy of the value the contract names. *)
Theorem get_property_safe w identifier key :
  owns (records w) [] (lib w) ->
  exists ov, property_value w identifier key = Ok ov /\
             get_property identifier key w = Ok (code_bytes <$> ov, w).
Proof.
  intros Hown. rewrite get_property_eq. unfold property_value.
  destruct (find_by_identifier identifier (records w)) as [r|] eqn:Hf; [|eauto].
  apply find_by_identifier_elem in Hf as [Hr _].
  destruct (owns_record_live _ _ _ _ Hown Hr) as [d ->]. eauto.
Qed.

Lemma code_bytes_exact v : nul_free v = true -> code_bytes v = map Some (String.list_ascii_of_string v).
Proof. intros Hv. unfold code_bytes. by rewrite strncpy_bytes_exact. Qed.

(** C10: The returned buffer has exactly [strlen(value)] bytes, the value's
    characters, and no terminator: a caller that prints it or passes it
    to [strlen] reads past the allocation. *)
Theorem get_property_unterminated w identifier key b w' :
  sysattrs_c_strings (lib w) ->
  get_property identifier key w = Ok (Some b, w') ->
  c_str_read b = None /\
  exists v, property_value w identifier key = Ok (Some v) /\
            b = map Some (String.list_ascii_of_string v) /\ length b = String.length v.
Proof.
  intros Hc Hrun. rewrite get_property_eq in Hrun.
  destruct (property_value w identifier key) as [[v|]|] eqn:Hv; try discriminate.
  injection Hrun as <- _. pose proof (property_value_nul_free _ _ _ _ Hc Hv) as Hn.
  rewrite code_bytes_exact by done. split.
  - apply c_str_read_no_nul, nul_free_not_elem, Hn.
  - exists v. by rewrite length_map, length_list_ascii_of_string.
Qed.

End Property.
