(* ===== verification/Monitor.v ===== *)
(** * The monitor thread

    [monitor_for_changes] ([src/src/usbctrl.cpp] lines 292-340) with the
    two handlers it calls: [process_control_event] (279-290) and
    [process_udev_monitor_event] (480-529). The thread waits in [select]
    on the read end of the control pipe and on the udev monitor socket,
    with no timeout. The model derives the ready set from the machine: the
    control fd is readable once the pipe's write end is closed (no byte is
    ever written to it, [read] then returns 0), the socket once an event
    is pending. A signal delivered to the thread makes [select] return -1.

    Each pass of the [while] loop is [monitor_iteration]; [monitor_loop]
    runs passes with fuel until the thread blocks or leaves the loop;
    [monitor_for_changes] adds the entry's test of the monitor fd, and
    [monitor_thread_wrapper] (200-204) is the thread's entry, which falls
    off its end without a [return]; and
    [mstep] is the thread's transition relation, interleaved with the
    kernel queueing events.

    The theorems: every handler keeps the registry invariant [mon_inv]
    and the identifier history [hist_ok]; each pass that stays in the
    loop decreases [loop_measure], and with well-formed events the
    thread's body returns without a fault; shutdown on end of file, the order of the
    two fds, and a signal ending monitoring. *)

From S2P Require Import Prelude CString Platform State Registry.

Module Monitor.
Import CString Udev State Registry.
Local Open Scope st_scope.

Definition UDEV_ADD_EVENT : string := "add".
Definition UDEV_REMOVE_EVENT : string := "remove".

(** [strncmp(action, ev, strlen(ev)) == 0]; a NULL action is read. *)
Definition action_is (action : option string) (ev : string) : exec bool :=
  match action with
  | None => if decide (strlen ev = 0) then Ok true else Crash NullDeref
  | Some a => Ok (bool_decide (strncmp a ev (strlen ev) = 0%Z))
  end.

(** [if ((result) && (m_callback)) m_callback(identifier, connected, m_callback_data);] *)
Definition notify (result : bool) (identifier connected : Z) : ST machine unit :=
  cb <- st_gets (fun w => m_callback (dm w)) ;;
  if result && bool_decide (cb <> 0%Z) then invoke_callback identifier connected
  else ret tt.

(** [void process_udev_monitor_event()]. The added device's reference
    passes to its record; a removal event's device is released after the
    registry update; any other action releases it at once. *)
Definition process_udev_monitor_event : ST machine unit :=
  device <- on_udev udev_monitor_receive_device ;;
  match device with
  | None => ret tt
  | Some h =>
      action <- on_udev (udev_device_get_action h) ;;
      is_add <- st_lift (action_is action UDEV_ADD_EVENT) ;;
      if is_add then
        res <- add_device_to_records h ;;
        notify res.1 res.2 1
      else
        is_remove <- st_lift (action_is action UDEV_REMOVE_EVENT) ;;
        if is_remove then
          res <- remove_device_from_records h ;;
          on_udev (udev_device_unref h) ;;
          notify res.1 res.2 0
        else on_udev (udev_device_unref h)
  end.

(** [void process_control_event()]: [read] returns 0 at end of file, the
    only thing that ever happens on the pipe, and then monitoring stops. *)
Definition process_control_event : ST machine unit :=
  open <- st_gets pipe_write_open ;;
  if open then ret tt else st_modify (modify_dm (with_enable false)).

(** What [select] returns: its count and the two [FD_ISSET] answers, or
    that it keeps waiting. *)
Inductive select_result :=
  | SelReturned (count : Z) (control_set monitor_set : bool)
  | SelBlocked.

Definition select_fds (interrupted : bool) (w : machine) : select_result :=
  if interrupted then SelReturned (-1) false false
  else
    let c := negb (pipe_write_open w) in
    let u := bool_decide (u_queue (lib w) <> []) in
    if c || u then SelReturned ((if c then 1 else 0) + (if u then 1 else 0))%Z c u
    else SelBlocked.

Inductive loop_status := LoopContinue | LoopBlocked | LoopExit.

#[export] Instance loop_status_eq_dec : EqDecision loop_status.
Proof. solve_decision. Defined.

Definition disable_monitoring : ST machine unit := st_modify (modify_dm (with_enable false)).

(** The body of the loop from [select] on (lines 306-336). *)
Definition monitor_select (interrupted : bool) : ST machine loop_status :=
    sel <- st_gets (select_fds interrupted) ;;
    match sel with
    | SelBlocked => ret LoopBlocked
    | SelReturned r c u =>
        if decide (r = 0%Z) then disable_monitoring ;; ret LoopExit
        else if decide (0 < r)%Z then
          (if c then process_control_event else ret tt) ;;
          (if u then process_udev_monitor_event else ret tt) ;;
          ret LoopContinue
        else disable_monitoring ;; ret LoopContinue
    end.

(** One pass of [while (true == m_enable_monitoring) { ... }]. *)
Definition monitor_iteration (interrupted : bool) : ST machine loop_status :=
  enabled <- st_gets (fun w => m_enable_monitoring (dm w)) ;;
  if negb enabled then ret LoopExit else monitor_select interrupted.

(** Entry of [monitor_for_changes]: an invalid monitor fd returns at once. *)
Definition monitor_start : ST machine unit :=
  fd <- st_gets monitor_fd ;;
  if decide (fd <= 0)%Z then st_modify (set_phase MonStopped)
  else st_modify (set_phase MonRunning).

(** After the loop: [close(monitor_fd)] and the thread returns. *)
Definition monitor_finish : ST machine unit :=
  fd <- st_gets monitor_fd ;;
  st_modify (close_fd fd) ;;
  st_modify (set_phase MonStopped).

(** The loop run for at most [fuel] passes; [LoopContinue] means the fuel
    ran out, [LoopBlocked] that [select] waits for the environment. *)
Fixpoint monitor_loop (fuel : nat) : ST machine loop_status :=
  match fuel with
  | O => ret LoopContinue
  | S n =>
      st <- monitor_iteration false ;;
      match st with
      | LoopContinue => monitor_loop n
      | LoopExit => monitor_finish ;; ret LoopExit
      | LoopBlocked => ret LoopBlocked
      end
  end.

(** [void monitor_for_changes()] (292-340) run for at most [fuel] passes:
    the entry, then the loop, unless the monitor fd was invalid and the
    function returned at once. *)
Definition monitor_for_changes (fuel : nat) : ST machine loop_status :=
  monitor_start ;;
  ph <- st_gets phase ;;
  match ph with
  | MonRunning => monitor_loop fuel
  | _ => ret LoopExit
  end.

(** [static void * monitor_thread_wrapper(void* data)] (200-204), the
    thread's entry: [Some None] when it has returned, with no value since
    it has no [return] statement; [None] while it is still running. *)
Definition monitor_thread_wrapper (fuel : nat) : ST machine (option (option Z)) :=
  st <- monitor_for_changes fuel ;;
  ret (match st with LoopExit => Some None | _ => None end).

(** The kernel queues an event on the monitor socket. *)
Definition push_event (d : device_info) (w : machine) : machine :=
  set_lib (mkUdev (u_objs (lib w)) (u_next (lib w)) (u_queue (lib w) ++ [d])) w.

(** The monitor thread's transitions, with the kernel's. *)
Inductive mstep : machine -> machine -> Prop :=
  | ms_start w w' :
      phase w = MonStarting -> monitor_start w = Ok (tt, w') -> mstep w w'
  | ms_pass w w' (interrupted : bool) :
      phase w = MonRunning ->
      monitor_iteration interrupted w = Ok (LoopContinue, w') -> mstep w w'
  | ms_exit w w1 w' (interrupted : bool) :
      phase w = MonRunning ->
      monitor_iteration interrupted w = Ok (LoopExit, w1) ->
      monitor_finish w1 = Ok (tt, w') -> mstep w w'
  | ms_block w :
      phase w = MonRunning ->
      monitor_iteration false w = Ok (LoopBlocked, w) -> mstep w (set_phase MonWaiting w)
  | ms_wake w w' (interrupted : bool) :
      phase w = MonWaiting ->
      monitor_select interrupted w = Ok (LoopContinue, w') -> mstep w (set_phase MonRunning w')
  | ms_wake_exit w w1 w' (interrupted : bool) :
      phase w = MonWaiting ->
      monitor_select interrupted w = Ok (LoopExit, w1) ->
      monitor_finish w1 = Ok (tt, w') -> mstep w w'
  | ms_kernel w d : mstep w (push_event d w).

Inductive reachable (w0 : machine) : machine -> Prop :=
  | reach_init : reachable w0 w0
  | reach_step w w' : reachable w0 w -> mstep w w' -> reachable w0 w'.

(** ** The registry invariant across the handlers *)

(** Identifiers distinct and bounded, and every live udev object owned by
    exactly one record. *)
Definition mon_inv (w : machine) : Prop := ids_ok w /\ owns (records w) [] (lib w).

Lemma add_device_to_records_inv h w res w' :
  add_device_to_records h w = Ok (res, w') ->
  exists o, u_objs (lib w) !! h = Some o /\ (last_id w + 1 <= INT_MAX)%Z /\
            res = (true, last_id w + 1)%Z /\ w' = added w h (di_devnode (uo_info o)).
Proof.
  destruct (decide (last_id w + 1 <= INT_MAX)%Z) as [Hb|Hb].
  - destruct (u_objs (lib w) !! h) as [o|] eqn:Ho.
    + rewrite (add_device_to_records_ok _ _ _ Ho Hb). intros [= <- <-]. eauto.
    + unfold add_device_to_records, get_new_identifier, udev_device_get_devnode, live_obj.
      st_unfold. rewrite (decide_True _ _ Hb). cbn. by rewrite Ho.
  - unfold add_device_to_records, get_new_identifier. st_unfold. by rewrite decide_False.
Qed.

Lemma notify_inv b identifier connected w w' :
  notify b identifier connected w = Ok (tt, w') -> exists cs, w' = set_calls cs w.
Proof.
  unfold notify, invoke_callback. st_unfold.
  destruct (b && bool_decide (m_callback (dm w) <> 0%Z)); intros [= <-]; eauto.
Qed.

Lemma mon_inv_set_calls cs w : mon_inv w -> mon_inv (set_calls cs w).
Proof. done. Qed.

(** A new udev object: its one reference is held by the caller. *)
Lemma owns_new rs u d q :
  owns rs [] u ->
  owns rs [u_next u] (mkUdev (<[u_next u := mkObj d 1]> (u_objs u)) (Pos.succ (u_next u)) q).
Proof.
  intros [Hh Hdn]. rewrite app_nil_r in Hh. split; [by apply holds_new|].
  eapply devnodes_ok_ext; [exact Hdn|]. intros r Hr. simpl. apply lookup_insert_ne.
  destruct (holds_lookup _ _ (m_device r) Hh) as [o Ho]; [by apply list_elem_of_fmap_2|].
  intros Heq. rewrite <- Heq in Ho. rewrite device_new_fresh in Ho; [done|]. apply Hh.
Qed.

(** Receiving an event: a fresh object whose one reference the monitor
    thread holds. *)
Lemma owns_receive rs u d q :
  owns rs [] u -> u_queue u = d :: q ->
  udev_monitor_receive_device u =
    Ok (Some (u_next u), mkUdev (<[u_next u := mkObj d 1]> (u_objs u)) (Pos.succ (u_next u)) q) /\
  owns rs [u_next u] (mkUdev (<[u_next u := mkObj d 1]> (u_objs u)) (Pos.succ (u_next u)) q).
Proof.
  intros Hown Hq. unfold udev_monitor_receive_device. rewrite Hq.
  split; [reflexivity | by apply owns_new].
Qed.

(** The monitor thread releasing its reference. *)
Lemma owns_release rs h u :
  owns rs [h] u ->
  udev_device_unref h u = Ok (tt, set_objs (delete h (u_objs u)) u) /\
  owns rs [] (set_objs (delete h (u_objs u)) u).
Proof.
  intros [Hh Hdn]. rewrite <- (app_nil_r (handles rs ++ [h])), <- app_assoc in Hh.
  destruct (holds_unref _ _ _ _ Hh) as [Hu Hh']. split; [done|]. split; [done|].
  eapply devnodes_ok_ext; [exact Hdn|]. intros r Hr. simpl. apply lookup_delete_ne.
  intros Heq. destruct Hh as [Hnd _]. apply (NoDup_app_cons_ne (handles rs) [] h (m_device r) Hnd);
    [rewrite app_nil_r; by apply list_elem_of_fmap_2 | done].
Qed.

Lemma owns_queue rs extra u q :
  owns rs extra u -> owns rs extra (mkUdev (u_objs u) (u_next u) q).
Proof. done. Qed.

(** A udev call that only reads leaves the machine as it was. *)
Lemma on_udev_read {A} (m : ST udev A) w a u :
  m (lib w) = Ok (a, u) -> u = lib w -> on_udev m w = Ok (a, w).
Proof. intros Hm ->. by rewrite (on_udev_run _ _ _ _ Hm). Qed.

(** The runs of the handler that return: no event, or an event whose
    device is added, removed (then released) or released at once. *)
Lemma process_udev_monitor_event_Ok w w' :
  process_udev_monitor_event w = Ok (tt, w') ->
  w' = w \/
  exists h u1, udev_monitor_receive_device (lib w) = Ok (Some h, u1) /\
    ((exists res w4, add_device_to_records h (set_lib u1 w) = Ok (res, w4) /\
                     notify res.1 res.2 1 w4 = Ok (tt, w')) \/
     (exists res w5 u6, remove_device_from_records h (set_lib u1 w) = Ok (res, w5) /\
                        udev_device_unref h (lib w5) = Ok (tt, u6) /\
                        notify res.1 res.2 0 (set_lib u6 w5) = Ok (tt, w')) \/
     (exists u6, udev_device_unref h u1 = Ok (tt, u6) /\ w' = set_lib u6 (set_lib u1 w))).
Proof.
  intros Hrun. unfold process_udev_monitor_event in Hrun.
  apply st_bind_Ok in Hrun as (dev & w1 & Hrecv & Hrun). apply on_udev_Ok in Hrecv as (u1 & Hr & ->).
  destruct dev as [h|].
  - right. exists h, u1. split; [done|]. cbv beta iota in Hrun.
    apply st_bind_Ok in Hrun as (act & w2 & Hact & Hrun). apply on_udev_Ok in Hact as (u2 & Ha & ->).
    apply udev_device_get_action_Ok in Ha as ->.
    apply st_bind_Ok in Hrun as (is_add & w3 & Hadd & Hrun). apply st_lift_Ok in Hadd as [_ ->].
    destruct is_add; cbv beta iota in Hrun.
    + left. apply st_bind_Ok in Hrun as (res & w4 & Hadd & Hrun). eauto.
    + right. apply st_bind_Ok in Hrun as (is_rem & w4 & Hrem & Hrun). apply st_lift_Ok in Hrem as [_ ->].
      destruct is_rem; cbv beta iota in Hrun.
      * left. apply st_bind_Ok in Hrun as (res & w5 & Hrem & Hrun).
        apply st_bind_Ok in Hrun as ([] & w6 & Hunref & Hrun).
        apply on_udev_Ok in Hunref as (u6 & Hu & ->). eauto 10.
      * right. apply on_udev_Ok in Hrun as (u6 & Hu & ->). eauto.
  - left. injection Hrun as <-. unfold udev_monitor_receive_device in Hr.
    destruct (u_queue (lib w)); [injection Hr as <-; by destruct w | discriminate].
Qed.

(** The handler of one udev event keeps the invariant. *)
Lemma process_udev_monitor_event_inv w w' :
  mon_inv w -> process_udev_monitor_event w = Ok (tt, w') -> mon_inv w'.
Proof.
  intros [Hids Hown] Hrun.
  destruct (process_udev_monitor_event_Ok _ _ Hrun) as [->|(h & u1 & Hr & Hcase)]; [by split|].
  destruct (u_queue (lib w)) as [|d q] eqn:Hq.
  { unfold udev_monitor_receive_device in Hr. rewrite Hq in Hr. discriminate. }
  destruct (owns_receive _ _ _ _ Hown Hq) as [Hr' Hown1]. rewrite Hr' in Hr. injection Hr as <- <-.
  set (w1 := set_lib _ w) in *.
  assert (Hlive : u_objs (lib w1) !! u_next (lib w) = Some (mkObj d 1)) by apply lookup_insert_eq.
  destruct Hcase as [(res & w4 & Hadd & Hn)|[(res & w5 & u6 & Hrem & Hu & Hn)|(u6 & Hu & ->)]].
  - apply add_device_to_records_inv in Hadd as (o & Ho & Hb & -> & ->).
    apply notify_inv in Hn as [cs ->]. apply mon_inv_set_calls.
    rewrite Hlive in Ho. injection Ho as <-. split.
    + by apply ids_ok_added.
    + exact (owns_added w1 _ _ Hown1 Hlive).
  - pose proof (ids_ok_remove _ w1 _ _ Hids Hrem) as Hids5.
    destruct (owns_release _ _ _ (owns_remove _ w1 _ _ Hown1 Hrem)) as [Hu' Hown6].
    rewrite Hu in Hu'. injection Hu' as ->. apply notify_inv in Hn as [cs ->]. by split.
  - destruct (owns_release _ _ _ Hown1) as [Hu' Hown6]. rewrite Hu in Hu'. injection Hu' as ->.
    by split.
Qed.

Lemma process_udev_monitor_event_preserves : preserves mon_inv process_udev_monitor_event.
Proof. intros w [] w'. apply process_udev_monitor_event_inv. Qed.

Lemma mon_inv_modify_dm f w :
  m_device_records (f (dm w)) = m_device_records (dm w) ->
  m_last_used_identifier (f (dm w)) = m_last_used_identifier (dm w) ->
  mon_inv w -> mon_inv (modify_dm f w).
Proof. intros Hr Hl. unfold mon_inv, ids_ok, records, last_id. simpl. by rewrite Hr, Hl. Qed.

#[export] Hint Resolve process_udev_monitor_event_preserves : preserves.
#[export] Hint Extern 1 (mon_inv (modify_dm _ _)) => apply mon_inv_modify_dm; [done|done|] : preserves.
#[export] Hint Extern 1 (mon_inv (close_fd _ _)) => assumption : preserves.
#[export] Hint Extern 1 (mon_inv (set_phase _ _)) => assumption : preserves.

Lemma monitor_select_preserves interrupted : preserves mon_inv (monitor_select interrupted).
Proof. unfold monitor_select, process_control_event, disable_monitoring. solve_preserves. Qed.

#[export] Hint Resolve monitor_select_preserves : preserves.

Lemma monitor_iteration_preserves interrupted : preserves mon_inv (monitor_iteration interrupted).
Proof. unfold monitor_iteration. solve_preserves. Qed.

Lemma monitor_finish_preserves : preserves mon_inv monitor_finish.
Proof. unfold monitor_finish. solve_preserves. Qed.

Lemma monitor_start_preserves : preserves mon_inv monitor_start.
Proof. unfold monitor_start. solve_preserves. Qed.

(** ** The thread's transition relation *)

Lemma mstep_inv w w' : mon_inv w -> mstep w w' -> mon_inv w'.
Proof.
  intros Hinv Hs.
  destruct Hs as [w w' _ Hrun|w w' i _ Hrun|w w1 w' i _ Hrun Hfin|w _ _|w w' i _ Hrun
                 |w w1 w' i _ Hrun Hfin|w d].
  - exact (monitor_start_preserves _ _ _ Hinv Hrun).
  - exact (monitor_iteration_preserves i _ _ _ Hinv Hrun).
  - exact (monitor_finish_preserves _ _ _ (monitor_iteration_preserves i _ _ _ Hinv Hrun) Hfin).
  - exact Hinv.
  - exact (monitor_select_preserves i _ _ _ Hinv Hrun).
  - exact (monitor_finish_preserves _ _ _ (monitor_select_preserves i _ _ _ Hinv Hrun) Hfin).
  - exact Hinv.
Qed.

(** ** Identifiers are never handed out twice

    [connect_ids] lists the identifiers of the connect notifications made
    so far, oldest first. [hist_ok]: they are distinct and none exceeds
    the counter, so the next identifier is fresh. *)
Definition connect_ids (cs : list callback_call) : list Z :=
  cc_identifier <$> filter (fun c => cc_connected c = 1%Z) cs.

Definition hist_ok (w : machine) : Prop :=
  NoDup (connect_ids (calls w)) /\ Forall (fun i => i <= last_id w)%Z (connect_ids (calls w)).

Lemma connect_ids_snoc cs c :
  connect_ids (cs ++ [c]) =
    connect_ids cs ++ (if decide (cc_connected c = 1%Z) then [cc_identifier c] else []).
Proof.
  unfold connect_ids. rewrite filter_app, fmap_app. f_equal.
  destruct (decide (cc_connected c = 1%Z)).
  - rewrite filter_cons_True by done. reflexivity.
  - rewrite filter_cons_False by done. reflexivity.
Qed.

Lemma hist_ok_mono w w' :
  hist_ok w -> connect_ids (calls w') = connect_ids (calls w) -> (last_id w <= last_id w')%Z ->
  hist_ok w'.
Proof.
  intros [Hnd Hb] Hc Hl. unfold hist_ok. rewrite Hc. split; [done|].
  eapply Forall_impl; [exact Hb|]. simpl. lia.
Qed.

Lemma hist_ok_connect w w' :
  hist_ok w -> connect_ids (calls w') = connect_ids (calls w) ++ [last_id w'] ->
  (last_id w < last_id w')%Z -> hist_ok w'.
Proof.
  intros [Hnd Hb] Hc Hl. unfold hist_ok. rewrite Hc. split.
  - apply NoDup_app. split; [done|split; [|apply NoDup_singleton]].
    intros x Hx ->%list_elem_of_singleton. rewrite Forall_forall in Hb. specialize (Hb _ Hx). lia.
  - apply Forall_app. split; [eapply Forall_impl; [exact Hb|]; simpl; lia | apply Forall_singleton; lia].
Qed.

Lemma notify_calls b identifier connected w w' :
  notify b identifier connected w = Ok (tt, w') ->
  last_id w' = last_id w /\ records w' = records w /\
  (calls w' = calls w \/
   exists c, calls w' = calls w ++ [c] /\ cc_identifier c = identifier /\ cc_connected c = connected).
Proof.
  unfold notify, invoke_callback. st_unfold.
  destruct (b && bool_decide (m_callback (dm w) <> 0%Z)); intros [= <-]; [|auto].
  split; [done|]. split; [done|]. right. by eexists.
Qed.

(** Connect notifications carry the identifier just drawn. *)
Lemma process_udev_monitor_event_hist w w' :
  hist_ok w -> process_udev_monitor_event w = Ok (tt, w') -> hist_ok w'.
Proof.
  intros Hh Hrun.
  destruct (process_udev_monitor_event_Ok _ _ Hrun)
    as [->|(h & u1 & _ & [(res & w4 & Hadd & Hn)|[(res & w5 & u6 & Hrem & _ & Hn)|(u6 & _ & ->)]])];
    [done| | |done].
  - assert (Hh1 : hist_ok (set_lib u1 w)) by exact Hh.
    apply add_device_to_records_inv in Hadd as (o & _ & _ & -> & ->).
    apply notify_calls in Hn as (Hl & _ & [Hc|(c & Hc & Hi & Hcon)]).
    + apply (hist_ok_mono _ _ Hh1); [rewrite Hc; reflexivity | rewrite Hl; unfold added, last_id; simpl; lia].
    + apply (hist_ok_connect _ _ Hh1).
      * rewrite Hc, connect_ids_snoc, Hcon, decide_True by done. rewrite Hi, Hl. reflexivity.
      * rewrite Hl. unfold added, last_id. simpl. lia.
  - assert (Hh5 : hist_ok w5).
    { apply remove_device_from_records_inv in Hrem as [[_ ->]|(pre & r & post & u' & _ & _ & _ & ->)];
        exact Hh. }
    apply notify_calls in Hn as (Hl & _ & [Hc|(c & Hc & _ & Hcon)]);
      apply (hist_ok_mono _ _ Hh5); [by rewrite Hc | by rewrite Hl | | by rewrite Hl].
    rewrite Hc, connect_ids_snoc, Hcon, decide_False by done. apply app_nil_r.
Qed.

Lemma process_udev_monitor_event_hist_preserves : preserves hist_ok process_udev_monitor_event.
Proof. intros w [] w'. apply process_udev_monitor_event_hist. Qed.

#[export] Hint Resolve process_udev_monitor_event_hist_preserves : preserves.
#[export] Hint Extern 1 (hist_ok (modify_dm (with_enable _) _)) => assumption : preserves.
#[export] Hint Extern 1 (hist_ok (close_fd _ _)) => assumption : preserves.
#[export] Hint Extern 1 (hist_ok (set_phase _ _)) => assumption : preserves.

Lemma monitor_select_hist i : preserves hist_ok (monitor_select i).
Proof. unfold monitor_select, process_control_event, disable_monitoring. solve_preserves. Qed.

#[export] Hint Resolve monitor_select_hist : preserves.

Lemma monitor_iteration_hist i : preserves hist_ok (monitor_iteration i).
Proof. unfold monitor_iteration. solve_preserves. Qed.

Lemma monitor_finish_hist : preserves hist_ok monitor_finish.
Proof. unfold monitor_finish. solve_preserves. Qed.

Lemma monitor_start_hist : preserves hist_ok monitor_start.
Proof. unfold monitor_start. solve_preserves. Qed.

Lemma mstep_hist w w' : hist_ok w -> mstep w w' -> hist_ok w'.
Proof.
  intros Hh Hs.
  destruct Hs as [w w' _ Hrun|w w' i _ Hrun|w w1 w' i _ Hrun Hfin|w _ _|w w' i _ Hrun
                 |w w1 w' i _ Hrun Hfin|w d].
  - exact (monitor_start_hist _ _ _ Hh Hrun).
  - exact (monitor_iteration_hist i _ _ _ Hh Hrun).
  - exact (monitor_finish_hist _ _ _ (monitor_iteration_hist i _ _ _ Hh Hrun) Hfin).
  - exact Hh.
  - exact (monitor_select_hist i _ _ _ Hh Hrun).
  - exact (monitor_finish_hist _ _ _ (monitor_select_hist i _ _ _ Hh Hrun) Hfin).
  - exact Hh.
Qed.

(** ** What the handlers leave alone

    The handlers touch the object, the libudev store and the call log;
    the descriptors closed so far and the monitor fd are the thread's
    entry and exit's business. *)
Definition fd_frame (cl : list Z) (fd : Z) (p : mon_phase) (w : machine) : Prop :=
  closed_fds w = cl /\ monitor_fd w = fd /\ m_monitor (dm w) = true /\ phase w = p.

Lemma on_udev_frame {A} (m : ST udev A) cl fd p : preserves (fd_frame cl fd p) (on_udev m).
Proof. intros w a w' Hf Hrun. by apply on_udev_Ok in Hrun as (u & _ & ->). Qed.

#[export] Hint Resolve on_udev_frame : preserves.
#[export] Hint Extern 1 (fd_frame _ _ _ _) => assumption : preserves.

(** Unfold a pass down to the monad's primitives, for frame properties
    that [solve_preserves] checks primitive by primitive. *)
Ltac unfold_handlers :=
  unfold monitor_select, process_control_event, disable_monitoring, process_udev_monitor_event,
    add_device_to_records, get_new_identifier, push_back_record, print_device_properties,
    remove_device_from_records, delete_record, set_records, notify, invoke_callback.

Lemma monitor_select_frame i cl fd p : preserves (fd_frame cl fd p) (monitor_select i).
Proof. unfold_handlers. solve_preserves. Qed.

#[export] Hint Resolve monitor_select_frame : preserves.

Lemma monitor_iteration_frame i cl fd p : preserves (fd_frame cl fd p) (monitor_iteration i).
Proof. unfold monitor_iteration. solve_preserves. Qed.

(** ** Progress of the loop

    The udev handler consumes exactly the event it receives. *)
Definition queue_is (q : list device_info) (w : machine) : Prop := u_queue (lib w) = q.

Lemma on_udev_queue {A} (m : ST udev A) q :
  preserves (fun u => u_queue u = q) m -> preserves (queue_is q) (on_udev m).
Proof.
  intros Hm w a w' Hq Hrun. apply on_udev_Ok in Hrun as (u & Hu & ->).
  exact (Hm _ _ _ Hq Hu).
Qed.

Lemma live_obj_queue h q : preserves (fun u => u_queue u = q) (live_obj h).
Proof. intros u o u' Hq Hrun. by apply live_obj_Ok in Hrun as [-> _]. Qed.

#[export] Hint Resolve live_obj_queue : preserves.

Lemma udev_reads_queue h key q :
  preserves (fun u => u_queue u = q) (udev_device_unref h) /\
  preserves (fun u => u_queue u = q) (udev_device_get_devnode h) /\
  preserves (fun u => u_queue u = q) (udev_device_get_action h) /\
  preserves (fun u => u_queue u = q) (udev_device_get_sysattr_value h key).
Proof.
  unfold udev_device_unref, udev_device_get_devnode, udev_device_get_action,
    udev_device_get_sysattr_value. repeat split; solve_preserves.
Qed.

Lemma handlers_keep_queue h q :
  preserves (queue_is q) (add_device_to_records h) /\
  preserves (queue_is q) (remove_device_from_records h) /\
  preserves (queue_is q) (on_udev (udev_device_unref h)) /\
  (forall b i c, preserves (queue_is q) (notify b i c)).
Proof.
  assert (Hu : forall h', preserves (queue_is q) (on_udev (udev_device_unref h')))
    by (intros h'; apply on_udev_queue, (udev_reads_queue h' "" q)).
  assert (Hd : forall h', preserves (queue_is q) (on_udev (udev_device_get_devnode h')))
    by (intros h'; apply on_udev_queue, (udev_reads_queue h' "" q)).
  unfold add_device_to_records, get_new_identifier, print_device_properties, push_back_record,
    remove_device_from_records, delete_record, set_records, notify, invoke_callback.
  split; [|split; [|split; [|intros b i c]]]; solve_preserves; auto.
Qed.

Lemma process_udev_monitor_event_queue w w' d q :
  u_queue (lib w) = d :: q -> process_udev_monitor_event w = Ok (tt, w') -> u_queue (lib w') = q.
Proof.
  intros Hq Hrun. unfold process_udev_monitor_event in Hrun.
  apply st_bind_Ok in Hrun as (dev & w1 & Hrecv & Hrun).
  unfold on_udev, udev_monitor_receive_device in Hrecv. rewrite Hq in Hrecv.
  injection Hrecv as <- <-. cbv beta iota in Hrun.
  destruct (handlers_keep_queue (u_next (lib w)) q) as (Ha & Hr & Hu & Hn).
  assert (Hg : preserves (queue_is q) (on_udev (udev_device_get_action (u_next (lib w)))))
    by apply on_udev_queue, (udev_reads_queue (u_next (lib w)) "" q).
  match type of Hrun with
  | ?m ?w1 = _ => assert (Hp : preserves (queue_is q) m) by solve_preserves;
                  exact (Hp w1 tt w' eq_refl Hrun)
  end.
Qed.

(** The loop's measure: pending events, plus one while monitoring is on. *)
Definition loop_measure (w : machine) : nat :=
  length (u_queue (lib w)) + (if m_enable_monitoring (dm w) then 1 else 0).

Lemma process_control_event_Ok w w' :
  pipe_write_open w = false -> process_control_event w = Ok (tt, w') ->
  w' = modify_dm (with_enable false) w.
Proof. intros Hp. unfold process_control_event. st_unfold. destruct w; simpl in *; subst. by intros [= <-]. Qed.

(** A pass that stays in the loop decreases the measure. *)
Lemma monitor_iteration_decreases w w' :
  monitor_iteration false w = Ok (LoopContinue, w') -> loop_measure w' < loop_measure w.
Proof.
  destruct w as [d u p cs fd cl ph]. unfold monitor_iteration. intros Hrun.
  apply st_bind_Ok in Hrun as (en & w1 & Hen & Hrun). apply st_gets_Ok in Hen as [-> ->].
  simpl in Hrun. destruct (m_enable_monitoring d) eqn:Hen; simpl in Hrun; [|discriminate].
  apply st_bind_Ok in Hrun as (sel & w2 & Hsel & Hrun). apply st_gets_Ok in Hsel as [-> ->].
  unfold select_fds in Hrun. simpl in Hrun.
  destruct p eqn:Hp, (bool_decide (u_queue u <> [])) eqn:Hq; simpl in Hrun; try discriminate;
    apply st_bind_Ok in Hrun as ([] & w3 & Hc & Hrun);
    apply st_bind_Ok in Hrun as ([] & w4 & Hu & Hrun); injection Hrun as <-;
    try (apply process_control_event_Ok in Hc as ->; [|done]);
    try (injection Hc as <-); try (injection Hu as <-).
  1,2: apply bool_decide_eq_true in Hq; destruct (u_queue u) as [|e q] eqn:Hqq; [done|];
    eapply process_udev_monitor_event_queue in Hu; [|exact Hqq];
    unfold loop_measure; rewrite Hu; simpl; rewrite Hqq, Hen; simpl;
    destruct (m_enable_monitoring (dm w4)); lia.
  unfold loop_measure. simpl. rewrite Hen. lia.
Qed.

(** Termination: with fuel above the measure, the loop never runs out of
    fuel; it blocks in [select] or leaves the loop. *)
Lemma monitor_loop_no_fuel_out fuel w st w' :
  loop_measure w < fuel -> monitor_loop fuel w = Ok (st, w') -> st <> LoopContinue.
Proof.
  revert w. induction fuel as [|n IH]; intros w Hlt Hrun; [lia|]. simpl in Hrun.
  apply st_bind_Ok in Hrun as (st1 & w1 & H1 & Hrun).
  destruct st1; cbv beta iota in Hrun.
  - apply (IH w1); [|done]. pose proof (monitor_iteration_decreases _ _ H1). lia.
  - by injection Hrun as <- _.
  - apply st_bind_Ok in Hrun as (? & ? & _ & Hrun). by injection Hrun as <- _.
Qed.

(** *** The loop returns

    What the kernel must deliver for the handlers never to fault: every
    queued event has an action and a devnode, every stored devnode is
    non-NULL, and the counter has room for one identifier per queued
    event. *)
Definition event_ok (d : device_info) : Prop := is_Some (di_action d) /\ is_Some (di_devnode d).

Definition loop_ok (w : machine) : Prop :=
  devnodes_set (records w) /\ Forall event_ok (u_queue (lib w)) /\
  (last_id w + Z.of_nat (length (u_queue (lib w))) <= INT_MAX)%Z.

Lemma notify_total b identifier connected w :
  exists cs, notify b identifier connected w = Ok (tt, set_calls cs w).
Proof.
  unfold notify, invoke_callback. st_unfold.
  destruct (b && bool_decide (m_callback (dm w) <> 0%Z)); eauto.
Qed.

(** The handler's effect on what [loop_ok] tracks, one event consumed. *)
Definition handled (w w' : machine) : Prop :=
  devnodes_set (records w') /\ (last_id w' <= last_id w + 1)%Z.

Lemma process_udev_monitor_event_total w d q :
  mon_inv w -> loop_ok w -> u_queue (lib w) = d :: q ->
  exists w', process_udev_monitor_event w = Ok (tt, w') /\ handled w w'.
Proof.
  intros [Hids Hown] (Hs & Hev & Hb) Hq. rewrite Hq in Hev, Hb. simpl in Hb.
  apply Forall_cons in Hev as [[[a Ha] [dn Hdn]] _].
  destruct (owns_receive _ _ _ _ Hown Hq) as [Hr Hown1].
  unfold process_udev_monitor_event. rewrite (st_bind_Ok_eq _ _ _ _ _ (on_udev_run _ _ _ _ Hr)).
  cbv beta iota. set (w1 := set_lib _ w).
  assert (Hb1 : (last_id w1 + 1 <= INT_MAX)%Z) by (change (last_id w1) with (last_id w); lia).
  assert (Hlive : u_objs (lib w1) !! u_next (lib w) = Some (mkObj d 1)) by apply lookup_insert_eq.
  rewrite (st_bind_Ok_eq _ _ _ _ _
    (on_udev_read _ _ _ _ (udev_device_get_action_live _ _ _ Hlive) eq_refl)).
  simpl (di_action _). rewrite Ha. unfold st_bind at 1, st_lift at 1, action_is at 1.
  destruct (bool_decide (strncmp a UDEV_ADD_EVENT (strlen UDEV_ADD_EVENT) = 0%Z)).
  - rewrite (st_bind_Ok_eq _ _ _ _ _ (add_device_to_records_ok w1 _ _ Hlive Hb1)).
    destruct (notify_total true (last_id w1 + 1) 1 (added w1 (u_next (lib w)) (di_devnode d)))
      as [cs Hn]. simpl in Hn |- *. eexists. split; [exact Hn|].
    unfold handled, devnodes_set, added, records, last_id, w1 in *. simpl. split; [|lia].
    apply Forall_app. split; [done|]. repeat constructor. simpl. rewrite Hdn. by eexists.
  - unfold st_bind at 1, st_lift at 1, action_is at 1.
    destruct (bool_decide (strncmp a UDEV_REMOVE_EVENT (strlen UDEV_REMOVE_EVENT) = 0%Z)).
    + destruct (remove_device_from_records_total _ w1 Hown1 Hs) as (res & w5 & Hrem & Hs5 & Hl5).
      rewrite (st_bind_Ok_eq _ _ _ _ _ Hrem).
      destruct (owns_release _ _ _ (owns_remove _ w1 _ _ Hown1 Hrem)) as [Hu _].
      rewrite (st_bind_Ok_eq _ _ _ _ _ (on_udev_run _ _ _ _ Hu)).
      destruct (notify_total res.1 res.2 0 (set_lib (set_objs (delete (u_next (lib w)) (u_objs (lib w5))) (lib w5)) w5)) as [cs Hn].
      eexists. split; [exact Hn|]. unfold handled, w1, records, last_id in *. simpl in *. split; [done|lia].
    + destruct (owns_release _ _ _ Hown1) as [Hu _].
      rewrite (on_udev_run _ w1 _ _ Hu). eexists. split; [reflexivity|].
      unfold handled, w1, records, last_id in *. simpl. split; [done|lia].
Qed.

Lemma process_udev_monitor_event_step w :
  mon_inv w -> loop_ok w -> u_queue (lib w) <> [] ->
  exists w', process_udev_monitor_event w = Ok (tt, w') /\ mon_inv w' /\ loop_ok w'.
Proof.
  intros Hinv Hok Hne. destruct (u_queue (lib w)) as [|d q] eqn:Hq; [done|].
  destruct (process_udev_monitor_event_total w d q Hinv Hok Hq) as (w' & Hrun & Hs & Hl).
  exists w'. split; [done|]. split; [exact (process_udev_monitor_event_inv _ _ Hinv Hrun)|].
  pose proof (process_udev_monitor_event_queue _ _ _ _ Hq Hrun) as Hq'.
  destruct Hok as (_ & Hev & Hb). rewrite Hq in Hev, Hb. simpl in Hb.
  apply Forall_cons in Hev as [_ Hev]. unfold loop_ok. rewrite Hq'. split; [done|]. split; [done|lia].
Qed.

Lemma loop_ok_modify_dm f w :
  m_device_records (f (dm w)) = m_device_records (dm w) ->
  m_last_used_identifier (f (dm w)) = m_last_used_identifier (dm w) ->
  loop_ok w -> loop_ok (modify_dm f w).
Proof. intros Hr Hl. unfold loop_ok, records, last_id. simpl. by rewrite Hr, Hl. Qed.

(** The second half of a pass: the udev socket's branch. *)
Lemma udev_branch_total (u : bool) w :
  mon_inv w -> loop_ok w -> (u = true -> u_queue (lib w) <> []) ->
  exists w', ((if u then process_udev_monitor_event else ret tt) ;; ret LoopContinue) w
             = Ok (LoopContinue, w') /\ mon_inv w' /\ loop_ok w'.
Proof.
  intros Hinv Hok Hu. destruct u.
  - destruct (process_udev_monitor_event_step w Hinv Hok (Hu eq_refl)) as (w' & Hrun & ?).
    exists w'. by rewrite (st_bind_Ok_eq _ _ _ _ _ Hrun).
  - by exists w.
Qed.

(** Every pass returns, and keeps what the handlers need. *)
Lemma monitor_iteration_total w :
  mon_inv w -> loop_ok w ->
  exists st w', monitor_iteration false w = Ok (st, w') /\ mon_inv w' /\ loop_ok w'.
Proof.
  intros Hinv Hok. assert (Hinv' := mon_inv_modify_dm (with_enable false) w eq_refl eq_refl Hinv).
  assert (Hok' := loop_ok_modify_dm (with_enable false) w eq_refl eq_refl Hok).
  revert Hinv Hok Hinv' Hok'. destruct w as [d u p cs fd cl ph]. intros Hinv Hok Hinv' Hok'.
  unfold monitor_iteration, st_bind at 1, st_gets at 1. cbv beta iota.
  cbn [dm lib pipe_write_open]. destruct (m_enable_monitoring d); [|exists LoopExit; eexists; split; [reflexivity|done]]. cbn - [process_udev_monitor_event].
  unfold select_fds. destruct p eqn:Hp, (bool_decide (u_queue u <> [])) eqn:Hq;
    apply bool_decide_eq_true in Hq || apply bool_decide_eq_false in Hq; cbn - [process_udev_monitor_event];
    [| exists LoopBlocked; eexists; split; [reflexivity|done] | |].
  - destruct (udev_branch_total true _ Hinv Hok (fun _ => Hq)) as (w' & Hrun & ?). eauto.
  - unfold process_control_event, st_bind at 1, st_gets at 1. cbn - [process_udev_monitor_event].
    destruct (udev_branch_total true _ Hinv' Hok' (fun _ => Hq))
      as (w' & Hrun & ?). eauto.
  - unfold process_control_event, st_bind at 1, st_gets at 1. cbn - [process_udev_monitor_event].
    destruct (udev_branch_total false _ Hinv' Hok' (fun H => ltac:(done)))
      as (w' & Hrun & ?). eauto.
Qed.

(** ** Behaviour of the loop *)

(** Every state the thread and the kernel can reach from one satisfying
    the invariant satisfies it. *)
Theorem reachable_mon_inv w0 w : mon_inv w0 -> reachable w0 w -> mon_inv w.
Proof. intros H0 Hr. induction Hr as [|w w' _ IH Hs]; [done | exact (mstep_inv _ _ IH Hs)]. Qed.

Definition finished (w : machine) : machine :=
  set_phase MonStopped (close_fd (monitor_fd w) w).

Lemma monitor_finish_ok w : monitor_finish w = Ok (tt, finished w).
Proof. reflexivity. Qed.

(** C15: Shutdown: once the write end of the control pipe is closed and no
    event is pending, the loop leaves within two passes, closes the
    monitor fd and the thread ends. *)
Theorem monitor_stops_on_eof w :
  m_enable_monitoring (dm w) = true -> pipe_write_open w = false -> u_queue (lib w) = [] ->
  monitor_loop 2 w = Ok (LoopExit, finished (modify_dm (with_enable false) w)).
Proof.
  destruct w as [[recs cb cbd ctx last en thr mon pipe] [objs nxt q] p cs fd cl ph].
  simpl. intros -> -> ->. reflexivity.
Qed.

(** C17: Tie-break: when the pipe has reached end of file and an event is
    pending, one pass handles the control fd first and then still
    processes that event. *)
Theorem monitor_iteration_control_first w :
  m_enable_monitoring (dm w) = true -> pipe_write_open w = false -> u_queue (lib w) <> [] ->
  monitor_iteration false w =
    (process_udev_monitor_event ;; ret LoopContinue) (modify_dm (with_enable false) w).
Proof.
  destruct w as [[recs cb cbd ctx last en thr mon pipe] [objs nxt q] p cs fd cl ph].
  simpl. intros -> -> Hq. destruct q as [|e q]; [done|]. reflexivity.
Qed.

(** C16: A signal interrupting [select] ends monitoring for good: the pass
    clears [m_enable_monitoring] although no shutdown was requested, and
    the next pass leaves the loop. *)
Theorem monitor_signal_stops w b :
  m_enable_monitoring (dm w) = true ->
  monitor_iteration true w = Ok (LoopContinue, modify_dm (with_enable false) w) /\
  monitor_iteration b (modify_dm (with_enable false) w) = Ok (LoopExit, modify_dm (with_enable false) w).
Proof.
  destruct w as [[recs cb cbd ctx last en thr mon pipe] u p cs fd cl ph].
  simpl. intros ->. split; reflexivity.
Qed.

(** The loop, run with more fuel than its measure, returns without a
    fault and without running out of fuel. *)
Lemma monitor_loop_total fuel w :
  mon_inv w -> loop_ok w -> loop_measure w < fuel ->
  exists st w', monitor_loop fuel w = Ok (st, w') /\ st <> LoopContinue /\ mon_inv w'.
Proof.
  revert w. induction fuel as [|n IH]; intros w Hinv Hok Hlt; [lia|]. simpl.
  destruct (monitor_iteration_total w Hinv Hok) as (st & w1 & Hit & Hinv1 & Hok1).
  rewrite (st_bind_Ok_eq _ _ _ _ _ Hit). destruct st.
  - apply (IH w1 Hinv1 Hok1). pose proof (monitor_iteration_decreases _ _ Hit). lia.
  - by exists LoopBlocked, w1.
  - exists LoopExit, (finished w1). split; [reflexivity|]. split; [done|].
    exact (monitor_finish_preserves _ _ _ Hinv1 (monitor_finish_ok w1)).
Qed.

(** C3: Termination, total: the monitor thread's body
    [monitor_for_changes], started from a state where the invariant holds
    and the kernel's events are well formed, and run with more fuel than
    the loop's measure, returns without a fault, and it returns because
    the monitor fd was invalid, [select] blocks or the loop is left,
    never because the fuel ran out. *)
Theorem monitor_loop_terminates fuel w :
  mon_inv w -> loop_ok w -> loop_measure w < fuel ->
  exists st w', monitor_for_changes fuel w = Ok (st, w') /\ st <> LoopContinue /\ mon_inv w'.
Proof.
  intros Hinv Hok Hlt. unfold monitor_for_changes, monitor_start, st_bind at 1 2, st_gets at 1.
  destruct (decide (monitor_fd w <= 0)%Z); cbn -[monitor_loop].
  - exists LoopExit, (set_phase MonStopped w). split; [done|]. split; [done|]. by destruct w.
  - apply monitor_loop_total; destruct w; done.
Qed.

End Monitor.
