(* ===== verification/Api.v ===== *)
(** * The public facade

    The methods of [device_manager] called by the C API, and the API
    itself ([src/src/usbctrl.cpp]): [enumerate_connected_devices]
    (377-422), [init] (205-211), [term] (213-224), [register_callback]
    (260-277) and [rusbCtrl_init], [rusbCtrl_term],
    [rusbCtrl_registerCallback], [rusbCtrl_getProperty] (540-558). Each
    method that takes [m_mutex] is one atomic step on the machine.

    What libudev's enumeration reports is an input: whether
    [udev_enumerate_new], [udev_enumerate_add_match_property] and
    [udev_enumerate_scan_devices] succeed, and for each listed syspath the
    device [udev_device_new_from_syspath] finds (or NULL).

    [sstep] is the whole process: the monitor thread's and the kernel's
    steps interleaved with [init], [term] and [register_callback]. The
    theorems: enumeration's numbering, [init]'s lost failure, [term]'s
    effect, the registration snapshot, and the registry invariant and the
    distinctness of notified identifiers in every reachable state. *)

From S2P Require Import Prelude CString Platform State Registry Property Monitor.

Module Api.
Import CString Udev State Registry Property Monitor.
Local Open Scope st_scope.

(** [rusbCtrl_result_t]. *)
Inductive rusbCtrl_result_t := RUSBCTRL_SUCCESS | RUSBCTRL_FAILURE.

#[export] Instance rusbCtrl_result_eq_dec : EqDecision rusbCtrl_result_t.
Proof. solve_decision. Defined.

Record enum_env := mkEnum {
  en_new_ok : bool;                        (** [udev_enumerate_new] is non-NULL *)
  en_match_ok : bool;                      (** [udev_enumerate_add_match_property] returns 0 *)
  en_scan_ok : bool;                       (** [udev_enumerate_scan_devices] returns 0 *)
  en_devices : list (option device_info)   (** one entry per listed syspath *)
}.

(** The body of [udev_list_entry_foreach]. *)
Definition add_enumerated (d : option device_info) : ST machine unit :=
  device <- on_udev (udev_device_new_from_syspath d) ;;
  match device with
  | None => ret tt
  | Some h => _ <- add_device_to_records h ;; ret tt
  end.

(** [rusbCtrl_result_t enumerate_connected_devices()]: the records are
    reset before the enumerator is even created. *)
Definition enumerate_connected_devices (env : enum_env) : ST machine rusbCtrl_result_t :=
  reset_device_records ;;
  if negb (en_new_ok env) then ret RUSBCTRL_FAILURE
  else if negb (en_match_ok env) then ret RUSBCTRL_FAILURE
  else if negb (en_scan_ok env) then ret RUSBCTRL_FAILURE
  else st_iter add_enumerated (en_devices env) ;; ret RUSBCTRL_SUCCESS.

(** [rusbCtrl_result_t init()]: the enumeration's result is dropped. *)
Definition init (env : enum_env) : ST machine rusbCtrl_result_t :=
  _ <- enumerate_connected_devices env ;; ret RUSBCTRL_SUCCESS.

(** [rusbCtrl_result_t term()]. *)
Definition term : ST machine rusbCtrl_result_t :=
  reset_device_records ;;
  st_modify (modify_dm (with_callback 0 0)) ;;
  ret RUSBCTRL_SUCCESS.

(** [int register_callback(callback, callback_data, device_list, device_list_size)]:
    [out_ptrs] tells whether both out pointers are non-NULL; the second
    result is what is written through them. *)
Definition register_callback (callback callback_data : Z) (out_ptrs : bool)
  : ST machine (rusbCtrl_result_t * option (Z * option (list Z))) :=
  st_modify (modify_dm (with_callback callback callback_data)) ;;
  if out_ptrs then
    l <- get_connected_devices_list ;; ret (RUSBCTRL_SUCCESS, Some l)
  else ret (RUSBCTRL_SUCCESS, None).

Definition rusbCtrl_init (env : enum_env) : ST machine rusbCtrl_result_t := init env.
Definition rusbCtrl_term : ST machine rusbCtrl_result_t := term.
Definition rusbCtrl_registerCallback (cb cbData : Z) (out_ptrs : bool) :=
  register_callback cb cbData out_ptrs.
Definition rusbCtrl_getProperty (devId : Z) (propertyName : string) : ST machine (option buffer) :=
  get_property devId propertyName.

(** ** Lemmas *)

Lemma reset_device_records_preserves : preserves mon_inv reset_device_records.
Proof.
  intros w [] w' [Hids Hown] Hrun.
  destruct (decide (records w = [])) as [He|Hne].
  - rewrite reset_device_records_empty in Hrun by done. by injection Hrun as <-.
  - rewrite reset_device_records_ok in Hrun by done. injection Hrun as <-.
    destruct Hids as (_ & _ & Hl). split.
    + split; [constructor | split; [constructor | done]].
    + split; [|constructor]. split; [constructor|]. split; [done|].
      split; [apply map_Forall_empty|]. intros h Hh. simpl in Hh. set_solver.
Qed.

(** The udev object created for a listed device, and the machine after
    it is added. *)
Definition new_udev (d : device_info) (u : udev) : udev :=
  mkUdev (<[u_next u := mkObj d 1]> (u_objs u)) (Pos.succ (u_next u)) (u_queue u).

Lemma add_enumerated_some w d :
  (last_id w + 1 <= INT_MAX)%Z ->
  add_enumerated (Some d) w =
    Ok (tt, added (set_lib (new_udev d (lib w)) w) (u_next (lib w)) (di_devnode d)).
Proof.
  intros Hb. unfold add_enumerated, udev_device_new_from_syspath, st_bind.
  rewrite (on_udev_run _ _ (Some (u_next (lib w))) (new_udev d (lib w))) by reflexivity.
  rewrite (add_device_to_records_ok (set_lib (new_udev d (lib w)) w) _ (mkObj d 1));
    [reflexivity | apply lookup_insert_eq | exact Hb].
Qed.

Lemma add_enumerated_preserves d : preserves mon_inv (add_enumerated d).
Proof.
  intros w [] w' [Hids Hown] Hrun. destruct d as [d|].
  - destruct (decide (last_id w + 1 <= INT_MAX)%Z) as [Hb|Hb].
    + rewrite add_enumerated_some in Hrun by done. injection Hrun as <-. split.
      * by apply ids_ok_added.
      * apply (owns_added (set_lib (new_udev d (lib w)) w) _ (mkObj d 1));
          [by apply owns_new | apply lookup_insert_eq].
    + unfold add_enumerated, udev_device_new_from_syspath, add_device_to_records,
        get_new_identifier in Hrun. st_unfold. cbn in Hrun.
      rewrite decide_False in Hrun by (unfold last_id in Hb; exact Hb). discriminate.
  - unfold add_enumerated, udev_device_new_from_syspath in Hrun. st_unfold.
    injection Hrun as <-. by split.
Qed.

#[export] Hint Resolve reset_device_records_preserves add_enumerated_preserves : preserves.

(** Consecutive identifiers from [start]. *)
Fixpoint id_range (start : Z) (n : nat) : list Z :=
  match n with
  | O => []
  | S n' => start :: id_range (start + 1) n'
  end.

(** The devices that [udev_device_new_from_syspath] found. *)
Definition found_devices (ds : list (option device_info)) : list device_info := omap id ds.

Lemma iter_add_enumerated ds w :
  (last_id w + Z.of_nat (length (found_devices ds)) <= INT_MAX)%Z ->
  exists w', st_iter add_enumerated ds w = Ok (tt, w') /\
    ids (records w') = ids (records w) ++ id_range (last_id w + 1) (length (found_devices ds)) /\
    m_devnode <$> records w' = (m_devnode <$> records w) ++ (di_devnode <$> found_devices ds) /\
    last_id w' = (last_id w + Z.of_nat (length (found_devices ds)))%Z.
Proof.
  revert w. induction ds as [|[d|] ds IH]; intros w Hb; simpl in *.
  - exists w. rewrite !app_nil_r. split; [done|]. split; [done|]. split; [done|]. lia.
  - rewrite (st_bind_Ok_eq _ _ _ _ _ (add_enumerated_some w d ltac:(lia))).
    set (w1 := added _ _ _).
    destruct (IH w1) as (w' & Hrun & Hids & Hdn & Hl); [unfold w1, added, last_id in *; simpl; lia|].
    exists w'. split; [exact Hrun|].
    unfold w1, added, ids, records, last_id in *; simpl in *.
    rewrite Hids, Hdn, Hl, !fmap_app, <- !app_assoc. split; [done|]. split; [done|]. lia.
  - rewrite (st_bind_Ok_eq _ _ _ tt w); [|reflexivity]. exact (IH w Hb).
Qed.

(** ** The whole process

    The monitor thread's transitions and the kernel's, interleaved with
    the API calls that take [m_mutex] and so run as one atomic step:
    [init] (its enumeration holds the lock throughout), [term] and
    [register_callback]. [get_property] changes nothing but the returned
    buffer; it does not take the lock, which the Concurrency file models. *)
Inductive sstep : machine -> machine -> Prop :=
  | ss_monitor w w' : mstep w w' -> sstep w w'
  | ss_init env w r w' : init env w = Ok (r, w') -> sstep w w'
  | ss_term w r w' : term w = Ok (r, w') -> sstep w w'
  | ss_register cb data out_ptrs w r w' :
      register_callback cb data out_ptrs w = Ok (r, w') -> sstep w w'.

Inductive sreachable (w0 : machine) : machine -> Prop :=
  | sreach_init : sreachable w0 w0
  | sreach_step w w' : sreachable w0 w -> sstep w w' -> sreachable w0 w'.

Lemma on_udev_hist {A} (m : ST udev A) : preserves hist_ok (on_udev m).
Proof. intros w a w' Hh Hrun. by apply on_udev_Ok in Hrun as (u & _ & ->). Qed.

Lemma add_device_to_records_hist h : preserves hist_ok (add_device_to_records h).
Proof.
  intros w res w' Hh Hrun. apply add_device_to_records_inv in Hrun as (o & _ & _ & _ & ->).
  apply (hist_ok_mono _ _ Hh); [reflexivity | unfold added, last_id; simpl; lia].
Qed.

#[export] Hint Resolve on_udev_hist add_device_to_records_hist : preserves.
#[export] Hint Extern 1 (hist_ok (modify_dm _ _)) => assumption : preserves.

Lemma enumerate_connected_devices_hist env : preserves hist_ok (enumerate_connected_devices env).
Proof.
  unfold enumerate_connected_devices, reset_device_records, delete_record, set_records.
  unfold add_enumerated. solve_preserves.
Qed.

Lemma api_step_hist w w' : hist_ok w -> sstep w w' -> hist_ok w'.
Proof.
  intros Hh Hs. destruct Hs as [w w' Hm|env w r w' Hrun|w r w' Hrun|cb data o w r w' Hrun].
  - exact (mstep_hist _ _ Hh Hm).
  - assert (Hp : preserves hist_ok (init env)).
    { unfold init. apply preserves_bind; [apply enumerate_connected_devices_hist | solve_preserves]. }
    exact (Hp _ _ _ Hh Hrun).
  - assert (Hp : preserves hist_ok term)
      by (unfold term, reset_device_records, delete_record, set_records; solve_preserves).
    exact (Hp _ _ _ Hh Hrun).
  - assert (Hp : preserves hist_ok (register_callback cb data o))
      by (unfold register_callback, get_connected_devices_list; solve_preserves).
    exact (Hp _ _ _ Hh Hrun).
Qed.

(** ** Theorems *)

(** C18: Enumeration with a working enumerator replaces the registry by the
    devices found, in the order libudev lists them, numbered on from the
    counter: after a fresh start, 1, 2, ... *)
Theorem enumerate_connected_devices_ids env w :
  owns (records w) [] (lib w) ->
  en_new_ok env = true -> en_match_ok env = true -> en_scan_ok env = true ->
  (last_id w + Z.of_nat (length (found_devices (en_devices env))) <= INT_MAX)%Z ->
  exists w', enumerate_connected_devices env w = Ok (RUSBCTRL_SUCCESS, w') /\
    ids (records w') = id_range (last_id w + 1) (length (found_devices (en_devices env))) /\
    m_devnode <$> records w' = di_devnode <$> found_devices (en_devices env).
Proof.
  intros Hown Hn Hm Hs Hb.
  destruct (reset_device_records_releases_all w Hown) as (w1 & Hr & Hrec & _ & Hl & _).
  destruct (iter_add_enumerated (en_devices env) w1) as (w' & Hit & Hids & Hdn & _);
    [by rewrite Hl|].
  exists w'. unfold enumerate_connected_devices. rewrite (st_bind_Ok_eq _ _ _ _ _ Hr).
  rewrite Hn, Hm, Hs. simpl. rewrite (st_bind_Ok_eq _ _ _ _ _ Hit).
  rewrite Hrec, Hl in *. by split.
Qed.

(** C19: [init] reports success whatever enumeration did: when libudev cannot
    create the enumerator, the registry has already been emptied,
    enumeration fails, and [init] still returns [RUSBCTRL_SUCCESS]. *)
Theorem init_hides_enumeration_failure env w :
  owns (records w) [] (lib w) -> en_new_ok env = false ->
  exists w', enumerate_connected_devices env w = Ok (RUSBCTRL_FAILURE, w') /\
             init env w = Ok (RUSBCTRL_SUCCESS, w') /\ records w' = [].
Proof.
  intros Hown Hn.
  destruct (reset_device_records_releases_all w Hown) as (w1 & Hr & Hrec & _).
  assert (He : enumerate_connected_devices env w = Ok (RUSBCTRL_FAILURE, w1)).
  { unfold enumerate_connected_devices. rewrite (st_bind_Ok_eq _ _ _ _ _ Hr), Hn. reflexivity. }
  exists w1. split; [done|]. split; [|done]. unfold init. by rewrite (st_bind_Ok_eq _ _ _ _ _ He).
Qed.

(** C20: [term] releases every device, empties the registry and clears the
    callback, and keeps the identifier counter. *)
Theorem term_clears w :
  owns (records w) [] (lib w) ->
  exists w', term w = Ok (RUSBCTRL_SUCCESS, w') /\ records w' = [] /\
             u_objs (lib w') = ∅ /\ m_callback (dm w') = 0%Z /\ m_callback_data (dm w') = 0%Z /\
             last_id w' = last_id w.
Proof.
  intros Hown. destruct (reset_device_records_releases_all w Hown) as (w1 & Hr & Hrec & Ho & Hl & _).
  exists (modify_dm (with_callback 0 0) w1). unfold term.
  rewrite (st_bind_Ok_eq _ _ _ _ _ Hr). by split.
Qed.

(** C21: [register_callback] installs the callback and, in the same step,
    hands out the identifiers present; with an empty registry it writes
    the size 0 and leaves [*device_list] unwritten. *)
Theorem register_callback_snapshot cb data w :
  exists w', register_callback cb data true w =
      Ok (RUSBCTRL_SUCCESS,
          Some (if decide (records w = []) then (0%Z, None)
                else (Z.of_nat (length (records w)), Some (ids (records w)))), w') /\
    m_callback (dm w') = cb /\ m_callback_data (dm w') = data /\
    records w' = records w /\ lib w' = lib w.
Proof.
  unfold register_callback, st_bind, st_modify, st_ret. cbv beta iota.
  rewrite get_connected_devices_list_spec. eexists. split; [reflexivity|].
  destruct w as [[recs cb' cbd ctx last en thr mon pipe] u p cs fd cl ph]. by cbn.
Qed.

(** Enumeration keeps the registry invariant. *)
Lemma enumerate_connected_devices_preserves env : preserves mon_inv (enumerate_connected_devices env).
Proof. unfold enumerate_connected_devices. solve_preserves. Qed.

Lemma api_step_inv w w' : mon_inv w -> sstep w w' -> mon_inv w'.
Proof.
  intros Hi Hs. destruct Hs as [w w' Hm|env w r w' Hrun|w r w' Hrun|cb data o w r w' Hrun].
  - exact (mstep_inv _ _ Hi Hm).
  - assert (Hp : preserves mon_inv (init env)).
    { unfold init. apply preserves_bind; [apply enumerate_connected_devices_preserves | solve_preserves]. }
    exact (Hp _ _ _ Hi Hrun).
  - assert (Hp : preserves mon_inv term) by (unfold term; solve_preserves).
    exact (Hp _ _ _ Hi Hrun).
  - assert (Hp : preserves mon_inv (register_callback cb data o))
      by (unfold register_callback, get_connected_devices_list; solve_preserves).
    exact (Hp _ _ _ Hi Hrun).
Qed.

(** C1: The registry invariant holds in every state the process reaches: the
    monitor thread, the kernel and any sequence of [init], [term] and
    [register_callback] calls keep identifiers distinct and bounded, and
    keep every live udev object owned by exactly one record. *)
Theorem system_mon_inv w0 w : mon_inv w0 -> sreachable w0 w -> mon_inv w.
Proof. intros H0 Hr. induction Hr as [|w w' _ IH Hs]; [done | exact (api_step_inv _ _ IH Hs)]. Qed.

(** C2: Identifiers are never reused: across any interleaving of device
    events, re-enumerations, [term] and registrations, the identifiers
    of the connect notifications are pairwise distinct. *)
Theorem system_connect_ids_distinct w0 w :
  hist_ok w0 -> sreachable w0 w -> NoDup (connect_ids (calls w)).
Proof.
  intros H0 Hr. assert (hist_ok w) as [Hnd _]; [|exact Hnd].
  induction Hr as [|w w' _ IH Hs]; [done | exact (api_step_hist _ _ IH Hs)].
Qed.

End Api.
