(* ===== verification/Lifecycle.v ===== *)
(** * Construction and destruction of the device manager

    [static device_manager manager;] ([src/src/usbctrl.cpp] line 539) is
    built before [main] and destroyed at exit. Its constructor (108-162)
    opens a libudev context and monitor, creates the control pipe and
    launches the monitor thread, each step allowed to fail; its
    destructor (164-199) clears [m_enable_monitoring], closes the pipe's
    write end so the thread's [select] returns, joins the thread, closes
    the read end, releases the records and unrefs the monitor.

    What libudev, [pipe] and [pthread_create] return is an input
    ([ctor_env]). The destructor is two steps, [dtor_signal] and
    [dtor_finish], with the monitor thread's own steps ([mstep]) in
    between: [pthread_join] returns once the thread is [MonStopped].

    The theorems: after [dtor_signal] the thread reaches its end by its
    own steps ([quiet_step]: no signal, no new kernel event) from any
    phase, so the join returns; and the monitor's socket
    is closed twice, once by the thread ([close(monitor_fd)], line 338)
    and once by [udev_monitor_unref] (line 192). *)

From S2P Require Import Prelude Platform State Registry Monitor.

Module Lifecycle.
Import Udev State Registry Monitor.
Local Open Scope st_scope.

(** What the constructor's calls return. *)
Record ctor_env := mkCtorEnv {
  ce_udev_new : bool;          (** [udev_new()] is non-NULL *)
  ce_monitor_new : bool;       (** [udev_monitor_new_from_netlink] is non-NULL for a context *)
  ce_filter_ok : bool;         (** [udev_monitor_filter_add_match_subsystem_devtype] returns 0 *)
  ce_receiving_ok : bool;      (** [udev_monitor_enable_receiving] returns 0 *)
  ce_pipe : option (Z * Z);    (** the fds [pipe] creates, [None] when it fails *)
  ce_thread : Z;               (** the id [pthread_create] stores, 0 when it fails *)
  ce_monitor_fd : Z            (** what [udev_monitor_get_fd] will return *)
}.

(** [device_manager()]. Static storage is zero before the constructor;
    the initialiser list sets the flag, callback, counter and thread id;
    the body sets the context, then [m_enable_monitoring = true] before
    the monitor is even created. A failed step leaves the rest unset. *)
Definition device_manager_ctor (env : ctor_env) : machine :=
  let ctx := ce_udev_new env in
  let mon := ctx && ce_monitor_new env in
  let unlaunched := mkMachine (mkDM [] 0 0 ctx 0 true 0 mon (0, 0)%Z) (mkUdev ∅ 1 []) false []
                              (ce_monitor_fd env) [] MonStopped in
  if negb mon then unlaunched
  else if negb (ce_filter_ok env) then unlaunched
  else if negb (ce_receiving_ok env) then unlaunched
  else match ce_pipe env with
       | None => unlaunched
       | Some fds =>
           mkMachine (mkDM [] 0 0 ctx 0 true (ce_thread env) mon fds) (mkUdev ∅ 1 []) true []
                     (ce_monitor_fd env) []
                     (if decide (ce_thread env = 0%Z) then MonStopped else MonStarting)
       end.

(** [close(fd)] on the pipe's write end. *)
Definition close_write_end (fd : Z) (w : machine) : machine :=
  close_fd fd (set_pipe_write_open false w).

(** Lines 166-173: clear the flag, close the write end if there is one. *)
Definition dtor_signal : ST machine unit :=
  st_modify (modify_dm (with_enable false)) ;;
  wfd <- st_gets (fun w => (m_control_pipe (dm w)).2) ;;
  if decide (wfd <> 0%Z) then st_modify (close_write_end wfd) else ret tt.

(** [pthread_join] returns: there is no thread, or it has returned. *)
Definition joined (w : machine) : bool :=
  bool_decide (m_monitor_thread (dm w) = 0%Z) || bool_decide (phase w = MonStopped).

(** [udev_monitor_unref] drops the last reference: libudev closes the
    monitor's socket, the fd [udev_monitor_get_fd] returned. *)
Definition udev_monitor_unref : ST machine unit :=
  fd <- st_gets monitor_fd ;;
  st_modify (close_fd fd).

(** Lines 182-197, after the join. *)
Definition dtor_finish : ST machine unit :=
  rfd <- st_gets (fun w => (m_control_pipe (dm w)).1) ;;
  (if decide (rfd <> 0%Z) then st_modify (close_fd rfd) else ret tt) ;;
  reset_device_records ;;
  mon <- st_gets (fun w => m_monitor (dm w)) ;;
  if mon then udev_monitor_unref else ret tt.

(** How often [fd] was passed to [close]. *)
Definition count_fd (fd : Z) (l : list Z) : nat := length (filter (fun x => x = fd) l).

(** The thread's own steps when no signal interrupts [select] and the
    kernel queues no new event: the steps [pthread_join] waits for,
    without the help of a signal. *)
Inductive quiet_step : machine -> machine -> Prop :=
  | qs_start w w' :
      phase w = MonStarting -> monitor_start w = Ok (tt, w') -> quiet_step w w'
  | qs_pass w w' :
      phase w = MonRunning -> monitor_iteration false w = Ok (LoopContinue, w') -> quiet_step w w'
  | qs_exit w w1 w' :
      phase w = MonRunning -> monitor_iteration false w = Ok (LoopExit, w1) ->
      monitor_finish w1 = Ok (tt, w') -> quiet_step w w'
  | qs_block w :
      phase w = MonRunning ->
      monitor_iteration false w = Ok (LoopBlocked, w) -> quiet_step w (set_phase MonWaiting w)
  | qs_wake w w' :
      phase w = MonWaiting ->
      monitor_select false w = Ok (LoopContinue, w') -> quiet_step w (set_phase MonRunning w')
  | qs_wake_exit w w1 w' :
      phase w = MonWaiting -> monitor_select false w = Ok (LoopExit, w1) ->
      monitor_finish w1 = Ok (tt, w') -> quiet_step w w'.

(** ** Lemmas *)

(** Quiet steps are steps of the thread. *)
Lemma quiet_mstep w w' : quiet_step w w' -> mstep w w'.
Proof.
  destruct 1; [eapply ms_start | eapply ms_pass | eapply ms_exit | eapply ms_block | eapply ms_wake
              | eapply ms_wake_exit]; eauto.
Qed.


Lemma count_fd_app fd l1 l2 : count_fd fd (l1 ++ l2) = count_fd fd l1 + count_fd fd l2.
Proof. unfold count_fd. by rewrite filter_app, length_app. Qed.

Lemma count_fd_self fd : count_fd fd [fd] = 1.
Proof. unfold count_fd. rewrite filter_cons_True by done. reflexivity. Qed.

Lemma on_udev_enable {A} (m : ST udev A) b :
  preserves (fun w => m_enable_monitoring (dm w) = b) (on_udev m).
Proof. intros w a w' Hf Hrun. by apply on_udev_Ok in Hrun as (u & _ & ->). Qed.

#[local] Hint Resolve on_udev_enable : preserves.
#[local] Hint Extern 1 (m_enable_monitoring (dm _) = _) => assumption : preserves.

(** The udev handler never touches [m_enable_monitoring]. *)
Lemma process_udev_monitor_event_enable b :
  preserves (fun w => m_enable_monitoring (dm w) = b) process_udev_monitor_event.
Proof. unfold_handlers. solve_preserves. Qed.

(** At the top of the loop with the flag cleared, the thread leaves. *)
Lemma running_exit w :
  phase w = MonRunning -> m_enable_monitoring (dm w) = false -> quiet_step w (finished w).
Proof.
  intros Hp He. apply (qs_exit w w (finished w) Hp); [|apply monitor_finish_ok].
  destruct w as [[recs cb cbd ctx last en thr mon pipe] u p cs fd cl ph].
  simpl in He. subst en. reflexivity.
Qed.

(** Blocked in [select] when the write end is closed: [select] returns
    with the control fd readable, the pass handles it (and a pending
    event), and the flag is still clear. *)
Lemma select_after_signal w :
  pipe_write_open w = false -> m_enable_monitoring (dm w) = false -> mon_inv w -> loop_ok w ->
  exists w', monitor_select false w = Ok (LoopContinue, w') /\ m_enable_monitoring (dm w') = false.
Proof.
  intros Hp He Hinv Hok.
  assert (Hinv' := mon_inv_modify_dm (with_enable false) w eq_refl eq_refl Hinv).
  assert (Hok' := loop_ok_modify_dm (with_enable false) w eq_refl eq_refl Hok).
  revert Hp He Hinv Hok Hinv' Hok'. destruct w as [d u p cs fd cl ph]. simpl.
  intros -> He Hinv Hok Hinv' Hok'.
  unfold monitor_select, st_bind at 1, st_gets at 1, select_fds. cbn [negb orb pipe_write_open lib].
  destruct (bool_decide (u_queue u <> [])) eqn:Hq;
    [apply bool_decide_eq_true in Hq | apply bool_decide_eq_false in Hq];
    cbn - [process_udev_monitor_event];
    unfold process_control_event, st_bind at 1, st_gets at 1; cbn - [process_udev_monitor_event].
  - destruct (udev_branch_total true _ Hinv' Hok' (fun _ => Hq)) as (w' & Hrun & _).
    exists w'. split; [exact Hrun|].
    apply st_bind_Ok in Hrun as ([] & w1 & Hrun & Hret). injection Hret as <-.
    eapply (process_udev_monitor_event_enable false); [|exact Hrun]. reflexivity.
  - by eexists.
Qed.

Lemma monitor_start_run w :
  monitor_start w = Ok (tt, set_phase (if decide (monitor_fd w <= 0)%Z then MonStopped else MonRunning) w).
Proof. unfold monitor_start. st_unfold. destruct (decide (monitor_fd w <= 0)%Z); reflexivity. Qed.

Lemma dtor_signal_run w :
  (m_control_pipe (dm w)).2 <> 0%Z ->
  dtor_signal w = Ok (tt, close_write_end (m_control_pipe (dm w)).2 (modify_dm (with_enable false) w)).
Proof.
  destruct w as [[recs cb cbd ctx last en thr mon [rfd wfd]] u p cs fd cl ph]. simpl. intros Hw.
  unfold dtor_signal. st_unfold. simpl. by rewrite decide_True.
Qed.

(** The thread at the top of its loop after the signal, then its end. *)
Lemma running_after_signal w :
  phase w = MonRunning -> m_enable_monitoring (dm w) = false ->
  exists w', rtc quiet_step w w' /\ phase w' = MonStopped.
Proof. intros Hp He. exists (finished w). split; [apply rtc_once, running_exit | ]; done. Qed.

(** ** The destructor's join returns *)

(** C9: After [dtor_signal], whatever phase the thread is in (not yet
    started, at the top of its loop, or blocked in [select]), the
    thread's own steps bring it to its end with no signal and no new
    kernel event, so [pthread_join] returns: closing the write end makes
    the blocked [select] return, and the cleared flag ends the loop. *)
Theorem dtor_join_returns w w1 :
  mon_inv w -> loop_ok w -> phase w <> MonStopped -> (m_control_pipe (dm w)).2 <> 0%Z ->
  dtor_signal w = Ok (tt, w1) -> exists w', rtc quiet_step w1 w' /\ phase w' = MonStopped.
Proof.
  intros Hi Hok Hph Hw Hs. rewrite dtor_signal_run in Hs by done. injection Hs as <-.
  set (w1 := close_write_end _ _).
  assert (Hi1 : mon_inv w1) by exact Hi. assert (Hok1 : loop_ok w1) by exact Hok.
  assert (He1 : m_enable_monitoring (dm w1) = false) by reflexivity.
  assert (Hph1 : phase w1 = phase w) by reflexivity.
  destruct (phase w) eqn:E; [| | |done].
  - pose proof (qs_start w1 _ Hph1 (monitor_start_run w1)) as Hstep.
    destruct (decide (monitor_fd w1 <= 0)%Z).
    + eexists. split; [apply rtc_once, Hstep | reflexivity].
    + destruct (running_after_signal (set_phase MonRunning w1)) as (w' & Hr & Hp'); [done|done|].
      exists w'. split; [eapply rtc_l; [exact Hstep | exact Hr] | exact Hp'].
  - exact (running_after_signal w1 Hph1 He1).
  - destruct (select_after_signal w1) as (w2 & Hsel & He2); [done|done|done|done|].
    destruct (running_after_signal (set_phase MonRunning w2)) as (w' & Hr & Hp'); [done|done|].
    exists w'. split; [eapply rtc_l; [exact (qs_wake _ _ Hph1 Hsel) | exact Hr] | exact Hp'].
Qed.

(** ** The monitor's socket is closed twice *)

(** Along the thread's steps after the signal: the monitor fd and
    [m_monitor] stay, and once the thread has returned it has closed the
    monitor fd one more time. *)
Definition shut_inv (fd0 : Z) (c0 : nat) (w : machine) : Prop :=
  monitor_fd w = fd0 /\ m_monitor (dm w) = true /\
  ((phase w = MonRunning \/ phase w = MonWaiting) /\ c0 <= count_fd fd0 (closed_fds w) \/
   phase w = MonStopped /\ S c0 <= count_fd fd0 (closed_fds w)).

Lemma finished_count w :
  count_fd (monitor_fd w) (closed_fds (finished w)) = S (count_fd (monitor_fd w) (closed_fds w)).
Proof. unfold finished. simpl. rewrite count_fd_app, count_fd_self. lia. Qed.

(** A pass or a resumed [select] run by the thread, read through the frame. *)
Lemma pass_frame (m : ST machine loop_status) w st w' :
  (forall cl fd p, preserves (fd_frame cl fd p) m) ->
  m_monitor (dm w) = true -> m w = Ok (st, w') ->
  closed_fds w' = closed_fds w /\ monitor_fd w' = monitor_fd w /\
  m_monitor (dm w') = true /\ phase w' = phase w.
Proof. intros Hp Hm Hrun. exact (Hp _ _ _ w st w' (conj eq_refl (conj eq_refl (conj Hm eq_refl))) Hrun). Qed.

Lemma shut_inv_finish fd0 c0 w w' :
  shut_inv fd0 c0 w -> phase w <> MonStopped -> monitor_finish w = Ok (tt, w') -> shut_inv fd0 c0 w'.
Proof.
  intros (Hfd & Hm & Hph) Hns Hfin. rewrite monitor_finish_ok in Hfin. injection Hfin as <-.
  split; [done|]. split; [done|]. right. split; [reflexivity|].
  rewrite <- Hfd, finished_count, Hfd. destruct Hph as [[_ Hc]|[? _]]; [lia|done].
Qed.

Lemma shut_inv_same fd0 c0 w w' :
  shut_inv fd0 c0 w -> closed_fds w' = closed_fds w -> monitor_fd w' = monitor_fd w ->
  m_monitor (dm w') = true -> (phase w' = MonRunning \/ phase w' = MonWaiting) ->
  phase w <> MonStopped -> shut_inv fd0 c0 w'.
Proof.
  intros (Hfd & _ & Hph) Hc Hf Hm Hp' Hns. split; [congruence|]. split; [done|].
  left. split; [done|]. rewrite Hc. destruct Hph as [[_ ?]|[? _]]; [done|done].
Qed.

Lemma shut_inv_step fd0 c0 w w' : shut_inv fd0 c0 w -> mstep w w' -> shut_inv fd0 c0 w'.
Proof.
  intros Hinv Hs. pose proof Hinv as (Hfd & Hm & Hph).
  assert (Hnst : phase w <> MonStarting) by (destruct Hph as [[[?|?] _]|[? _]]; congruence).
  destruct Hs as [w w' Hp Hrun|w w' i Hp Hrun|w w1 w' i Hp Hrun Hfin|w Hp _|w w' i Hp Hrun
                 |w w1 w' i Hp Hrun Hfin|w d].
  - done.
  - destruct (pass_frame _ _ _ _ (monitor_iteration_frame i) Hm Hrun) as (? & ? & ? & Hp').
    apply (shut_inv_same _ _ w); try done; [left; congruence | congruence].
  - destruct (pass_frame _ _ _ _ (monitor_iteration_frame i) Hm Hrun) as (? & ? & ? & Hp').
    apply (shut_inv_finish _ _ w1); [|congruence|done].
    apply (shut_inv_same _ _ w); try done; [left; congruence | congruence].
  - apply (shut_inv_same _ _ w); try done; [by right | congruence].
  - destruct (pass_frame _ _ _ _ (monitor_select_frame i) Hm Hrun) as (? & ? & ? & Hp').
    apply (shut_inv_same _ _ w); try done; [by left | congruence].
  - destruct (pass_frame _ _ _ _ (monitor_select_frame i) Hm Hrun) as (? & ? & ? & Hp').
    apply (shut_inv_finish _ _ w1); [|congruence|done].
    apply (shut_inv_same _ _ w); try done; [right; congruence | congruence].
  - exact Hinv.
Qed.

Lemma rtc_shut_inv fd0 c0 w w' : shut_inv fd0 c0 w -> rtc mstep w w' -> shut_inv fd0 c0 w'.
Proof. intros H Hr. induction Hr as [|x y z Hs _ IH]; [done|]. exact (IH (shut_inv_step _ _ _ _ H Hs)). Qed.

Lemma dtor_signal_frame w w1 fd :
  dtor_signal w = Ok (tt, w1) ->
  monitor_fd w1 = monitor_fd w /\ m_monitor (dm w1) = m_monitor (dm w) /\ phase w1 = phase w /\
  count_fd fd (closed_fds w) <= count_fd fd (closed_fds w1).
Proof.
  unfold dtor_signal. st_unfold. simpl.
  case_decide; intros [= <-]; simpl; [rewrite count_fd_app|]; repeat split; lia.
Qed.

Lemma reset_device_records_frame cl fd p : preserves (fd_frame cl fd p) reset_device_records.
Proof. unfold reset_device_records, delete_record, set_records. solve_preserves. Qed.

(** [dtor_finish] closes the monitor fd once more. *)
Lemma dtor_finish_closes w w' :
  m_monitor (dm w) = true -> dtor_finish w = Ok (tt, w') ->
  S (count_fd (monitor_fd w) (closed_fds w)) <= count_fd (monitor_fd w) (closed_fds w').
Proof.
  intros Hm H. unfold dtor_finish in H.
  apply st_bind_Ok in H as (rfd & wa & Hg & H). apply st_gets_Ok in Hg as [-> ->].
  apply st_bind_Ok in H as ([] & wb & Hc & H).
  assert (Hb : closed_fds wb = closed_fds w ++ (if decide ((m_control_pipe (dm w)).1 <> 0%Z)
                                                 then [(m_control_pipe (dm w)).1] else []) /\
               monitor_fd wb = monitor_fd w /\ m_monitor (dm wb) = true /\ phase wb = phase w).
  { revert Hc. st_unfold. case_decide; intros [= <-]; simpl; [done|by rewrite app_nil_r]. }
  destruct Hb as (Hcb & Hfb & Hmb & Hpb).
  apply st_bind_Ok in H as ([] & wc & Hr & H).
  destruct (reset_device_records_frame _ _ _ wb tt wc (conj eq_refl (conj eq_refl (conj Hmb eq_refl))) Hr)
    as (Hcc & Hfc & Hmc & _).
  apply st_bind_Ok in H as (mon & wd & Hg & H). apply st_gets_Ok in Hg as [-> ->].
  rewrite Hmc in H. unfold udev_monitor_unref in H. st_unfold. injection H as <-.
  change (S (count_fd (monitor_fd w) (closed_fds w)) <=
          count_fd (monitor_fd w) (closed_fds wc ++ [monitor_fd wc])).
  rewrite Hcc, Hfc, Hcb, Hfb, !count_fd_app, count_fd_self. lia.
Qed.

(** C8: The destructor closes the monitor's socket twice: once the
    thread has returned (it ran [close(monitor_fd)], line 338), the
    destructor's [udev_monitor_unref] (line 192) closes the same
    descriptor again, which by then may belong to another open file. *)
Theorem destructor_closes_monitor_fd_twice w w1 w2 w3 :
  m_monitor (dm w) = true -> (phase w = MonRunning \/ phase w = MonWaiting) ->
  dtor_signal w = Ok (tt, w1) -> rtc mstep w1 w2 -> phase w2 = MonStopped ->
  dtor_finish w2 = Ok (tt, w3) ->
  2 + count_fd (monitor_fd w) (closed_fds w) <= count_fd (monitor_fd w) (closed_fds w3).
Proof.
  intros Hm Hph Hs Hr Hst Hf.
  destruct (dtor_signal_frame w w1 (monitor_fd w) Hs) as (Hfd1 & Hm1 & Hph1 & Hc1).
  assert (Hinv : shut_inv (monitor_fd w) (count_fd (monitor_fd w) (closed_fds w)) w2).
  { apply (rtc_shut_inv _ _ w1); [|exact Hr].
    split; [done|]. split; [congruence|]. left. split; [by rewrite Hph1|done]. }
  destruct Hinv as (Hfd2 & Hm2 & [[[?|?] _]|[_ Hc2]]); [congruence|congruence|].
  pose proof (dtor_finish_closes w2 w3 Hm2 Hf) as H. rewrite Hfd2 in H. lia.
Qed.

End Lifecycle.
