(* ===== verification/Scenario.v ===== *)
(** * Concrete runs

    Concrete machines built the way the spec's section 8 scenarios run:
    a process starts with an empty registry, [rusbCtrl_init] enumerates
    two devices, a client registers a callback, and the kernel queues
    events for the monitor thread. Two runs are evaluated as tests (a
    registration snapshot, and [term] leaving monitoring on); the
    machines serve as the concrete inputs at which each theorem of the
    development with hypotheses is applied, its hypotheses discharged by
    evaluation or by the invariant lemmas. *)

From S2P Require Import Prelude CString Platform State Registry Property Monitor Api Lifecycle.

Module Scenario.
Import CString Udev State Registry Property Monitor Api Lifecycle.
Local Open Scope st_scope.

(** The process after the constructor: libudev context and monitor
    open, monitoring enabled, the monitor thread in its loop, no device,
    no callback. *)
Definition boot : machine :=
  mkMachine (mkDM [] 0 0 true 0 true 1 true (3, 4)%Z) (mkUdev ∅ 1 []) true [] 5 [] MonRunning.

Definition logitech (node : string) (action : string) : device_info :=
  mkInfo ("/sys/devices/pci0000:00/usb1/" +:+ node) (Some ("/dev/bus/usb/001/" +:+ node))
         (Some action) [("idVendor", "0x046d"); ("idProduct", "c52b"); ("manufacturer", "Logitech")].

Definition two_devices : enum_env :=
  mkEnum true true true [Some (logitech "002" "add"); Some (logitech "003" "add")].

Definition three_devices : enum_env :=
  mkEnum true true true [Some (logitech "002" "add"); None;
                         Some (logitech "003" "add"); Some (logitech "004" "add")].

(** Registration after enumerating three devices, one of which has gone
    from sysfs by the time [udev_device_new_from_syspath] runs. *)
Definition register_run : ST machine (option (Z * option (list Z))) :=
  _ <- rusbCtrl_init three_devices ;;
  reg <- rusbCtrl_registerCallback 100 7 true ;;
  ret reg.2.

(** The result a run returns, [None] on a fault. *)
Definition result_of {A} (e : exec (A * machine)) : option A :=
  match e with Ok (a, _) => Some a | Crash _ => None end.

(** The machine a run leaves ([w] itself on a fault). *)
Definition final_state {A} (m : ST machine A) (w : machine) : machine :=
  match m w with Ok (_, w') => w' | Crash _ => w end.

(** After [rusbCtrl_init] found the two devices, and after a client then
    registered its callback. *)
Definition enumerated : machine := final_state (rusbCtrl_init two_devices) boot.
Definition armed : machine := final_state (rusbCtrl_registerCallback 100 7 true) enumerated.

(** The monitor thread right after [udev_monitor_receive_device]
    returned the event [d] queued on [armed]: it holds the new device,
    address [3]. *)
Definition queued (d : device_info) : machine := push_event d armed.
Definition received (d : device_info) : machine :=
  set_lib (mkUdev (<[u_next (lib (queued d)) := mkObj d 1]> (u_objs (lib (queued d))))
                  (Pos.succ (u_next (lib (queued d)))) []) (queued d).

(** ** The concrete machines satisfy the invariants *)

Lemma boot_inv : mon_inv boot.
Proof.
  split.
  - split; [constructor | split; [constructor | unfold last_id, INT_MAX; simpl; lia]].
  - split; [|constructor]. split; [constructor|]. split; [simpl; by rewrite dom_empty_L|].
    split; [apply map_Forall_empty|]. intros h Hh. simpl in Hh. set_solver.
Qed.

Lemma boot_hist : hist_ok boot.
Proof. split; [constructor | constructor]. Qed.

Lemma enumerated_step : sstep boot enumerated.
Proof. apply (ss_init two_devices boot RUSBCTRL_SUCCESS). vm_compute. reflexivity. Qed.

Lemma armed_step : sstep enumerated armed.
Proof. apply (ss_register 100 7 true enumerated (RUSBCTRL_SUCCESS, Some (2%Z, Some [1; 2]%Z))). vm_compute. reflexivity. Qed.

Lemma armed_inv : mon_inv armed.
Proof. exact (api_step_inv _ _ (api_step_inv _ _ boot_inv enumerated_step) armed_step). Qed.

Lemma received_owns d :
  owns (records (received d)) [u_next (lib (queued d))] (lib (received d)).
Proof.
  destruct armed_inv as [_ Hown].
  exact (proj2 (owns_receive (records armed) (lib (queued d)) d [] (owns_queue _ _ _ _ Hown) eq_refl)).
Qed.

(** A device plugged in while [armed] runs, reached by the kernel's step
    and one pass of the monitor thread. *)
Definition plugged : device_info := logitech "004" "add".
Definition connected : machine := final_state (monitor_iteration false) (queued plugged).

Lemma connected_reachable : sreachable boot connected.
Proof.
  apply (sreach_step _ (queued plugged)).
  - apply (sreach_step _ armed); [|apply ss_monitor, ms_kernel].
    exact (sreach_step _ _ _ (sreach_step _ _ _ (sreach_init _) enumerated_step) armed_step).
  - apply ss_monitor. apply (ms_pass _ _ false); [reflexivity | vm_compute; reflexivity].
Qed.

(** ** The runs *)

(** The spec's registration scenario: with three devices enumerated, the
    snapshot holds exactly their three identifiers, and no callback call
    is made for them. *)
Example spec_scenario_register :
  match register_run boot with
  | Ok (reg, w) => reg = Some (3%Z, Some [1; 2; 3]%Z) /\ calls w = [] /\ m_callback (dm w) = 100%Z
  | Crash _ => False
  end.
Proof. vm_compute. repeat split. Qed.

(** [term] does not stop monitoring: after [rusbCtrl_term] the monitor
    thread keeps running, a device plugged in afterwards gets a record
    (identifier 3, the counter was kept), and only the cleared callback
    keeps it from being notified. *)
Example term_leaves_monitor_running :
  match (_ <- rusbCtrl_term ;; st_modify (push_event plugged) ;; monitor_loop 2) armed with
  | Ok (st, w) =>
      st = LoopBlocked /\ ids (records w) = [3%Z] /\ calls w = [] /\
      m_enable_monitoring (dm w) = true
  | Crash _ => False
  end.
Proof. vm_compute. repeat split. Qed.

(** ** The theorems at concrete machines *)

Lemma system_mon_inv_witness : mon_inv connected.
Proof. exact (system_mon_inv boot connected boot_inv connected_reachable). Defined.

Lemma system_connect_ids_distinct_witness : NoDup (connect_ids (calls connected)).
Proof. exact (system_connect_ids_distinct boot connected boot_hist connected_reachable). Defined.

Lemma monitor_loop_terminates_witness :
  exists st w', monitor_for_changes 4 (queued plugged) = Ok (st, w') /\ st <> LoopContinue /\ mon_inv w'.
Proof.
  apply (monitor_loop_terminates 4 (queued plugged)).
  - exact (mstep_inv _ _ armed_inv (ms_kernel _ _)).
  - unfold loop_ok, event_ok, devnodes_set. by_decide.
  - by_decide.
Defined.

Lemma remove_device_from_records_refines_witness :
  remove_device_from_records 3 (received (logitech "002" "remove")) =
    remove_exact "/dev/bus/usb/001/002" (received (logitech "002" "remove")).
Proof.
  apply (remove_device_from_records_refines _ 3 (mkObj (logitech "002" "remove") 1)).
  - vm_compute. reflexivity.
  - reflexivity.
  - reflexivity.
  - discriminate.
  - apply no_extension_b_spec; [reflexivity | vm_compute; reflexivity].
Defined.

Lemma remove_device_from_records_unknown_witness :
  remove_device_from_records 3 (received (logitech "009" "remove")) =
    Ok ((false, (-1)%Z), received (logitech "009" "remove")).
Proof.
  apply (remove_device_from_records_unknown _ 3 (mkObj (logitech "009" "remove") 1) "/dev/bus/usb/001/009").
  - vm_compute. reflexivity.
  - reflexivity.
  - reflexivity.
  - discriminate.
  - apply no_extension_b_spec; [reflexivity | vm_compute; reflexivity].
  - vm_compute. reflexivity.
Defined.

Lemma add_device_to_records_overflow_witness :
  add_device_to_records 1 (modify_dm (with_last_id INT_MAX) armed) = Crash SignedOverflow.
Proof. apply add_device_to_records_overflow. reflexivity. Defined.

(** A record of [/dev/bus/usb/001/003], then one with a NULL devnode. *)
Lemma find_by_devnode_null_witness :
  find_by_devnode "/dev/bus/usb/001/002"
    ([mkRecord 2 2 (Some "/dev/bus/usb/001/003")] ++ [mkRecord 1 1 None]) = Crash NullDeref.
Proof.
  apply find_by_devnode_null; [by_decide | | reflexivity].
  constructor; [vm_compute; reflexivity | constructor].
Defined.


Lemma get_property_unterminated_witness :
  c_str_read (map Some (String.list_ascii_of_string "0x046d")) = None /\
  exists v, property_value armed 2 "idVendor" = Ok (Some v) /\
    map Some (String.list_ascii_of_string "0x046d") = map Some (String.list_ascii_of_string v) /\
    length (map Some (String.list_ascii_of_string "0x046d")) = String.length v.
Proof.
  apply (get_property_unterminated armed 2 "idVendor" _ armed).
  - unfold sysattrs_c_strings. by_decide.
  - vm_compute. reflexivity.
Defined.

Lemma get_property_safe_witness :
  exists ov, property_value armed 2 "idVendor" = Ok ov /\
             get_property 2 "idVendor" armed = Ok (code_bytes <$> ov, armed).
Proof. exact (get_property_safe armed 2 "idVendor" (proj2 armed_inv)). Defined.

Lemma get_property_unknown_witness : get_property 7 "idVendor" armed = Ok (None, armed).
Proof. apply get_property_unknown. vm_compute. reflexivity. Defined.

Lemma monitor_stops_on_eof_witness :
  monitor_loop 2 (set_pipe_write_open false armed) =
    Ok (LoopExit, finished (modify_dm (with_enable false) (set_pipe_write_open false armed))).
Proof. apply monitor_stops_on_eof; reflexivity. Defined.

Lemma monitor_signal_stops_witness :
  monitor_iteration true armed = Ok (LoopContinue, modify_dm (with_enable false) armed) /\
  monitor_iteration false (modify_dm (with_enable false) armed) =
    Ok (LoopExit, modify_dm (with_enable false) armed).
Proof. apply monitor_signal_stops. reflexivity. Defined.

Lemma monitor_iteration_control_first_witness :
  monitor_iteration false (set_pipe_write_open false (queued plugged)) =
    (process_udev_monitor_event ;; ret LoopContinue)
      (modify_dm (with_enable false) (set_pipe_write_open false (queued plugged))).
Proof.
  apply monitor_iteration_control_first; [reflexivity | reflexivity |].
  intros Hq. vm_compute in Hq. discriminate Hq.
Defined.

Lemma enumerate_connected_devices_ids_witness :
  exists w', enumerate_connected_devices two_devices boot = Ok (RUSBCTRL_SUCCESS, w') /\
    ids (records w') = id_range (last_id boot + 1) (length (found_devices (en_devices two_devices))) /\
    m_devnode <$> records w' = di_devnode <$> found_devices (en_devices two_devices).
Proof.
  apply enumerate_connected_devices_ids; [exact (proj2 boot_inv) | reflexivity | reflexivity | reflexivity | by_decide].
Defined.

Lemma init_hides_enumeration_failure_witness :
  exists w', enumerate_connected_devices (mkEnum false true true [Some plugged]) armed = Ok (RUSBCTRL_FAILURE, w') /\
             init (mkEnum false true true [Some plugged]) armed = Ok (RUSBCTRL_SUCCESS, w') /\
             records w' = [].
Proof. apply init_hides_enumeration_failure; [exact (proj2 armed_inv) | reflexivity]. Defined.

Lemma term_clears_witness :
  exists w', term armed = Ok (RUSBCTRL_SUCCESS, w') /\ records w' = [] /\
             u_objs (lib w') = ∅ /\ m_callback (dm w') = 0%Z /\ m_callback_data (dm w') = 0%Z /\
             last_id w' = last_id armed.
Proof. exact (term_clears armed (proj2 armed_inv)). Defined.

(** The process exits while the monitor thread is blocked in [select]
    with an event pending. *)
Definition exiting : machine := set_phase MonWaiting (queued plugged).

Lemma dtor_join_returns_witness :
  exists w', rtc quiet_step (final_state dtor_signal exiting) w' /\ phase w' = MonStopped.
Proof.
  apply (dtor_join_returns exiting).
  - exact (mstep_inv _ _ armed_inv (ms_kernel _ _)).
  - unfold loop_ok, event_ok, devnodes_set. by_decide.
  - by_decide.
  - by_decide.
  - vm_compute. reflexivity.
Defined.

Lemma destructor_closes_monitor_fd_twice_witness :
  2 + count_fd (monitor_fd armed) (closed_fds armed) <=
  count_fd (monitor_fd armed)
    (closed_fds (final_state dtor_finish (finished (final_state dtor_signal armed)))).
Proof.
  apply (destructor_closes_monitor_fd_twice armed (final_state dtor_signal armed)
           (finished (final_state dtor_signal armed))).
  - reflexivity.
  - by left.
  - vm_compute. reflexivity.
  - apply rtc_once, quiet_mstep, running_exit; reflexivity.
  - reflexivity.
  - vm_compute. reflexivity.
Defined.

End Scenario.
