(* ===== verification/Typing.v ===== *)
(** * The types of the callback contract

    The spec types a notification as [callback(identifier, connected:
    bool, payload)]; the C signature is [void (int id, int connected,
    void *data)]. [src/src/usbctrl.cpp] passes the literals [1] and [0]
    for [connected] (506 and 525) and an identifier from the registry.
    [calls_typed] states that every call the library has made fits the
    spec's types: [connected] is [0] or [1], and the identifier is a
    positive [int]. The theorem: this holds in every reachable state. *)

From S2P Require Import Prelude CString Platform State Registry Property Monitor Api Scenario.

Module Typing.
Import CString Udev State Registry Property Monitor Api Scenario.
Local Open Scope st_scope.

Definition call_typed (c : callback_call) : Prop :=
  (cc_connected c = 0 \/ cc_connected c = 1)%Z /\ (0 < cc_identifier c <= INT_MAX)%Z.

Definition calls_typed (w : machine) : Prop := Forall call_typed (calls w).

Definition typed (w : machine) : Prop := mon_inv w /\ calls_typed w.

(** ** Lemmas *)

(** [notify] appends one call, and only when [result] holds. *)
Lemma notify_typed b identifier connected w w' :
  notify b identifier connected w = Ok (tt, w') ->
  calls w' = calls w \/
  (b = true /\ exists c, calls w' = calls w ++ [c] /\ cc_identifier c = identifier /\
                         cc_connected c = connected).
Proof.
  unfold notify, invoke_callback. st_unfold. destruct b; simpl; [|by intros [= <-]; left].
  case_bool_decide; intros [= <-]; [right; split; [done | by eexists] | by left].
Qed.

Lemma calls_typed_snoc w w' identifier connected :
  calls_typed w ->
  (calls w' = calls w \/ exists c, calls w' = calls w ++ [c] /\ cc_identifier c = identifier /\
                                   cc_connected c = connected) ->
  (connected = 0 \/ connected = 1)%Z -> (0 < identifier <= INT_MAX)%Z -> calls_typed w'.
Proof.
  unfold calls_typed. intros Hw [->|(c & -> & Hi & Hc)] Hconn Hid; [done|].
  apply Forall_app. split; [done|]. apply Forall_singleton. split; [by rewrite Hc | by rewrite Hi].
Qed.

Lemma process_udev_monitor_event_typed w w' :
  mon_inv w -> calls_typed w -> process_udev_monitor_event w = Ok (tt, w') -> calls_typed w'.
Proof.
  intros [(_ & Hf & Hl) _] Hc Hrun.
  destruct (process_udev_monitor_event_Ok _ _ Hrun)
    as [->|(h & u1 & _ & [(res & w4 & Hadd & Hn)|[(res & w5 & u6 & Hrem & _ & Hn)|(u6 & _ & ->)]])];
    [done| | |done].
  - apply add_device_to_records_inv in Hadd as (o & _ & Hb & -> & ->).
    change (last_id (set_lib u1 w)) with (last_id w) in Hb.
    apply (calls_typed_snoc w w' (last_id w + 1) 1); [done | | lia | lia].
    apply notify_typed in Hn as [Hn|[_ Hn]]; [left | right]; exact Hn.
  - apply remove_device_from_records_inv in Hrem
      as [[-> ->]|(pre & r & post & u' & Hr & _ & -> & ->)].
    + apply notify_typed in Hn as [Hn|[Hb _]]; [unfold calls_typed; rewrite Hn; exact Hc | done].
    + apply (calls_typed_snoc w w' (m_identifier r) 0); [done | | lia |].
      * apply notify_typed in Hn as [Hn|[_ Hn]]; [left | right]; exact Hn.
      * rewrite Forall_forall in Hf. specialize (Hf r).
        assert (r ∈ records (set_lib u1 w)) as Hin%Hf by (rewrite Hr; apply elem_of_app; right; by left). cbn in *. lia.
Qed.

Lemma process_udev_monitor_event_typed_preserves : preserves typed process_udev_monitor_event.
Proof.
  intros w [] w' [Hi Hc] Hrun. split.
  - exact (process_udev_monitor_event_inv _ _ Hi Hrun).
  - exact (process_udev_monitor_event_typed _ _ Hi Hc Hrun).
Qed.

#[local] Hint Resolve process_udev_monitor_event_typed_preserves : preserves.
#[local] Hint Extern 2 (typed _) =>
  match goal with H : typed _ |- _ => destruct H; split; [eauto with preserves | assumption] end
  : preserves.

Lemma monitor_select_typed i : preserves typed (monitor_select i).
Proof. unfold monitor_select, process_control_event, disable_monitoring. solve_preserves. Qed.

#[local] Hint Resolve monitor_select_typed : preserves.

Lemma monitor_iteration_typed i : preserves typed (monitor_iteration i).
Proof. unfold monitor_iteration. solve_preserves. Qed.

Lemma monitor_finish_typed : preserves typed monitor_finish.
Proof. unfold monitor_finish. solve_preserves. Qed.

Lemma monitor_start_typed : preserves typed monitor_start.
Proof. unfold monitor_start. solve_preserves. Qed.

Lemma mstep_typed w w' : typed w -> mstep w w' -> typed w'.
Proof.
  intros Ht Hs.
  destruct Hs as [w w' _ Hrun|w w' i _ Hrun|w w1 w' i _ Hrun Hfin|w _ _|w w' i _ Hrun
                 |w w1 w' i _ Hrun Hfin|w d].
  - exact (monitor_start_typed _ _ _ Ht Hrun).
  - exact (monitor_iteration_typed i _ _ _ Ht Hrun).
  - exact (monitor_finish_typed _ _ _ (monitor_iteration_typed i _ _ _ Ht Hrun) Hfin).
  - exact Ht.
  - exact (monitor_select_typed i _ _ _ Ht Hrun).
  - exact (monitor_finish_typed _ _ _ (monitor_select_typed i _ _ _ Ht Hrun) Hfin).
  - exact Ht.
Qed.

Lemma on_udev_calls_typed {A} (m : ST udev A) : preserves calls_typed (on_udev m).
Proof. intros w a w' Hh Hrun. by apply on_udev_Ok in Hrun as (u & _ & ->). Qed.

Lemma add_device_to_records_calls_typed h : preserves calls_typed (add_device_to_records h).
Proof. intros w res w' Hh Hrun. by apply add_device_to_records_inv in Hrun as (o & _ & _ & _ & ->). Qed.

#[local] Hint Resolve on_udev_calls_typed add_device_to_records_calls_typed : preserves.
#[local] Hint Extern 1 (calls_typed (modify_dm _ _)) => assumption : preserves.

(** The API's own steps make no call. *)
Lemma sstep_typed w w' : typed w -> sstep w w' -> typed w'.
Proof.
  intros Ht Hs. pose proof (api_step_inv _ _ (proj1 Ht) Hs) as Hi.
  destruct Hs as [w w' Hm|env w r w' Hrun|w r w' Hrun|cb data o w r w' Hrun];
    [exact (mstep_typed _ _ Ht Hm)| | |]; split; [done| |done| |done|]; destruct Ht as [_ Hc].
  - assert (Hp : preserves calls_typed (init env))
      by (unfold init, enumerate_connected_devices, reset_device_records, delete_record,
            set_records, add_enumerated; solve_preserves).
    exact (Hp _ _ _ Hc Hrun).
  - assert (Hp : preserves calls_typed term)
      by (unfold term, reset_device_records, delete_record, set_records; solve_preserves).
    exact (Hp _ _ _ Hc Hrun).
  - assert (Hp : preserves calls_typed (register_callback cb data o))
      by (unfold register_callback, get_connected_devices_list; solve_preserves).
    exact (Hp _ _ _ Hc Hrun).
Qed.

(** ** Theorems *)

(** C27: Every notification the library makes in a reachable state fits
    the spec's types: [connected] is [0] or [1] (the spec's boolean), and
    the identifier is a positive [int] — across any interleaving of
    device events, enumerations, [term] and registrations. *)
Theorem system_calls_typed w0 w : typed w0 -> sreachable w0 w -> calls_typed w.
Proof.
  intros H0 Hr. assert (typed w) as [_ Hc]; [|exact Hc].
  induction Hr as [|w w' _ IH Hs]; [done | exact (sstep_typed _ _ IH Hs)].
Qed.

(** The theorem at the scenario's state after a plugged device was
    notified. *)
Lemma system_calls_typed_witness : calls_typed connected.
Proof.
  apply (system_calls_typed boot connected); [split; [exact boot_inv | constructor] | exact connected_reachable].
Defined.

End Typing.
