(* ===== verification/Concurrency.v ===== *)
(** * Steps that do not hold the lock

    Two pieces of [src/src/usbctrl.cpp] touch shared state without
    [m_mutex], so other threads can run in the middle of them:

    - [rusbCtrl_getProperty] (555-558) calls [get_property] (227-258),
      marked "needs lock", without taking it: the record search and the
      [udev_device_get_sysattr_value] call are two steps, and the monitor
      thread can remove the record and release its device in between;
    - [process_udev_monitor_event] (480-529) tests [m_callback] after
      unlocking, then reads [m_callback] and [m_callback_data] again to
      make the call: [term] (213-224) can clear them in between.

    Each is split here into the steps another thread can separate, the
    split is shown equal to the sequential definition, and a concrete
    interleaving shows what the missing lock allows. *)

From S2P Require Import Prelude CString Platform State Registry Property Monitor Api Lifecycle Scenario.

Module Concurrency.
Import CString Udev State Registry Property Monitor Api Scenario.
Local Open Scope st_scope.

(** ** [get_property] in two steps *)

(** The search loop: the device pointer of the record found. *)
Definition gp_lookup (identifier : Z) : ST machine (option positive) :=
  recs <- st_gets records ;;
  ret (m_device <$> find_by_identifier identifier recs).

(** The rest: the attribute query on that pointer and the copy. *)
Definition gp_query (device : option positive) (key : string) : ST machine (option buffer) :=
  match device with
  | None => ret None
  | Some d =>
      value <- on_udev (udev_device_get_sysattr_value d key) ;;
      match value with
      | None => ret None
      | Some v => b <- copy_value v ;; ret (Some b)
      end
  end.

(** ** The callback in two steps *)

(** [if ((result) && (m_callback))]. *)
Definition notify_check (result : bool) : ST machine bool :=
  cb <- st_gets (fun w => m_callback (dm w)) ;;
  ret (result && bool_decide (cb <> 0%Z)).

(** [m_callback(identifier, connected, m_callback_data)]: both fields are
    read again; calling a NULL function pointer faults. *)
Definition notify_call (identifier connected : Z) : ST machine unit :=
  cb <- st_gets (fun w => m_callback (dm w)) ;;
  if decide (cb = 0%Z) then st_crash NullDeref else invoke_callback identifier connected.

(** ** Lemmas *)

(** Run back to back, the two halves are [get_property]. *)
Theorem get_property_split identifier key w :
  get_property identifier key w = (d <- gp_lookup identifier ;; gp_query d key) w.
Proof.
  unfold get_property, gp_lookup, gp_query. st_unfold. cbv beta iota.
  by destruct (find_by_identifier identifier (records w)).
Qed.

(** Run back to back, the two halves are [notify]. *)
Theorem notify_split result identifier connected w :
  notify result identifier connected w =
    (c <- notify_check result ;; if c then notify_call identifier connected else ret tt) w.
Proof.
  unfold notify, notify_check, notify_call. st_unfold.
  destruct result; simpl; [|done].
  case_bool_decide as Hcb; simpl; [by rewrite decide_False | done].
Qed.

(** ** What the missing lock allows *)

(** C6: [get_property] without the lock: a client has found the record of
    [identifier] and holds its device pointer when the monitor thread
    removes that record; the query then reads a released udev device. *)
Theorem get_property_unlocked_race w identifier d key h res_w w' :
  ids_ok w -> owns (records w) [h] (lib w) ->
  gp_lookup identifier w = Ok (Some d, res_w) ->
  remove_device_from_records h w = Ok ((true, identifier), w') ->
  gp_query (Some d) key w' = Crash UseAfterFree.
Proof.
  intros [Hnd _] Hown Hl Hrem. unfold gp_lookup in Hl. st_unfold. injection Hl as Hd _.
  apply fmap_Some in Hd as (r & Hf & ->). apply find_by_identifier_elem in Hf as [Hr Hid].
  apply remove_device_from_records_inv in Hrem
    as [[[=] _]|(pre & r' & post & u' & Hw & Hu & [= Hid'] & ->)].
  assert (r = r') as <-.
  { apply (NoDup_fmap_same m_identifier (records w)); [exact Hnd | exact Hr | | congruence].
    rewrite Hw. apply elem_of_app. right. by left. }
  rewrite Hw in Hown. destruct (owns_erase _ _ _ _ _ Hown) as [Hu' _]. rewrite Hu in Hu'.
  injection Hu' as ->. unfold gp_query, udev_device_get_sysattr_value, live_obj. st_unfold.
  simpl. by rewrite lookup_delete_eq.
Qed.

(** C7: The callback test without the lock: when [term] runs between the
    monitor thread's test of [m_callback] and the call, the thread calls
    through the NULL pointer [term] stored: a notification still fires
    after [term] has returned. *)
Theorem callback_race_term w identifier connected :
  owns (records w) [] (lib w) -> m_callback (dm w) <> 0%Z ->
  (c <- notify_check true ;; _ <- term ;; if c then notify_call identifier connected else ret tt) w
    = Crash NullDeref.
Proof.
  intros Hown Hcb. destruct (reset_device_records_releases_all w Hown) as (w1 & Hr & _).
  assert (Hc : notify_check true w = Ok (true, w)).
  { unfold notify_check. st_unfold. simpl. by rewrite bool_decide_eq_true_2. }
  assert (Ht : term w = Ok (RUSBCTRL_SUCCESS, modify_dm (with_callback 0 0) w1)).
  { unfold term. by rewrite (st_bind_Ok_eq _ _ _ _ _ Hr). }
  rewrite (st_bind_Ok_eq _ _ _ _ _ Hc), (st_bind_Ok_eq _ _ _ _ _ Ht). reflexivity.
Qed.

(** The race on the spec's scenario: device 1 is looked up, the kernel
    reports its removal and the monitor thread handles it, then the
    query faults; with the lock held for the whole call, either order is
    safe (the value before the removal, NULL after it). *)
Example get_property_race_scenario :
  (d <- gp_lookup 1 ;; st_modify (push_event (logitech "002" "remove")) ;;
   _ <- monitor_iteration false ;; gp_query d "idVendor") armed = Crash UseAfterFree /\
  result_of ((st_modify (push_event (logitech "002" "remove")) ;;
              _ <- monitor_iteration false ;; get_property 1 "idVendor") armed) = Some None /\
  result_of (get_property 1 "idVendor" armed) = Some (Some (map Some (String.list_ascii_of_string "0x046d"))).
Proof. vm_compute. repeat split. Qed.

(** ** The theorems at concrete machines *)

Lemma get_property_unlocked_race_witness :
  gp_query (Some 1%positive) "idVendor"
    (final_state (remove_device_from_records 3) (received (logitech "002" "remove")))
  = Crash UseAfterFree.
Proof.
  apply (get_property_unlocked_race (received (logitech "002" "remove")) 1 1 "idVendor" 3
           (received (logitech "002" "remove"))).
  - exact (proj1 armed_inv).
  - exact (received_owns (logitech "002" "remove")).
  - vm_compute. reflexivity.
  - vm_compute. reflexivity.
Defined.

Lemma callback_race_term_witness :
  (c <- notify_check true ;; _ <- term ;; if c then notify_call 3 1 else ret tt) armed = Crash NullDeref.
Proof. apply callback_race_term; [exact (proj2 armed_inv) | by_decide]. Defined.

End Concurrency.
