(* ===== verification/Mutex.v ===== *)
(** * The registry's mutex

    [m_mutex] is a recursive pthread mutex (the constructor sets
    [PTHREAD_MUTEX_RECURSIVE], lines 110-113; the pthread calls are
    modelled from POSIX). Every [pthread_mutex_lock]
    and [pthread_mutex_unlock] in [src/src/usbctrl.cpp] is wrapped in
    [REPORT_IF_UNEQUAL(0, ...)] (46-47), which prints an error and goes
    on: a failed lock call does not stop the thread.

    The rest of the development runs each locked method as one atomic
    step. Here the lock is explicit: [mutex] is pthread's owner and
    recursion count, a thread's code is a [prog] of [Lock], [Unlock] and
    [Act] steps (each [Act] one step of the machine, tagged with what it
    touches), and the locked methods are written as the code writes them,
    including [enumerate_connected_devices]' early unlock. [run] is one
    thread alone; [pool_step] interleaves any number of threads.

    The theorems: the spec's lock discipline holds for [term],
    [register_callback] and [enumerate_connected_devices], which balance
    lock and unlock on every path, while [get_property] and the
    monitor's test of [m_callback] read shared state without the lock;
    and for the program's threads ([program_threads]: clients calling
    these methods in any order, the monitor thread handling events), in
    any interleaving no [REPORT_IF_UNEQUAL] fires, the threads that only
    call the locked methods touch the registry one at a time, nothing
    deadlocks, and once every thread has returned
    [pthread_mutex_destroy] succeeds. Lemmas check that each method run
    alone computes, with its lock calls, what the atomic definition the
    other files use computes. *)

From S2P Require Import Prelude CString Platform State Registry Property Monitor Api Scenario Concurrency.

Module Mutex.
Import CString Udev State Registry Property Monitor Api Scenario Concurrency.
Local Open Scope st_scope.

(** ** The recursive mutex *)

Definition tid := nat.

(** The attribute [pthread_mutexattr_settype] sets. *)
Inductive mutex_type := PTHREAD_MUTEX_DEFAULT | PTHREAD_MUTEX_RECURSIVE.

#[export] Instance mutex_type_eq_dec : EqDecision mutex_type.
Proof. solve_decision. Defined.

Record mutex := mkMutex {
  mx_type : mutex_type;    (** fixed by [pthread_mutex_init] *)
  mx_owner : option tid;   (** the thread that holds it *)
  mx_count : nat           (** how many times it holds it *)
}.

Definition EPERM : Z := 1.
Definition EBUSY : Z := 16.

(** [pthread_mutexattr_init]: the default type. *)
Definition pthread_mutexattr_init : mutex_type := PTHREAD_MUTEX_DEFAULT.

(** [pthread_mutexattr_settype(&attr, kind)]. *)
Definition pthread_mutexattr_settype (attr : mutex_type) (kind : mutex_type) : mutex_type := kind.

(** [pthread_mutex_init(&m, &attr)]: unlocked. *)
Definition pthread_mutex_init (attr : mutex_type) : mutex := mkMutex attr None 0.

(** The constructor's three calls (110-113). *)
Definition mutex_unlocked : mutex :=
  pthread_mutex_init (pthread_mutexattr_settype pthread_mutexattr_init PTHREAD_MUTEX_RECURSIVE).

(** [pthread_mutex_lock]: [None] when the caller must wait, for another
    thread's unlock, or forever when a default mutex is locked again by
    its owner. *)
Definition pthread_mutex_lock (t : tid) (m : mutex) : option (Z * mutex) :=
  match mx_owner m with
  | None => Some (0%Z, mkMutex (mx_type m) (Some t) 1)
  | Some o =>
      if decide (o = t) then
        match mx_type m with
        | PTHREAD_MUTEX_RECURSIVE => Some (0%Z, mkMutex (mx_type m) (Some t) (S (mx_count m)))
        | PTHREAD_MUTEX_DEFAULT => None
        end
      else None
  end.

(** [pthread_mutex_unlock]: [EPERM] unless the caller holds it. *)
Definition pthread_mutex_unlock (t : tid) (m : mutex) : Z * mutex :=
  match mx_owner m with
  | Some o =>
      if decide (o = t) then
        (0%Z, if decide (mx_count m <= 1) then mkMutex (mx_type m) None 0
              else mkMutex (mx_type m) (Some t) (pred (mx_count m)))
      else (EPERM, m)
  | None => (EPERM, m)
  end.

(** [pthread_mutex_destroy(&m_mutex)] in the destructor (197): [EBUSY]
    while a thread holds it; its result is not checked. *)
Definition pthread_mutex_destroy (m : mutex) : Z :=
  match mx_owner m with None => 0%Z | Some _ => EBUSY end.

(** [REPORT_IF_UNEQUAL(lhs, rhs)]: whether it prints its error. *)
Definition report_if_unequal (lhs rhs : Z) : bool := bool_decide (lhs <> rhs).

(** ** Threads *)

(** What a machine step touches: only the thread's own objects, the
    registry or the callback slot (which the spec's lock discipline
    protects), or the call of the callback. *)
Inductive access := Local | Guarded | Callback.

#[export] Instance access_eq_dec : EqDecision access.
Proof. solve_decision. Defined.

Inductive prog (R : Type) : Type :=
  | Ret (r : R)
  | Lock (k : prog R)                                  (** [REPORT_IF_UNEQUAL(0, pthread_mutex_lock(&m_mutex))] *)
  | Unlock (k : prog R)                                (** [REPORT_IF_UNEQUAL(0, pthread_mutex_unlock(&m_mutex))] *)
  | Act (g : access) {A : Type} (m : ST machine A) (k : A -> prog R).
Arguments Ret {R} r.
Arguments Lock {R} k.
Arguments Unlock {R} k.
Arguments Act {R} g {A} m k.

(** The program without its lock calls. *)
Fixpoint erase {R} (p : prog R) : ST machine R :=
  match p with
  | Ret r => ret r
  | Lock k | Unlock k => erase k
  | Act _ m k => a <- m ;; erase (k a)
  end.

(** One thread alone; a [Lock] on a mutex another thread holds waits
    forever. *)
Fixpoint run {R} (t : tid) (p : prog R) : ST (mutex * machine) R :=
  match p with
  | Ret r => ret r
  | Lock k => fun s =>
      match pthread_mutex_lock t s.1 with
      | Some (_, m') => run t k (m', s.2)
      | None => Crash Deadlock
      end
  | Unlock k => fun s => run t k ((pthread_mutex_unlock t s.1).2, s.2)
  | Act _ m k => fun s =>
      match m s.2 with
      | Ok (a, w') => run t (k a) (s.1, w')
      | Crash f => Crash f
      end
  end.

(** ** The locked methods as the code writes them *)

(** [term()] (213-224). *)
Definition term_prog : prog rusbCtrl_result_t :=
  Lock (Act Guarded reset_device_records (fun _ =>
  Act Guarded (st_modify (modify_dm (with_callback 0 0))) (fun _ =>
  Unlock (Ret RUSBCTRL_SUCCESS)))).

(** [register_callback(...)] (260-277). *)
Definition register_callback_prog (callback callback_data : Z) (out_ptrs : bool)
  : prog (rusbCtrl_result_t * option (Z * option (list Z))) :=
  Lock (Act Guarded (st_modify (modify_dm (with_callback callback callback_data))) (fun _ =>
  if out_ptrs then
    Act Guarded get_connected_devices_list (fun l => Unlock (Ret (RUSBCTRL_SUCCESS, Some l)))
  else Unlock (Ret (RUSBCTRL_SUCCESS, None)))).

(** [enumerate_connected_devices()] (377-422): the NULL enumerator returns
    early after its own unlock; the two failures inside [do { } while(0)]
    break to the common unlock. What libudev answers is [env]. *)
Definition enumerate_prog (env : enum_env) : prog rusbCtrl_result_t :=
  Lock (Act Guarded reset_device_records (fun _ =>
  Act Local (ret (en_new_ok env)) (fun enumerator =>
  if negb enumerator then Unlock (Ret RUSBCTRL_FAILURE)
  else
    Act Local (ret (en_match_ok env)) (fun matched =>
    if negb matched then Unlock (Ret RUSBCTRL_FAILURE)
    else
      Act Local (ret (en_scan_ok env)) (fun scanned =>
      if negb scanned then Unlock (Ret RUSBCTRL_FAILURE)
      else Act Guarded (st_iter add_enumerated (en_devices env)) (fun _ =>
           Unlock (Ret RUSBCTRL_SUCCESS))))))).

(** [if ((result) && (m_callback)) m_callback(identifier, connected,
    m_callback_data);] after the unlock: the test, then the call, which
    reads both fields again. *)
Definition notify_prog (result : bool) (identifier connected : Z) : prog unit :=
  Act Guarded (notify_check result) (fun c =>
  if c then Act Callback (notify_call identifier connected) (fun _ => Ret tt) else Ret tt).

(** [process_udev_monitor_event()] (480-529): the received device is the
    thread's own until it is stored; the registry update holds the lock. *)
Definition event_prog : prog unit :=
  Act Local (on_udev udev_monitor_receive_device) (fun device =>
  match device with
  | None => Ret tt
  | Some h =>
      Act Local (on_udev (udev_device_get_action h)) (fun action =>
      Act Local (st_lift (action_is action UDEV_ADD_EVENT)) (fun is_add =>
      if is_add then
        Lock (Act Guarded (add_device_to_records h) (fun res =>
        Unlock (notify_prog res.1 res.2 1)))
      else
        Act Local (st_lift (action_is action UDEV_REMOVE_EVENT)) (fun is_remove =>
        if is_remove then
          Lock (Act Guarded (remove_device_from_records h) (fun res =>
          Unlock (Act Local (on_udev (udev_device_unref h)) (fun _ =>
          notify_prog res.1 res.2 0))))
        else Act Local (on_udev (udev_device_unref h)) (fun _ => Ret tt))))
  end).

(** [get_property(identifier, key)] (227-258), marked "needs lock" and
    called by [rusbCtrl_getProperty] without it. *)
Definition get_property_prog (identifier : Z) (key : string) : prog (option buffer) :=
  Act Guarded (gp_lookup identifier) (fun device =>
  Act Guarded (gp_query device key) Ret).

(** ** Threads sharing the mutex *)

(** A thread of the process; what its method returns is dropped. *)
Fixpoint void_prog {R} (p : prog R) : prog unit :=
  match p with
  | Ret _ => Ret tt
  | Lock k => Lock (void_prog k)
  | Unlock k => Unlock (void_prog k)
  | Act g m k => Act g m (fun a => void_prog (k a))
  end.

(** A thread's code followed by more code, as statements follow one
    another in C. *)
Fixpoint prog_seq {R} (p : prog unit) (q : prog R) : prog R :=
  match p with
  | Ret _ => q
  | Lock k => Lock (prog_seq k q)
  | Unlock k => Unlock (prog_seq k q)
  | Act g m k => Act g m (fun a => prog_seq (k a) q)
  end.

(** The locked methods a client reaches through [rusbCtrl_init],
    [rusbCtrl_term] and [rusbCtrl_registerCallback] (540-554). *)
Inductive locked_method : prog unit -> Prop :=
  | lm_term : locked_method (void_prog term_prog)
  | lm_register callback callback_data out_ptrs :
      locked_method (void_prog (register_callback_prog callback callback_data out_ptrs))
  | lm_enumerate env : locked_method (void_prog (enumerate_prog env)).

(** Everything a thread of the program runs: those methods, a property
    query through [rusbCtrl_getProperty] (555-558), or the monitor
    thread's handling of one device event. *)
Inductive program_method : prog unit -> Prop :=
  | pm_locked p : locked_method p -> program_method p
  | pm_event : program_method event_prog
  | pm_get_property identifier key : program_method (void_prog (get_property_prog identifier key)).

(** A thread that calls methods of [M] one after another. *)
Inductive calls (M : prog unit -> Prop) : prog unit -> Prop :=
  | calls_done : calls M (Ret tt)
  | calls_seq p q : M p -> calls M q -> calls M (prog_seq p q).

Record pool := mkPool {
  threads : gmap tid (prog unit);   (** the running threads and what is left of their code *)
  pool_mutex : mutex;               (** [m_mutex] *)
  world : machine;                  (** the device manager and libudev *)
  reports : nat                     (** the "Unexpected error!" lines REPORT_IF_UNEQUAL printed *)
}.

Definition report (rc : Z) (n : nat) : nat := if report_if_unequal 0 rc then S n else n.

(** One step of one thread; a thread whose lock call must wait, or whose
    step faults, takes none. *)
Inductive pool_step : pool -> pool -> Prop :=
  | pool_ret t ps :
      threads ps !! t = Some (Ret tt) ->
      pool_step ps (mkPool (delete t (threads ps)) (pool_mutex ps) (world ps) (reports ps))
  | pool_lock t k rc m' ps :
      threads ps !! t = Some (Lock k) ->
      pthread_mutex_lock t (pool_mutex ps) = Some (rc, m') ->
      pool_step ps (mkPool (<[t := k]> (threads ps)) m' (world ps) (report rc (reports ps)))
  | pool_unlock t k ps :
      threads ps !! t = Some (Unlock k) ->
      pool_step ps (mkPool (<[t := k]> (threads ps)) (pthread_mutex_unlock t (pool_mutex ps)).2
                     (world ps) (report (pthread_mutex_unlock t (pool_mutex ps)).1 (reports ps)))
  | pool_act t g A (m : ST machine A) k a w' ps :
      threads ps !! t = Some (Act g m k) -> m (world ps) = Ok (a, w') ->
      pool_step ps (mkPool (<[t := k a]> (threads ps)) (pool_mutex ps) w' (reports ps)).

Definition initial_pool (ths : gmap tid (prog unit)) (w : machine) : pool :=
  mkPool ths mutex_unlocked w 0.

(** The threads of the program: each runs its methods one after
    another; those marked [strict] only call the locked methods. *)
Definition program_threads (strict : tid -> bool) (ths : gmap tid (prog unit)) : Prop :=
  forall t p, ths !! t = Some p ->
    if strict t then calls locked_method p else calls program_method p.

(** How many times [t] holds the mutex. *)
Definition depth (m : mutex) (t : tid) : nat :=
  if decide (mx_owner m = Some t) then mx_count m else 0.

(** The next step of [t] touches state the lock protects. *)
Definition guarded_next (ps : pool) (t : tid) : Prop :=
  exists A (m : ST machine A) k, threads ps !! t = Some (Act Guarded m k).

(** The next step of [t] calls the callback. *)
Definition callback_next (ps : pool) (t : tid) : Prop :=
  exists A (m : ST machine A) k, threads ps !! t = Some (Act Callback m k).

(** ** Lock discipline *)

(** [wf strict d p]: on every path, [p] started with the mutex held [d]
    times unlocks exactly as often as it locks and never unlocks a mutex it
    does not hold; when [strict], it also runs each [Guarded] step with the
    mutex held and the callback with it released, the discipline of the
    spec's section on concurrency. *)
Inductive wf {R} (strict : bool) : nat -> prog R -> Prop :=
  | wf_ret r : wf strict 0 (Ret r)
  | wf_lock d k : wf strict (S d) k -> wf strict d (Lock k)
  | wf_unlock d k : wf strict d k -> wf strict (S d) (Unlock k)
  | wf_act d g A (m : ST machine A) k :
      (strict = true -> g = Guarded -> 0 < d) ->
      (strict = true -> g = Callback -> d = 0) ->
      (forall a, wf strict d (k a)) -> wf strict d (Act g m k).

(** The mutex held [n] times by [t] ([n = 0]: unlocked). *)
Definition held (t : tid) (n : nat) : mutex :=
  match n with 0 => mutex_unlocked | _ => mkMutex PTHREAD_MUTEX_RECURSIVE (Some t) n end.

(** A run of the machine with the mutex set to [m] at its end. *)
Definition with_mutex {R} (m : mutex) (e : exec (R * machine)) : exec (R * (mutex * machine)) :=
  match e with Ok (r, w) => Ok (r, (m, w)) | Crash f => Crash f end.

(** ** Lemmas *)

Lemma lock_held t n : pthread_mutex_lock t (held t n) = Some (0%Z, held t (S n)).
Proof. destruct n; cbn; [done|]. by rewrite decide_True. Qed.

Lemma unlock_held t n : pthread_mutex_unlock t (held t (S n)) = (0%Z, held t n).
Proof.
  cbn. rewrite decide_True by done.
  destruct n; [by rewrite decide_True by lia | by rewrite decide_False by lia].
Qed.

Lemma held_owner t n : mx_owner (held t n) = if decide (n = 0) then None else Some t.
Proof. by destruct n. Qed.

Lemma held_count t n : mx_count (held t n) = n.
Proof. by destruct n. Qed.

(** A well-formed program run alone, from the mutex held [n + d] times by
    its thread, does what its erasure does and leaves it held [n] times:
    the lock calls neither block nor change what the program computes. *)
Lemma run_erase {R} t b d (p : prog R) :
  wf b d p -> forall n w, run t p (held t (n + d), w) = with_mutex (held t n) (erase p w).
Proof.
  induction 1 as [r|d k _ IH|d k _ IH|d g A m k _ _ _ IH]; intros n w; cbn.
  - by rewrite Nat.add_0_r.
  - rewrite lock_held, <- Nat.add_succ_r. apply IH.
  - rewrite Nat.add_succ_r, unlock_held. apply IH.
  - unfold st_bind. destruct (m w) as [[a w']|f]; [apply IH | done].
Qed.

Lemma erase_notify_prog result identifier connected w :
  erase (notify_prog result identifier connected) w = notify result identifier connected w.
Proof.
  rewrite notify_split. unfold notify_prog, notify_check. cbn.
  destruct (result && _); cbn -[notify_call]; [|done].
  unfold st_bind. by destruct (notify_call identifier connected w) as [[[] ?]|].
Qed.

Lemma erase_term_prog w : erase term_prog w = term w.
Proof. reflexivity. Qed.

Lemma erase_register_callback_prog callback callback_data out_ptrs w :
  erase (register_callback_prog callback callback_data out_ptrs) w =
  register_callback callback callback_data out_ptrs w.
Proof. by destruct out_ptrs. Qed.

Lemma erase_enumerate_prog env w : erase (enumerate_prog env) w = enumerate_connected_devices env w.
Proof.
  unfold enumerate_prog, enumerate_connected_devices. cbn [erase]. apply st_bind_ext. intros [] w'.
  by destruct env as [[] [] [] devices].
Qed.

Lemma erase_event_prog w : erase event_prog w = process_udev_monitor_event w.
Proof.
  unfold event_prog, process_udev_monitor_event. cbn [erase].
  apply st_bind_ext. intros [h|] w1; cbn [erase]; [|done].
  apply st_bind_ext. intros action w2. cbn [erase].
  apply st_bind_ext. intros [] w3; cbn [erase].
  - apply st_bind_ext. intros res w4. apply erase_notify_prog.
  - apply st_bind_ext. intros [] w4; cbn [erase].
    + apply st_bind_ext. intros res w5. apply st_bind_ext. intros [] w6. apply erase_notify_prog.
    + unfold st_bind. by destruct (on_udev (udev_device_unref h) w4) as [[[] ?]|].
Qed.

Lemma erase_get_property_prog identifier key w :
  erase (get_property_prog identifier key) w = get_property identifier key w.
Proof.
  rewrite get_property_split. cbn [erase get_property_prog]. apply st_bind_ext. intros device w'.
  unfold st_bind. by destruct (gp_query device key w') as [[? ?]|].
Qed.

(** What [wf] says of a program's first step. *)
Definition wf_next {R} (b : bool) (d : nat) (p : prog R) : Prop :=
  match p with
  | Ret _ => d = 0
  | Lock k => wf b (S d) k
  | Unlock k => exists d', d = S d' /\ wf b d' k
  | Act g _ k =>
      (b = true -> g = Guarded -> 0 < d) /\ (b = true -> g = Callback -> d = 0) /\
      forall a, wf b d (k a)
  end.

Lemma wf_inv {R} b d (p : prog R) : wf b d p -> wf_next b d p.
Proof. destruct 1; cbn; eauto. Qed.

Ltac solve_wf :=
  repeat first
    [ progress intros | apply wf_ret | apply wf_lock | apply wf_unlock | apply wf_act
    | discriminate | lia | case_match ].

Lemma term_prog_wf : wf true 0 term_prog.
Proof. unfold term_prog. solve_wf. Qed.

Lemma register_callback_prog_wf callback callback_data out_ptrs :
  wf true 0 (register_callback_prog callback callback_data out_ptrs).
Proof. unfold register_callback_prog. solve_wf. Qed.

Lemma enumerate_prog_wf env : wf true 0 (enumerate_prog env).
Proof. unfold enumerate_prog. solve_wf. Qed.

Lemma event_prog_wf : wf false 0 event_prog.
Proof. unfold event_prog, notify_prog. solve_wf. Qed.

Lemma get_property_prog_wf identifier key : wf false 0 (get_property_prog identifier key).
Proof. unfold get_property_prog. solve_wf. Qed.

Lemma void_prog_wf {R} b d (p : prog R) : wf b d p -> wf b d (void_prog p).
Proof. induction 1; cbn; constructor; auto. Qed.

Lemma prog_seq_wf b d (p : prog unit) (q : prog unit) :
  wf b d p -> wf b 0 q -> wf b d (prog_seq p q).
Proof. induction 1 as [[]| | |]; intros Hq; cbn; [done | constructor; auto..]. Qed.

Lemma wf_relax d (p : prog unit) : wf true d p -> wf false d p.
Proof. induction 1; constructor; auto; discriminate. Qed.

Lemma locked_method_wf p : locked_method p -> wf true 0 p.
Proof.
  destruct 1; apply void_prog_wf; [exact term_prog_wf | apply register_callback_prog_wf | apply enumerate_prog_wf].
Qed.

Lemma program_method_wf p : program_method p -> wf false 0 p.
Proof.
  destruct 1; [apply wf_relax, locked_method_wf; done | exact event_prog_wf | apply void_prog_wf, get_property_prog_wf].
Qed.

Lemma calls_wf (M : prog unit -> Prop) b p : (forall m, M m -> wf b 0 m) -> calls M p -> wf b 0 p.
Proof. intros HM. induction 1; [constructor | apply prog_seq_wf; auto]. Qed.

Lemma program_threads_wf strict ths :
  program_threads strict ths -> forall t p, ths !! t = Some p -> wf (strict t) 0 p.
Proof.
  intros H t p Hp. specialize (H t p Hp). destruct (strict t).
  - exact (calls_wf _ _ _ locked_method_wf H).
  - exact (calls_wf _ _ _ program_method_wf H).
Qed.

Lemma depth_pos m t : 0 < depth m t -> mx_owner m = Some t.
Proof. unfold depth. case_decide; [done | lia]. Qed.

Lemma lock_depth t m rc m' :
  pthread_mutex_lock t m = Some (rc, m') ->
  rc = 0%Z /\ depth m' t = S (depth m t) /\ forall t', t' <> t -> depth m' t' = depth m t'.
Proof.
  unfold pthread_mutex_lock, depth. destruct (mx_owner m) as [o|] eqn:Ho.
  - case_decide as Hot; [subst o|done]. destruct (mx_type m); [done|]. intros [= <- <-]. cbn.
    rewrite !decide_True by done. split; [done|split; [done|]].
    intros t' Ht'. by rewrite !decide_False by congruence.
  - intros [= <- <-]. cbn. rewrite decide_True, decide_False by done.
    split; [done|split; [done|]]. intros t' Ht'. by rewrite !decide_False by congruence.
Qed.

Lemma unlock_depth t m d :
  depth m t = S d ->
  (pthread_mutex_unlock t m).1 = 0%Z /\ depth (pthread_mutex_unlock t m).2 t = d /\
  forall t', t' <> t -> depth (pthread_mutex_unlock t m).2 t' = depth m t'.
Proof.
  intros Hd. pose proof (depth_pos m t ltac:(lia)) as Ho.
  unfold depth in Hd. rewrite decide_True in Hd by done.
  unfold pthread_mutex_unlock, depth. rewrite Ho, decide_True by done. cbn.
  destruct (decide (mx_count m <= 1)); cbn.
  - rewrite decide_False by done. split; [done | split; [lia|]].
    intros t' Ht'. by rewrite !decide_False by congruence.
  - rewrite decide_True by done. split; [done | split; [lia|]].
    intros t' Ht'. by rewrite !decide_False by congruence.
Qed.

Section Pool.
(** Which threads keep the spec's lock discipline. *)
Variable strict : tid -> bool.

(** No REPORT_IF_UNEQUAL has fired, and each thread's remaining code is
    well formed at the depth to which it holds the mutex. *)
Definition pool_inv (ps : pool) : Prop :=
  reports ps = 0 /\ forall t p, threads ps !! t = Some p -> wf (strict t) (depth (pool_mutex ps) t) p.

Lemma pool_inv_insert ps t k m' :
  (forall t', t' <> t -> depth m' t' = depth (pool_mutex ps) t') ->
  (forall t' p, threads ps !! t' = Some p -> wf (strict t') (depth (pool_mutex ps) t') p) ->
  wf (strict t) (depth m' t) k ->
  forall t' p, <[t := k]> (threads ps) !! t' = Some p -> wf (strict t') (depth m' t') p.
Proof.
  intros Ho Hw Hk t' p. rewrite lookup_insert_Some. intros [[<- <-]|[Hne Hp]]; [done|].
  rewrite Ho by done. eauto.
Qed.

Lemma pool_step_inv ps ps' : pool_inv ps -> pool_step ps ps' -> pool_inv ps'.
Proof.
  intros [Hr Hw] Hs. destruct Hs as [t ps Ht|t k rc m' ps Ht Hl|t k ps Ht|t g A m k a w' ps Ht Hm].
  - split; [done|]. intros t' p. cbn. rewrite lookup_delete_Some. intros [_ Hp]. eauto.
  - apply Hw, wf_inv in Ht. cbn in Ht. destruct (lock_depth _ _ _ _ Hl) as (-> & Hd & Ho).
    split; [done|]. cbn. apply (pool_inv_insert ps t k m'); [done | done | by rewrite Hd].
  - apply Hw, wf_inv in Ht as (d & Hd & Hk). destruct (unlock_depth _ _ _ Hd) as (Hrc & Hd' & Ho).
    split; [cbn; unfold report; by rewrite Hrc|].
    cbn. apply (pool_inv_insert ps t k (pthread_mutex_unlock t (pool_mutex ps)).2); [done | done | by rewrite Hd'].
  - apply Hw, wf_inv in Ht as (_ & _ & Hk). split; [done|]. cbn.
    apply (pool_inv_insert ps t (k a) (pool_mutex ps)); auto.
Qed.

Lemma pool_reachable_inv ps0 ps : pool_inv ps0 -> rtc pool_step ps0 ps -> pool_inv ps.
Proof. induction 2; eauto using pool_step_inv. Qed.

Lemma initial_pool_inv ths w :
  (forall t p, ths !! t = Some p -> wf (strict t) 0 p) -> pool_inv (initial_pool ths w).
Proof. intros H. split; [done|]. exact H. Qed.

(** A disciplined thread about to touch guarded state holds the mutex; one
    about to call the callback does not. *)
Lemma pool_inv_guarded ps t :
  pool_inv ps -> strict t = true -> guarded_next ps t -> mx_owner (pool_mutex ps) = Some t.
Proof.
  intros [_ Hw] Hs (A & m & k & Ht). apply Hw, wf_inv in Ht as (Hg & _). apply depth_pos, Hg; done.
Qed.

Lemma pool_inv_callback ps t :
  pool_inv ps -> strict t = true -> callback_next ps t -> depth (pool_mutex ps) t = 0.
Proof. intros [_ Hw] Hs (A & m & k & Ht). apply Hw, wf_inv in Ht as (_ & Hc & _). by apply Hc. Qed.

(** The owner of the mutex holds it at least once and is still running. *)
Definition pool_live (ps : pool) : Prop :=
  forall o, mx_owner (pool_mutex ps) = Some o -> 0 < mx_count (pool_mutex ps) /\ is_Some (threads ps !! o).

Lemma lock_owner t m rc m' :
  pthread_mutex_lock t m = Some (rc, m') -> mx_owner m' = Some t /\ 0 < mx_count m'.
Proof.
  unfold pthread_mutex_lock. intros Hl. repeat case_match; simplify_eq/=; split; (done || lia).
Qed.

Lemma unlock_owner t m o :
  (forall o', mx_owner m = Some o' -> 0 < mx_count m) ->
  mx_owner (pthread_mutex_unlock t m).2 = Some o ->
  mx_owner m = Some o /\ 0 < mx_count (pthread_mutex_unlock t m).2.
Proof.
  intros Hc. unfold pthread_mutex_unlock. destruct (mx_owner m) as [o'|] eqn:Ho; cbn.
  - case_decide; cbn.
    + destruct (decide (mx_count m <= 1)); cbn; [done|]. intros [= ->]. subst. split; [done | lia].
    + intros Hm. rewrite Ho in Hm. injection Hm as ->. split; [done | by eapply Hc].
  - intros Hm. by rewrite Ho in Hm.
Qed.

Lemma pool_step_live ps ps' : pool_inv ps -> pool_live ps -> pool_step ps ps' -> pool_live ps'.
Proof.
  intros [_ Hw] Hl Hs. destruct Hs as [t ps Ht|t k rc m' ps Ht Hlk|t k ps Ht|t g A m k a w' ps Ht Hm];
    intros o Ho; cbn in *.
  - destruct (Hl o Ho) as [Hc Hs]. split; [done|].
    apply Hw, wf_inv in Ht. cbn in Ht. unfold depth in Ht. rewrite Ho in Ht.
    destruct (decide (o = t)) as [->|Hne]; [rewrite decide_True in Ht by done; lia|].
    by rewrite lookup_delete_ne.
  - destruct (lock_owner _ _ _ _ Hlk) as [Ho' Hc]. rewrite Ho' in Ho. injection Ho as <-.
    split; [done|]. apply lookup_insert_is_Some; by left.
  - destruct (unlock_owner t (pool_mutex ps) o (fun o' H => proj1 (Hl o' H)) Ho) as [Ho' Hc].
    split; [done|]. destruct (decide (o = t)) as [->|Hne]; [apply lookup_insert_is_Some; by left|].
    rewrite lookup_insert_ne by done. apply Hl, Ho'.
  - destruct (Hl o Ho) as [Hc Hs]. split; [done|].
    destruct (decide (o = t)) as [->|Hne]; [apply lookup_insert_is_Some; by left | by rewrite lookup_insert_ne].
Qed.

Lemma pool_reachable_live ps0 ps :
  pool_inv ps0 -> pool_live ps0 -> rtc pool_step ps0 ps -> pool_inv ps /\ pool_live ps.
Proof.
  intros Hi Hl Hr. induction Hr as [ps|ps1 ps2 ps3 Hs _ IH]; [done|].
  apply IH; [exact (pool_step_inv _ _ Hi Hs) | exact (pool_step_live _ _ Hi Hl Hs)].
Qed.

(** No call changes the mutex's type. *)
Lemma pool_step_type ps ps' : pool_step ps ps' -> mx_type (pool_mutex ps') = mx_type (pool_mutex ps).
Proof.
  destruct 1 as [t ps Ht|t k rc m' ps Ht Hlk|t k ps Ht|t g A m k a w' ps Ht Hm]; cbn; [done| | |done].
  - revert Hlk. unfold pthread_mutex_lock. intros Hl. repeat case_match; by simplify_eq/=.
  - unfold pthread_mutex_unlock. by repeat case_match.
Qed.

Lemma pool_reachable_type ps0 ps : rtc pool_step ps0 ps -> mx_type (pool_mutex ps) = mx_type (pool_mutex ps0).
Proof. induction 1 as [|ps1 ps2 ps3 Hs _ IH]; [done|]. by rewrite IH, (pool_step_type _ _ Hs). Qed.

(** A thread the mutex does not keep waiting steps, or its step faults. *)
Lemma thread_progress ps t p :
  mx_type (pool_mutex ps) = PTHREAD_MUTEX_RECURSIVE ->
  threads ps !! t = Some p -> mx_owner (pool_mutex ps) = None \/ mx_owner (pool_mutex ps) = Some t ->
  (exists ps', pool_step ps ps') \/
  (exists t' g A (m : ST machine A) k f, threads ps !! t' = Some (Act g m k) /\ m (world ps) = Crash f).
Proof.
  intros Hty Ht Ho. destruct p as [[]|k|k|g A m k].
  - left. eexists. by apply pool_ret.
  - left. destruct (pthread_mutex_lock t (pool_mutex ps)) as [[rc m']|] eqn:Hlk.
    + eexists. by eapply pool_lock.
    + unfold pthread_mutex_lock in Hlk. destruct Ho as [Ho|Ho]; rewrite Ho in Hlk; [done|].
      by rewrite decide_True, Hty in Hlk.
  - left. eexists. by apply pool_unlock.
  - destruct (m (world ps)) as [[a w']|f] eqn:Hm.
    + left. eexists. by eapply pool_act.
    + right. by exists t, g, A, m, k, f.
Qed.

End Pool.

(** ** Any threads with balanced lock calls *)

Section Balanced.
Variable strict : tid -> bool.
Variable ths : gmap tid (prog unit).
Hypothesis ths_wf : forall t p, ths !! t = Some p -> wf (strict t) 0 p.

Lemma balanced_reachable w ps :
  rtc pool_step (initial_pool ths w) ps -> pool_inv strict ps /\ pool_live ps /\
  mx_type (pool_mutex ps) = PTHREAD_MUTEX_RECURSIVE.
Proof.
  intros Hr.
  destruct (pool_reachable_live strict _ _ (initial_pool_inv strict ths w ths_wf) (fun o Ho => ltac:(discriminate Ho)) Hr)
    as [Hi Hl].
  split; [done|]. split; [done|]. by rewrite (pool_reachable_type _ _ Hr).
Qed.

Lemma balanced_mutual_exclusion w ps t1 t2 :
  rtc pool_step (initial_pool ths w) ps -> strict t1 = true -> strict t2 = true ->
  guarded_next ps t1 -> guarded_next ps t2 -> t1 = t2.
Proof.
  intros Hr Hs1 Hs2 Hg1 Hg2. destruct (balanced_reachable w ps Hr) as [Hi _].
  pose proof (pool_inv_guarded strict ps t1 Hi Hs1 Hg1) as H1.
  pose proof (pool_inv_guarded strict ps t2 Hi Hs2 Hg2) as H2. congruence.
Qed.

Lemma balanced_progress w ps :
  rtc pool_step (initial_pool ths w) ps -> threads ps <> ∅ ->
  (exists ps', pool_step ps ps') \/
  (exists t g A (m : ST machine A) k f, threads ps !! t = Some (Act g m k) /\ m (world ps) = Crash f).
Proof.
  intros Hr Hne. destruct (balanced_reachable w ps Hr) as (_ & Hl & Hty).
  destruct (mx_owner (pool_mutex ps)) as [o|] eqn:Ho.
  - destruct (Hl o Ho) as [_ [p Hp]]. exact (thread_progress ps o p Hty Hp (or_intror Ho)).
  - apply map_choose in Hne as (t & p & Hp). exact (thread_progress ps t p Hty Hp (or_introl Ho)).
Qed.

Lemma balanced_exit_unlocked w ps :
  rtc pool_step (initial_pool ths w) ps -> threads ps = ∅ -> mx_owner (pool_mutex ps) = None.
Proof.
  intros Hr He. destruct (balanced_reachable w ps Hr) as (_ & Hl & _).
  destruct (mx_owner (pool_mutex ps)) as [o|] eqn:Ho; [|done].
  destruct (Hl o Ho) as [_ Hs]. rewrite He, lookup_empty in Hs. by apply is_Some_None in Hs.
Qed.

End Balanced.

(** ** Theorems *)

(** C29: [term], [register_callback] and [enumerate_connected_devices]
    keep the spec's lock discipline: every read or write of the registry,
    the identifier counter or the callback slot holds [m_mutex], and every
    lock is matched by one unlock on every path. The monitor's
    [process_udev_monitor_event] is balanced but breaks the discipline (it
    reads [m_callback] after unlocking), and [get_property] takes no lock
    at all while it reads the registry. *)
Theorem lock_discipline env callback callback_data out_ptrs identifier key :
  wf true 0 term_prog /\ wf true 0 (register_callback_prog callback callback_data out_ptrs) /\
  wf true 0 (enumerate_prog env) /\ wf false 0 event_prog /\
  ~ wf true 0 event_prog /\ ~ wf true 0 (get_property_prog identifier key).
Proof.
  split; [exact term_prog_wf|]. split; [apply register_callback_prog_wf|].
  split; [apply enumerate_prog_wf|]. split; [exact event_prog_wf|]. split.
  - intros H. apply wf_inv in H as (_ & _ & H). specialize (H (Some 1%positive)).
    apply wf_inv in H as (_ & _ & H). specialize (H None).
    apply wf_inv in H as (_ & _ & H). specialize (H true).
    apply wf_inv in H. apply wf_inv in H as (_ & _ & H). specialize (H (true, 1%Z)).
    apply wf_inv in H as (d & Hd & H). apply wf_inv in H as (Hg & _). specialize (Hg eq_refl eq_refl). lia.
  - intros H. apply wf_inv in H as (Hg & _). specialize (Hg eq_refl eq_refl). lia.
Qed.

(** C30: Whatever the interleaving of the program's threads (clients
    calling [term], [register_callback], enumeration and [get_property]
    any number of times, the monitor thread handling events), no
    REPORT_IF_UNEQUAL around a lock call fires, and of the threads that
    only call the locked methods at most one is about to touch the
    registry or the callback slot at any time. *)
Theorem pool_mutual_exclusion (strict : tid -> bool) ths w ps :
  program_threads strict ths -> rtc pool_step (initial_pool ths w) ps ->
  reports ps = 0 /\
  (forall t1 t2, strict t1 = true -> strict t2 = true ->
                 guarded_next ps t1 -> guarded_next ps t2 -> t1 = t2).
Proof.
  intros Hths Hr. pose proof (program_threads_wf strict ths Hths) as Hwf.
  split; [apply (balanced_reachable strict ths Hwf w ps Hr)|].
  intros t1 t2. exact (balanced_mutual_exclusion strict ths Hwf w ps t1 t2 Hr).
Qed.

(** C31: The program's threads never deadlock on [m_mutex]: while a
    thread is left, one of them (the owner, if the mutex is held) can
    take a step, unless that step faults. *)
Theorem pool_no_deadlock (strict : tid -> bool) ths w ps :
  program_threads strict ths -> rtc pool_step (initial_pool ths w) ps -> threads ps <> ∅ ->
  (exists ps', pool_step ps ps') \/
  (exists t g A (m : ST machine A) k f, threads ps !! t = Some (Act g m k) /\ m (world ps) = Crash f).
Proof. intros Hths. exact (balanced_progress strict ths (program_threads_wf strict ths Hths) w ps). Qed.

(** C32: Once every thread of the program has returned, [m_mutex] is
    free: the destructor's [pthread_mutex_destroy(&m_mutex)] (197)
    returns 0, never [EBUSY], and no lock call reported an error. *)
Theorem pool_destroy_after_exit (strict : tid -> bool) ths w ps :
  program_threads strict ths -> rtc pool_step (initial_pool ths w) ps -> threads ps = ∅ ->
  pthread_mutex_destroy (pool_mutex ps) = 0%Z /\ reports ps = 0.
Proof.
  intros Hths Hr He. pose proof (program_threads_wf strict ths Hths) as Hwf.
  split; [|apply (balanced_reachable strict ths Hwf w ps Hr)].
  unfold pthread_mutex_destroy. by rewrite (balanced_exit_unlocked strict ths Hwf w ps Hr He).
Qed.

(** ** Witnesses *)

(** One step of thread [t] of a concrete pool; a machine step's result
    is computed. *)
Ltac pool_step_of t :=
  eapply rtc_l;
  [first [ eapply (pool_lock t); reflexivity | eapply (pool_unlock t); reflexivity
         | eapply (pool_ret t); reflexivity
         | eapply (pool_act t);
           [reflexivity | match goal with |- ?e = Ok _ =>
                            let v := eval vm_compute in e in change e with v; reflexivity end]]|].

(** A client thread 0 calling [term], the monitor thread 1 handling an
    event and a client thread 2 enumerating, on the scenario's machine. *)
Definition demo_threads : gmap tid (prog unit) :=
  <[0 := prog_seq (void_prog term_prog) (Ret tt)]> (<[1 := prog_seq event_prog (Ret tt)]>
    (<[2 := prog_seq (void_prog (enumerate_prog (mkEnum true true true []))) (Ret tt)]> ∅)).

(** The monitor thread does not only call locked methods. *)
Definition demo_strict (t : tid) : bool := negb (Nat.eqb t 1).

Lemma demo_program_threads : program_threads demo_strict demo_threads.
Proof.
  intros t p Hp. unfold demo_threads in Hp.
  repeat (rewrite lookup_insert_Some in Hp; destruct Hp as [[<- <-]|[_ Hp]];
          [cbn [demo_strict negb Nat.eqb];
           repeat first [apply calls_done | apply calls_seq | apply pm_event | apply lm_term
                        | apply lm_enumerate | apply pm_locked] |]).
  by rewrite lookup_empty in Hp.
Qed.

(** The theorem after thread 0 has taken the mutex. *)
Lemma pool_mutual_exclusion_witness :
  exists ps, rtc pool_step (initial_pool demo_threads boot) ps /\ reports ps = 0 /\
    (forall t1 t2, demo_strict t1 = true -> demo_strict t2 = true ->
                   guarded_next ps t1 -> guarded_next ps t2 -> t1 = t2).
Proof.
  assert (Hr : exists ps, rtc pool_step (initial_pool demo_threads boot) ps).
  { eexists. pool_step_of 0. apply rtc_refl. }
  destruct Hr as (ps & Hr). exists ps. split; [exact Hr|].
  exact (pool_mutual_exclusion demo_strict demo_threads boot ps demo_program_threads Hr).
Defined.

Lemma pool_no_deadlock_witness :
  exists ps, rtc pool_step (initial_pool demo_threads boot) ps /\
    ((exists ps', pool_step ps ps') \/
     (exists t g A (m : ST machine A) k f, threads ps !! t = Some (Act g m k) /\ m (world ps) = Crash f)).
Proof.
  assert (Hr : exists ps, rtc pool_step (initial_pool demo_threads boot) ps /\ threads ps <> ∅).
  { eexists. split; [pool_step_of 0; apply rtc_refl | apply insert_non_empty]. }
  destruct Hr as (ps & Hr & Hne). exists ps. split; [exact Hr|].
  exact (pool_no_deadlock demo_strict demo_threads boot ps demo_program_threads Hr Hne).
Defined.

(** A single client thread calling [term] after the scenario's
    enumeration, run to its end. *)
Definition solo_term : gmap tid (prog unit) := {[0 := prog_seq (void_prog term_prog) (Ret tt)]}.

Lemma pool_destroy_after_exit_witness :
  exists ps, rtc pool_step (initial_pool solo_term enumerated) ps /\ threads ps = ∅ /\
             pthread_mutex_destroy (pool_mutex ps) = 0%Z /\ reports ps = 0.
Proof.
  assert (Hr : exists ps, rtc pool_step (initial_pool solo_term enumerated) ps /\ threads ps = ∅).
  { eexists. split.
    - do 5 pool_step_of 0. apply rtc_refl.
    - reflexivity. }
  destruct Hr as (ps & Hr & He). exists ps. split; [exact Hr|]. split; [exact He|].
  apply (pool_destroy_after_exit (fun _ => true) solo_term enumerated ps); [|exact Hr|exact He].
  intros t p Hp. unfold solo_term in Hp. apply lookup_singleton_Some in Hp as [<- <-].
  repeat constructor.
Defined.

End Mutex.
