(* ===== verification/Harness.v ===== *)
(** * The command-line test harness

    [src/src/usbtest.cpp] is an interactive client of the library: a menu
    loop ([launcher], 79-173) reads a command number from [std::cin] and
    calls [rusbCtrl_init], [rusbCtrl_term], [rusbCtrl_registerCallback] or
    [rusbCtrl_getProperty]; its [callback] (26-43), run by the library's
    monitor thread, prints each notification and keeps the global
    [connected_device_ids] up to date.

    The process is the library's machine and the harness's globals. The
    harness's thread runs one menu iteration at a time; the library calls
    it back from the monitor thread at the end of a monitor step, which
    is where the code calls [m_callback] (the last statement of
    [process_udev_monitor_event]). [pstep] interleaves the two.

    The input is what the user types, the output what the harness prints
    ([Stream] models the two streams). The library's enumeration at
    [rusbCtrl_init] is the parameter [env]; the launcher runs with a fuel
    bound on its passes, and [main] returns [None] when the fuel runs out.

    The theorems: at end of file the menu loop never ends; registering
    while no device is known frees an uninitialised pointer, and
    registering twice lists every device twice; every connection callback
    and every answered property query reads past the buffer the library
    returns; and each pass consumes input until only end of file is
    left.

    Not modelled: the reallocation of [callback_payload]'s buffer when a
    longer payload is read while the library still holds its old
    [c_str()] (the model prints the current payload), and the race
    between [callback] and the main thread on [connected_device_ids]
    (a menu pass is one atomic step). *)

From S2P Require Import Prelude CString Platform State Registry Property Monitor Api Stream Scenario.
From Stdlib Require Import Ascii.

Module Harness.
Import CString Udev State Registry Property Monitor Api IOStream Scenario.
Local Open Scope st_scope.

(** The globals of [usbtest.cpp] and the flag of [launcher]. *)
Record harness := mkHarness {
  connected_device_ids : list Z;  (** [static std::list<int> connected_device_ids] (25) *)
  callback_payload : string;      (** [static std::string callback_payload] (60) *)
  keep_running : bool;            (** [launcher]'s [keep_running] (81) *)
  cin : list ascii;               (** what [std::cin] has not delivered yet *)
  cout : list ascii               (** what [std::cout] has printed *)
}.

(** The process: the library's [static device_manager manager] and the
    harness. *)
Record proc := mkProc { pm : machine; app : harness }.

Definition set_ids (l : list Z) (h : harness) : harness :=
  mkHarness l (callback_payload h) (keep_running h) (cin h) (cout h).
Definition set_payload (s : string) (h : harness) : harness :=
  mkHarness (connected_device_ids h) s (keep_running h) (cin h) (cout h).
Definition set_running (b : bool) (h : harness) : harness :=
  mkHarness (connected_device_ids h) (callback_payload h) b (cin h) (cout h).
Definition set_cin (l : list ascii) (h : harness) : harness :=
  mkHarness (connected_device_ids h) (callback_payload h) (keep_running h) l (cout h).
Definition set_cout (l : list ascii) (h : harness) : harness :=
  mkHarness (connected_device_ids h) (callback_payload h) (keep_running h) (cin h) l.
Definition modify_app (f : harness -> harness) (p : proc) : proc := mkProc (pm p) (f (app p)).
Definition set_pm (w : machine) (p : proc) : proc := mkProc w (app p).

(** A call into the library. *)
Definition on_lib {A} (m : ST machine A) : ST proc A :=
  fun p => match m (pm p) with
           | Ok (a, w) => Ok (a, set_pm w p)
           | Crash f => Crash f
           end.

(** [std::cout << ...]; [say_line] is a literal ending in a newline. *)
Definition out (s : list ascii) : ST proc unit :=
  st_modify (modify_app (fun h => set_cout (cout h ++ s) h)).
Definition say (s : string) : ST proc unit := out (put_str s).
Definition say_line (s : string) : ST proc unit := out (put_str s ++ [newline]).

(** What a [const char *] made by [c_str()] shows: up to the first NUL. *)
Definition c_str (s : string) : string := ctrunc (String.length s) s.

(** [std::cout << p] for a [const char *p] from the library: NULL is
    undefined behaviour; otherwise the characters up to the terminator,
    which must lie inside the allocation. *)
Definition print_c_str (p : option buffer) : ST proc unit :=
  match p with
  | None => st_crash NullDeref
  | Some b => match c_str_read b with
              | Some s => say s
              | None => st_crash BufferOverflow
              end
  end.

(** [std::cin >> n] and [std::cin >> s]. *)
Definition cin_int : ST proc (option Z) :=
  r <- st_gets (fun p => read_int (cin (app p))) ;;
  st_modify (modify_app (set_cin r.2)) ;; ret r.1.
Definition cin_word : ST proc (option string) :=
  r <- st_gets (fun p => read_word (cin (app p))) ;;
  st_modify (modify_app (set_cin r.2)) ;; ret r.1.

(** [std::cin.clear(); std::cin.ignore(10000, '\n');]: the model keeps
    no error flags, so [clear] has nothing to reset. *)
Definition cin_recover : ST proc unit :=
  st_modify (modify_app (fun h => set_cin (ignore 10000 newline (cin h)) h)).

(** The function pointer [callback] and [callback_payload.c_str()] as
    the library stores them: two distinct non-NULL addresses. *)
Definition callback_ptr : Z := 1.
Definition payload_ptr : Z := 2.

(** [void callback(int id, int connected, void *data)]; [data] is
    [callback_payload.c_str()]. [free] of a buffer the library returned
    changes nothing the model keeps. *)
Definition callback (id connected : Z) : ST proc unit :=
  payload <- st_gets (fun p => callback_payload (app p)) ;;
  say "Enter callback. Payload is " ;; say (c_str payload) ;; out [newline] ;;
  if decide (connected <> 0%Z) then
    prop <- on_lib (rusbCtrl_getProperty id "product") ;;
    say "device " ;; out (put_int id) ;; say_line " is connected" ;;
    say "Product: " ;; print_c_str prop ;; out [newline] ;;
    st_modify (modify_app (fun h => set_ids (connected_device_ids h ++ [id]) h))
  else
    st_modify (modify_app (fun h => set_ids (filter (fun i => i <> id) (connected_device_ids h)) h)) ;;
    say "device " ;; out (put_int id) ;; say_line " was removed".

Definition print_menu : ST proc unit :=
  out (newline :: put_str "--- libusbctrl test application menu ---" ++ [newline]) ;;
  say_line "1. rusbbCtrl_init()" ;;
  say_line "2. rusbbCtrl_term()" ;;
  say_line "3. rusbCtrl_registerCallback()" ;;
  say_line "4. rusbCtrl_getProperty()" ;;
  say_line "5. List hot-plugged dev_ids (not thread-safe)." ;;
  say_line "9. Quit.".

Definition dump_connected_devices : ST proc unit :=
  say_line "Hot-plugged device ids:" ;;
  ids <- st_gets (fun p => connected_device_ids (app p)) ;;
  if decide (length ids = 0) then say_line "No devices detected so far."
  else st_iter (fun i => say "[" ;; out (put_int i) ;; say "] ") ids ;; out [newline].

(** [for (i = 0; i < device_list_size; i++)
    connected_device_ids.push_back(device_list_ptr[i])]: [None] is a
    pointer the library did not write. *)
Definition push_device_list (size : Z) (lst : option (list Z)) : ST proc unit :=
  if decide (size <= 0)%Z then ret tt
  else match lst with
       | None => st_crash InvalidPointer
       | Some l =>
           if decide (Z.to_nat size <= length l) then
             st_modify (modify_app (fun h => set_ids (connected_device_ids h ++ take (Z.to_nat size) l) h))
           else st_crash BufferOverflow
       end.

(** [free(device_list_ptr)]: freeing a pointer that was never set is
    undefined behaviour. *)
Definition free_device_list (lst : option (list Z)) : ST proc unit :=
  match lst with None => st_crash InvalidPointer | Some _ => ret tt end.

Definition bad_input : ST proc unit := say_line "Whoops! Bad input." ;; cin_recover.

(** [case 3]: [&device_list_ptr] and [&device_list_size] are non-NULL. *)
Definition register_command : ST proc unit :=
  say_line "Enter a string for callback_payload. This will be used to identify the callback you register." ;;
  w <- cin_word ;;
  match w with
  | None => bad_input
  | Some s =>
      st_modify (modify_app (set_payload s)) ;;
      r <- on_lib (rusbCtrl_registerCallback callback_ptr payload_ptr true) ;;
      match r with
      | (RUSBCTRL_FAILURE, _) => say_line "Failed to register callback."
      | (RUSBCTRL_SUCCESS, None) => st_crash InvalidPointer
      | (RUSBCTRL_SUCCESS, Some (size, lst)) =>
          say "Registered callback with payload " ;; say s ;; out [newline] ;;
          push_device_list size lst ;; free_device_list lst ;; dump_connected_devices
      end
  end.

(** [case 4]. *)
Definition property_command : ST proc unit :=
  say_line "Enter devId(integer) and property(string) separated by a space." ;;
  say_line "Some examples of properties: product serial manufacturer idProduct idVendor" ;;
  i <- cin_int ;;
  match i with
  | None => bad_input
  | Some dev_id =>
      w <- cin_word ;;
      match w with
      | None => bad_input
      | Some property =>
          say "Querying property " ;; say property ;; say " for dev_id " ;;
          out (put_int dev_id) ;; out [newline] ;;
          result <- on_lib (rusbCtrl_getProperty dev_id (c_str property)) ;;
          match result with
          | None => say_line "Query returned NULL!"
          | Some b => say "Query returned " ;; print_c_str (Some b) ;; out [newline]
          end
      end
  end.

(** The [switch (choice)]; [env] is what libudev's enumeration lists. *)
Definition command (env : enum_env) (choice : Z) : ST proc unit :=
  if decide (choice = 1%Z) then _ <- on_lib (rusbCtrl_init env) ;; ret tt
  else if decide (choice = 2%Z) then
    _ <- on_lib rusbCtrl_term ;; st_modify (modify_app (set_ids []))
  else if decide (choice = 3%Z) then register_command
  else if decide (choice = 4%Z) then property_command
  else if decide (choice = 5%Z) then dump_connected_devices
  else if decide (choice = 9%Z) then
    st_modify (modify_app (set_running false)) ;; say_line "Quitting."
  else say_line "Unknown input!".

(** One pass of [while (keep_running)]: a failed extraction prints
    [Oops!], recovers the stream and [continue]s. *)
Definition launcher_iteration (env : enum_env) : ST proc unit :=
  print_menu ;;
  say_line "Enter command:" ;;
  choice <- cin_int ;;
  match choice with
  | None => say_line "Oops!" ;; cin_recover
  | Some c => command env c
  end.

(** At most [fuel] passes of the loop; [true] when it has exited. *)
Fixpoint launcher_loop (env : enum_env) (fuel : nat) : ST proc bool :=
  match fuel with
  | O => ret false
  | S f =>
      running <- st_gets (fun p => keep_running (app p)) ;;
      if running then (launcher_iteration env ;; launcher_loop env f) else ret true
  end.

Definition launcher (env : enum_env) (fuel : nat) : ST proc bool :=
  st_modify (modify_app (set_running true)) ;; launcher_loop env fuel.

(** [int main()]: [Some 0] when [launcher] returns within [fuel] passes. *)
Definition main (env : enum_env) (fuel : nat) : ST proc (option Z) :=
  finished <- launcher env fuel ;; ret (if finished then Some 0%Z else None).

(** The process at [main]: [connected_device_ids] empty (25),
    [callback_payload] ["Uninitialized"] (60), [input] on [std::cin],
    nothing printed yet; the library in state [w]. *)
Definition initial_proc (w : machine) (input : string) : proc :=
  mkProc w (mkHarness [] "Uninitialized" true (String.list_ascii_of_string input) []).

(** The library's callbacks, in the order it made them. *)
Definition run_callbacks (cs : list callback_call) : ST proc unit :=
  st_iter (fun c => callback (cc_identifier c) (cc_connected c)) cs.

(** The process: the harness's thread runs a menu iteration, or the
    monitor thread takes a step and then runs the callbacks it made. *)
Inductive pstep (env : enum_env) : proc -> proc -> Prop :=
  | ps_main p p' :
      keep_running (app p) = true -> launcher_iteration env p = Ok (tt, p') -> pstep env p p'
  | ps_monitor p w p' :
      mstep (pm p) w ->
      run_callbacks (drop (length (calls (pm p))) (calls w)) (set_pm w p) = Ok (tt, p') ->
      pstep env p p'.

(** ** Lemmas *)

(** [m] prints [t] and changes nothing else. *)
Definition writes (m : ST proc unit) (t : list ascii) : Prop :=
  forall p, m p = Ok (tt, modify_app (fun h => set_cout (cout h ++ t) h) p).

Lemma writes_out s : writes (out s) s.
Proof. intros p. reflexivity. Qed.

Lemma writes_seq m1 m2 t1 t2 : writes m1 t1 -> writes m2 t2 -> writes (m1 ;; m2) (t1 ++ t2).
Proof.
  intros H1 H2 p. unfold st_bind. rewrite H1, H2. unfold modify_app, set_cout. simpl.
  by rewrite app_assoc.
Qed.

(** What [print_menu] prints. *)
Definition menu_text : list ascii :=
  (newline :: put_str "--- libusbctrl test application menu ---" ++ [newline]) ++
  (put_str "1. rusbbCtrl_init()" ++ [newline]) ++
  (put_str "2. rusbbCtrl_term()" ++ [newline]) ++
  (put_str "3. rusbCtrl_registerCallback()" ++ [newline]) ++
  (put_str "4. rusbCtrl_getProperty()" ++ [newline]) ++
  (put_str "5. List hot-plugged dev_ids (not thread-safe)." ++ [newline]) ++
  (put_str "9. Quit." ++ [newline]).

(** What a pass prints when no command can be extracted. *)
Definition eof_output : list ascii :=
  menu_text ++ (put_str "Enter command:" ++ [newline]) ++ (put_str "Oops!" ++ [newline]).

Lemma print_menu_writes : writes print_menu menu_text.
Proof. unfold print_menu, say_line, menu_text. repeat apply writes_seq; apply writes_out. Qed.

Lemma launcher_iteration_eof env p :
  Forall (fun c => is_space c = true) (cin (app p)) ->
  launcher_iteration env p =
    Ok (tt, modify_app (fun h => set_cin [] (set_cout (cout h ++ eof_output) h)) p).
Proof.
  intros Hs. unfold launcher_iteration. unfold st_bind at 1. rewrite print_menu_writes.
  destruct p as [w [ids pl kr ci co]]. simpl in Hs.
  unfold cin_int, say_line, out, cin_recover, st_bind, st_gets, st_modify, st_ret. simpl.
  rewrite read_int_spaces by done.
  unfold eof_output, modify_app, set_cin, set_cout. simpl. by rewrite <- ?app_assoc.
Qed.

Lemma launcher_loop_eof env fuel p :
  keep_running (app p) = true -> Forall (fun c => is_space c = true) (cin (app p)) ->
  exists p', launcher_loop env fuel p = Ok (false, p') /\ pm p' = pm p /\
    cout (app p') = cout (app p) ++ concat (replicate fuel eof_output).
Proof.
  revert p. induction fuel as [|f IH]; intros p Hk Hs.
  - exists p. simpl. by rewrite app_nil_r.
  - simpl. unfold st_bind at 1, st_gets. rewrite Hk. unfold st_bind.
    rewrite launcher_iteration_eof by done.
    destruct (IH (modify_app (fun h => set_cin [] (set_cout (cout h ++ eof_output) h)) p))
      as (p' & Hrun & Hpm & Ho); [done | constructor |].
    exists p'. rewrite Hrun. split; [done|]. split; [done|].
    rewrite Ho. cbn [app cout modify_app set_cin set_cout]. rewrite <- app_assoc. reflexivity.
Qed.

Ltac harness_unfold :=
  unfold launcher_iteration, command, register_command, property_command, bad_input,
    dump_connected_devices, print_menu, callback, print_c_str, push_device_list, free_device_list,
    cin_int, cin_word, cin_recover, say_line, say, out.

(** ** What the harness consumes of its input *)

Definition cin_within (n : nat) (p : proc) : Prop := length (cin (app p)) <= n.

Lemma cin_int_run p :
  cin_int p = Ok ((read_int (cin (app p))).1, modify_app (set_cin (read_int (cin (app p))).2) p).
Proof. reflexivity. Qed.

Lemma cin_word_run p :
  cin_word p = Ok ((read_word (cin (app p))).1, modify_app (set_cin (read_word (cin (app p))).2) p).
Proof. reflexivity. Qed.

Lemma cin_int_within n : preserves (cin_within n) cin_int.
Proof.
  intros p r p' Hp. rewrite cin_int_run. intros [= _ <-].
  pose proof (read_int_length (cin (app p))). unfold cin_within in *. simpl. lia.
Qed.

Lemma cin_word_within n : preserves (cin_within n) cin_word.
Proof.
  intros p r p' Hp. rewrite cin_word_run. intros [= _ <-].
  pose proof (read_word_length (cin (app p))). unfold cin_within in *. simpl. lia.
Qed.

Lemma cin_recover_within n : preserves (cin_within n) cin_recover.
Proof.
  intros p r p' Hp [= _ <-]. pose proof (ignore_length 10000 newline (cin (app p))).
  unfold cin_within in *. simpl. lia.
Qed.

Lemma on_lib_within {A} n (m : ST machine A) : preserves (cin_within n) (on_lib m).
Proof.
  intros p a p' Hp Hrun. unfold on_lib in Hrun.
  destruct (m (pm p)) as [[a' w']|]; [by injection Hrun as <- <- | done].
Qed.

#[local] Hint Resolve cin_int_within cin_word_within cin_recover_within on_lib_within : preserves.
#[local] Hint Extern 1 (cin_within _ (modify_app _ _)) => assumption : preserves.

Lemma command_within env c n : preserves (cin_within n) (command env c).
Proof.
  unfold command, register_command, property_command, bad_input, dump_connected_devices,
    print_c_str, push_device_list, free_device_list, say_line, say, out.
  solve_preserves.
Qed.

(** A pass either consumes input or leaves the stream at end of file. *)
Lemma launcher_iteration_consumes env p p' :
  launcher_iteration env p = Ok (tt, p') ->
  length (cin (app p')) < length (cin (app p)) \/ cin (app p') = [].
Proof.
  intros Hrun. unfold launcher_iteration in Hrun.
  apply st_bind_Ok in Hrun as (u1 & p1 & H1 & Hrun). rewrite print_menu_writes in H1. injection H1 as <- <-.
  apply st_bind_Ok in Hrun as (u2 & p2 & H2 & Hrun). injection H2 as <- <-.
  apply st_bind_Ok in Hrun as (r & p3 & H3 & Hrun). rewrite cin_int_run in H3. injection H3 as <- <-.
  cbn [app cin cout modify_app set_cin set_cout] in Hrun |- *.
  destruct (read_int (cin (app p))) as [[c|] r] eqn:Hr; simpl in Hrun.
  - left. apply read_int_some in Hr.
    apply (command_within env c (length r)) in Hrun; [|unfold cin_within; simpl; lia].
    unfold cin_within in Hrun. lia.
  - unfold say_line, out, cin_recover, st_bind, st_modify in Hrun. injection Hrun as <-. simpl.
    apply read_int_none in Hr as [[_ ->]|[[Hne Hle]|Hlt]]; [by right| |]; left.
    + pose proof (ignore_progress 10000 newline r ltac:(done) Hne). lia.
    + pose proof (ignore_length 10000 newline r). lia.
Qed.


(** [m] only prints, whatever the state. *)
Definition prints (m : ST proc unit) : Prop :=
  forall q, exists t, m q = Ok (tt, modify_app (fun h => set_cout (cout h ++ t) h) q).

Lemma prints_seq m1 m2 : prints m1 -> prints m2 -> prints (m1 ;; m2).
Proof.
  intros H1 H2 q. destruct (H1 q) as [t1 E1].
  destruct (H2 (modify_app (fun h => set_cout (cout h ++ t1) h) q)) as [t2 E2].
  exists (t1 ++ t2). unfold st_bind. rewrite E1, E2. unfold modify_app, set_cout. simpl.
  by rewrite app_assoc.
Qed.

Lemma prints_out s : prints (out s).
Proof. intros q. by exists s. Qed.

Lemma prints_iter {A} (f : A -> ST proc unit) l : (forall x, prints (f x)) -> prints (st_iter f l).
Proof.
  intros Hf. induction l as [|x l IH]; simpl; [|by apply prints_seq].
  intros [w [ids pl kr ci co]]. exists []. unfold st_ret, modify_app, set_cout. simpl. by rewrite app_nil_r.
Qed.

Lemma dump_prints : prints dump_connected_devices.
Proof.
  unfold dump_connected_devices. apply prints_seq; [apply prints_out|].
  intros q. unfold st_bind at 1, st_gets. cbv beta iota.
  destruct (decide _); [apply prints_out|].
  refine (prints_seq _ _ (prints_iter _ _ _) (prints_out _) q).
  intros i. repeat apply prints_seq; apply prints_out.
Qed.

(** ** Property queries from the harness *)

Lemma property_value_owned w id key :
  owns (records w) [] (lib w) -> exists ov, property_value w id key = Ok ov.
Proof.
  intros Hown. unfold property_value.
  destruct (find_by_identifier id (records w)) as [r|] eqn:Hf; [|eauto].
  apply find_by_identifier_elem in Hf as [Hr _].
  destruct (owns_record_live _ _ _ _ Hown Hr) as [d ->]. eauto.
Qed.

Lemma get_property_lib q id key ov :
  property_value (pm q) id key = Ok ov ->
  on_lib (rusbCtrl_getProperty id key) q = Ok (code_bytes <$> ov, q).
Proof.
  intros Hv. unfold on_lib, rusbCtrl_getProperty. rewrite get_property_eq, Hv.
  by destruct q.
Qed.

(** Printing the copy of a value reads past it. *)
Lemma code_bytes_unterminated w id key v :
  sysattrs_c_strings (lib w) -> property_value w id key = Ok (Some v) ->
  c_str_read (code_bytes v) = None.
Proof.
  intros Hc Hv. pose proof (property_value_nul_free _ _ _ _ Hc Hv) as Hn.
  rewrite code_bytes_exact by done. apply c_str_read_no_nul, nul_free_not_elem, Hn.
Qed.

(** ** Theorems *)

Lemma on_lib_run {A} (m : ST machine A) p a w :
  m (pm p) = Ok (a, w) -> on_lib m p = Ok (a, set_pm w p).
Proof. unfold on_lib. by intros ->. Qed.

Lemma push_run q l n :
  n = length l -> 0 < n ->
  push_device_list (Z.of_nat n) (Some l) q =
    Ok (tt, modify_app (fun h => set_ids (connected_device_ids h ++ l) h) q).
Proof.
  intros -> Hn. unfold push_device_list. rewrite decide_False by lia.
  rewrite Nat2Z.id, decide_True, take_ge by done. reflexivity.
Qed.

Lemma register_run w :
  rusbCtrl_registerCallback callback_ptr payload_ptr true w =
  Ok ((RUSBCTRL_SUCCESS, Some (Z.of_nat (length (records w)),
        if decide (records w = []) then None else Some (m_identifier <$> records w))),
      modify_dm (with_callback callback_ptr payload_ptr) w).
Proof.
  unfold rusbCtrl_registerCallback, register_callback, get_connected_devices_list.
  unfold st_bind, st_modify, st_gets, st_ret. cbv beta iota.
  change (records (modify_dm (with_callback callback_ptr payload_ptr) w)) with (records w).
  destruct (records w) as [|r rs]; [done|]. rewrite decide_True by (simpl; lia). reflexivity.
Qed.

(** C24: Menu command 3 after a payload word: with no device known, the
    library leaves [device_list_ptr] unwritten and the harness frees that
    uninitialised pointer; otherwise it appends the identifier snapshot to
    [connected_device_ids] (after what it already held, so registering
    twice lists each device twice), keeps the payload and installs
    [callback]. *)
Theorem register_command_spec p s rest :
  read_word (cin (app p)) = (Some s, rest) ->
  (records (pm p) = [] -> register_command p = Crash InvalidPointer) /\
  (records (pm p) <> [] -> exists p', register_command p = Ok (tt, p') /\
     connected_device_ids (app p') = connected_device_ids (app p) ++ (m_identifier <$> records (pm p)) /\
     callback_payload (app p') = s /\ m_callback (dm (pm p')) = callback_ptr).
Proof.
  intros Hw. destruct p as [w h]. cbn [app pm] in *.
  unfold register_command. cbn -[dump_connected_devices rusbCtrl_registerCallback read_word].
  rewrite Hw. cbn -[dump_connected_devices rusbCtrl_registerCallback].
  rewrite (st_bind_Ok_eq _ _ _ _ _ (on_lib_run _ _ _ _ (register_run _))).
  cbn [pm modify_app]. split; intros Hr.
  - rewrite decide_True by done. rewrite Hr. reflexivity.
  - rewrite decide_False by done. cbn -[dump_connected_devices push_device_list].
    unfold st_bind at 1.
    rewrite push_run by first [by rewrite length_fmap | destruct (records w); [done | simpl; lia]].
    cbn -[dump_connected_devices].
    match goal with |- context [dump_connected_devices ?q] => destruct (dump_prints q) as [t ->] end.
    eexists. split; [reflexivity|]. cbn. auto.
Qed.

(** C25: The harness's [callback] never completes a connection
    notification: it prints the [product] attribute [rusbCtrl_getProperty]
    returns, which is NULL when absent and otherwise a buffer without a
    terminator, so the print faults on every connect. *)
Theorem callback_connect_faults p id connected :
  connected <> 0%Z -> owns (records (pm p)) [] (lib (pm p)) -> sysattrs_c_strings (lib (pm p)) ->
  callback id connected p = Crash NullDeref \/ callback id connected p = Crash BufferOverflow.
Proof.
  intros Hc Hown Hs. destruct (property_value_owned _ id "product" Hown) as [ov Hov].
  unfold callback. cbn -[rusbCtrl_getProperty put_int c_str]. rewrite decide_True by done.
  destruct ov as [v|]; [right | left]; unfold st_bind at 1; erewrite get_property_lib by exact Hov;
    cbn -[put_int c_str c_str_read code_bytes]; [|done].
  by rewrite (code_bytes_unterminated _ _ _ _ Hs Hov).
Qed.

(** C26: Menu command 4 with an identifier and a property name: when the
    device has the property, printing the answer reads past the buffer
    the library returns; when it has none, the harness reports
    [Query returned NULL!] and the library is unchanged. *)
Theorem property_query_answer p dev_id key r1 r2 :
  read_int (cin (app p)) = (Some dev_id, r1) -> read_word r1 = (Some key, r2) ->
  sysattrs_c_strings (lib (pm p)) ->
  (forall v, property_value (pm p) dev_id (c_str key) = Ok (Some v) ->
     property_command p = Crash BufferOverflow) /\
  (property_value (pm p) dev_id (c_str key) = Ok None ->
     exists p', property_command p = Ok (tt, p') /\ pm p' = pm p /\
       (put_str "Query returned NULL!" ++ [newline]) `suffix_of` cout (app p')).
Proof.
  intros Hi Hw Hs. destruct p as [w h]. cbn [app pm] in *.
  unfold property_command. cbn -[read_int read_word rusbCtrl_getProperty put_int c_str].
  rewrite Hi. cbn -[read_word rusbCtrl_getProperty put_int c_str].
  rewrite Hw. cbn -[rusbCtrl_getProperty put_int c_str].
  split; [intros v Hv | intros Hv]; unfold st_bind at 1; erewrite get_property_lib by exact Hv;
    cbn -[put_int c_str c_str_read code_bytes].
  - by rewrite (code_bytes_unterminated _ _ _ _ Hs Hv).
  - eexists. split; [reflexivity|]. split; [done|]. apply suffix_app_r. reflexivity.
Qed.

(** C23: At end of input (nothing but white space left) [main] never
    returns: every pass of the loop fails to extract a command, prints the
    menu, the prompt and [Oops!] again, and leaves the library untouched,
    for any number of passes. *)
Theorem main_spins_at_eof env fuel p :
  Forall (fun c => is_space c = true) (cin (app p)) ->
  exists p', main env fuel p = Ok (None, p') /\ pm p' = pm p /\
    cout (app p') = cout (app p) ++ concat (replicate fuel eof_output).
Proof.
  intros Hs. destruct (launcher_loop_eof env fuel (modify_app (set_running true) p))
    as (p' & Hrun & Hpm & Ho); [done | done |].
  exists p'. unfold main, launcher, st_bind, st_modify. rewrite Hrun. auto.
Qed.

(** C28: Each pass of the menu loop consumes input until only end of file
    is left: run for more passes than the input has characters, the loop
    has either exited (command 9) or drained [std::cin]. *)
Theorem launcher_loop_drains env fuel p b p' :
  length (cin (app p)) < fuel -> launcher_loop env fuel p = Ok (b, p') ->
  b = true \/ cin (app p') = [].
Proof.
  revert p. induction fuel as [|f IH]; intros p Hl Hrun; [lia|].
  simpl in Hrun. unfold st_bind at 1, st_gets in Hrun.
  destruct (keep_running (app p)); [|injection Hrun as <- _; by left].
  apply st_bind_Ok in Hrun as ([] & p1 & H1 & Hrun).
  destruct f as [|f]; [injection Hrun as <- <- |].
  - apply launcher_iteration_consumes in H1 as [H1|H1]; [lia | by right].
  - apply (IH p1); [|exact Hrun].
    apply launcher_iteration_consumes in H1 as [H1| ->]; simpl; lia.
Qed.


(** ** The theorems at concrete processes *)

Lemma register_command_spec_witness :
  register_command (initial_proc boot "abc") = Crash InvalidPointer.
Proof.
  apply (proj1 (register_command_spec (initial_proc boot "abc") "abc" [] ltac:(vm_compute; reflexivity))).
  reflexivity.
Defined.

Lemma armed_sysattrs : sysattrs_c_strings (lib armed).
Proof. by_decide. Qed.

Lemma callback_connect_faults_witness :
  callback 1 1 (initial_proc armed "") = Crash NullDeref \/
  callback 1 1 (initial_proc armed "") = Crash BufferOverflow.
Proof. apply callback_connect_faults; [lia | exact (proj2 armed_inv) | exact armed_sysattrs]. Defined.

Lemma property_query_answer_witness :
  property_command (initial_proc armed "1 idVendor") = Crash BufferOverflow.
Proof.
  apply (proj1 (property_query_answer (initial_proc armed "1 idVendor") 1 "idVendor"
                  (String.list_ascii_of_string " idVendor") [] ltac:(vm_compute; reflexivity)
                  ltac:(vm_compute; reflexivity) armed_sysattrs) "0x046d").
  vm_compute. reflexivity.
Defined.

Lemma main_spins_at_eof_witness :
  exists p', main two_devices 3 (initial_proc boot "  ") = Ok (None, p') /\ pm p' = boot /\
    cout (app p') = concat (replicate 3 eof_output).
Proof. apply (main_spins_at_eof two_devices 3 (initial_proc boot "  ")). by_decide. Defined.

Lemma launcher_loop_drains_witness :
  false = true \/
  cin (app (match launcher_loop two_devices 4 (initial_proc boot "5 5") with
            | Ok (_, p') => p' | Crash _ => initial_proc boot "" end)) = [].
Proof.
  apply (launcher_loop_drains two_devices 4 (initial_proc boot "5 5")); [simpl; lia |].
  vm_compute. reflexivity.
Defined.

End Harness.
